(** * Redact_app: the PII detection-and-resolution engine

    A shallow embedding of the class [AdvancedPIIRedactor] of
    [lib/API/PDF_IMG_to_TXT.py]: the Aadhaar (Verhoeff) validator, the
    context scorer, the candidate generator [detect_pii], the overlap
    resolver, the text redaction applicator, the redaction log and its
    summary.  [abcd.py] holds an earlier revision of the same class.

    Conventions.
    - A Python [str] is a list of code points ([char := N]).
    - A Python [float] is a binary64 primitive float; [0.7 + 0.2] below is
      the IEEE sum the interpreter computes.
    - A Python [dict] is an association list in insertion order.
    - Code that can raise lives in the [result] monad; a [try]/[except] is
      the combinator [try_except].
    - What the class borrows from outside the repository is a parameter:
      the Unicode character database behind [str.isdigit], [str.lower],
      [int] and the regex class [\s] ([UnicodeDB]); the regex engine
      ([RegexEngine]); the file system and the text extractors
      ([FileSystem]).  The validators that no property below depends on are
      the fields of [Validators]: the properties hold whatever they return
      or raise. *)

From Stdlib Require Import String Ascii.
From Stdlib Require Import ZArith NArith Arith List Bool Lia.
From Stdlib Require Import Floats Permutation Sorted.
Import ListNotations.

Set Warnings "-inexact-float".

(* ------------------------------------------------------------------ *)
(** ** Python values *)

Definition char := N.
Definition str := list char.

(** An ASCII literal as a [str]. *)
Definition py (s : string) : str :=
  List.map N_of_ascii (list_ascii_of_string s).
Arguments py s%_string.

(** [a == b] on strings. *)
Fixpoint str_eqb (a b : str) : bool :=
  match a, b with
  | [], [] => true
  | x :: a', y :: b' => N.eqb x y && str_eqb a' b'
  | _, _ => false
  end.

(** [s[i:j]] for integers of either sign, as CPython's slice adjustment
    computes it (step 1). *)
Definition slice_index (len i : Z) : Z :=
  if (i <? 0)%Z then Z.max 0 (i + len) else Z.min i len.

Definition py_slice {A} (s : list A) (i j : Z) : list A :=
  let len := Z.of_nat (length s) in
  let lo := slice_index len i in
  let hi := slice_index len j in
  firstn (Z.to_nat (hi - lo)) (skipn (Z.to_nat lo) s).

(** [s[i:j]], [s[:j]] and [s[j:]] for non-negative offsets. *)
Definition substr {A} (s : list A) (i j : nat) : list A :=
  firstn (j - i) (skipn i s).

(** [needle in hay] on strings. *)
Fixpoint startswith (needle hay : str) : bool :=
  match needle, hay with
  | [], _ => true
  | _ :: _, [] => false
  | a :: n', b :: h' => N.eqb a b && startswith n' h'
  end.

Fixpoint str_in (needle hay : str) : bool :=
  startswith needle hay ||
  match hay with
  | [] => false
  | _ :: h' => str_in needle h'
  end.

(** [x in l] on a list of strings. *)
Definition str_mem (x : str) (l : list str) : bool :=
  existsb (str_eqb x) l.

(** Python's two-argument [min]: the first argument wins unless the second
    is strictly smaller. *)
Definition py_min (a b : float) : float :=
  if (b <? a)%float then b else a.

(** [float(n)] for an integer of magnitude below 2^63, which covers the
    [4 - priority] of every tier and every count converted here. *)
Definition float_of_Z (z : Z) : float :=
  if (z <? 0)%Z then (- PrimFloat.of_uint63 (Uint63.of_Z (- z)))%float
  else PrimFloat.of_uint63 (Uint63.of_Z z).

Definition float_of_nat (n : nat) : float := float_of_Z (Z.of_nat n).

(* ------------------------------------------------------------------ *)
(** ** Exceptions *)

Inductive exn : Type :=
| ValueError | TypeError | IndexError | KeyError | AttributeError
| OSError | FileNotFoundError | Exception.

Inductive result (A : Type) : Type :=
| Ok (a : A)
| Raise (e : exn).
Arguments Ok {A} a.
Arguments Raise {A} e.

Definition bind {A B} (c : result A) (k : A -> result B) : result B :=
  match c with
  | Ok a => k a
  | Raise e => Raise e
  end.

Declare Scope py_scope.
Delimit Scope py_scope with pym.
Notation "x <- c ;; k" := (bind c (fun x => k))
  (at level 61, c at next level, right associativity) : py_scope.
Open Scope py_scope.

(** [try: c  except: handler], catching every exception. *)
Definition try_except {A} (c : result A) (handler : exn -> result A)
  : result A :=
  match c with
  | Ok a => Ok a
  | Raise e => handler e
  end.

(** [l[i]] on a list. *)
Definition index {A} (l : list A) (i : nat) : result A :=
  match nth_error l i with
  | Some x => Ok x
  | None => Raise IndexError
  end.

(* ------------------------------------------------------------------ *)
(** ** Dictionaries *)

Module Dict.

Definition dict (V : Type) := list (str * V).

Fixpoint get {V} (d : dict V) (k : str) : option V :=
  match d with
  | [] => None
  | (k', v) :: d' => if str_eqb k k' then Some v else get d' k
  end.

(** [d[k] = v]: overwrite in place, or append a new key. *)
Fixpoint set {V} (d : dict V) (k : str) (v : V) : dict V :=
  match d with
  | [] => [(k, v)]
  | (k', v') :: d' =>
      if str_eqb k k' then (k', v) :: d' else (k', v') :: set d' k v
  end.

Definition mem {V} (d : dict V) (k : str) : bool :=
  match get d k with Some _ => true | None => false end.

Definition keys {V} (d : dict V) : list str := List.map fst d.
Definition values {V} (d : dict V) : list V := List.map snd d.

(** A dictionary has each key once. *)
Definition wf {V} (d : dict V) : Prop := NoDup (keys d).

End Dict.
Import Dict.

(* ------------------------------------------------------------------ *)
(** ** The Unicode character database *)

Class UnicodeDB : Type := {
  (** [c.isspace()], which is also the regex class [\s] on [str]. *)
  char_isspace : char -> bool;
  (** [c.isdigit()]. *)
  char_isdigit : char -> bool;
  (** [int(c)] on a one-character string: the value of a decimal digit,
      [None] where [int] raises [ValueError]. *)
  char_int : char -> option nat;
  (** [s.lower()]. *)
  str_lower : str -> str
}.

(** What the database guarantees and the validators rely on: a decimal
    digit has a value below ten, and is a digit. *)
Record UnicodeLaws (U : UnicodeDB) : Prop := {
  char_int_lt : forall c d, char_int c = Some d -> d < 10;
  char_int_isdigit : forall c d, char_int c = Some d -> char_isdigit c = true
}.
Arguments char_int_lt {U} _ {c d} _.
Arguments char_int_isdigit {U} _ {c d} _.

Module Latin1.

(** The database restricted to the code points below 256, where it is
    CPython's; above that nothing is classified and nothing lower-cased. *)
Definition isspace (c : char) : bool :=
  ((9 <=? c) && (c <=? 13) || (28 <=? c) && (c <=? 32)
   || (c =? 133) || (c =? 160))%N.

Definition isdigit (c : char) : bool :=
  ((48 <=? c) && (c <=? 57) || (c =? 178) || (c =? 179) || (c =? 185))%N.

Definition int (c : char) : option nat :=
  if ((48 <=? c) && (c <=? 57))%N then Some (N.to_nat (c - 48)) else None.

Definition lower_char (c : char) : char :=
  if ((65 <=? c) && (c <=? 90)
      || (192 <=? c) && (c <=? 222) && negb (c =? 215))%N
  then (c + 32)%N else c.

Definition lower (s : str) : str := List.map lower_char s.

Definition db : UnicodeDB :=
  {| char_isspace := isspace; char_isdigit := isdigit; char_int := int;
     str_lower := lower |}.

End Latin1.

(* ------------------------------------------------------------------ *)
(** ** The Aadhaar validator *)

Section Aadhaar.
Context {U : UnicodeDB}.

(** [re.sub(r'[-\s]', '', number)]. *)
Definition strip_separators (number : str) : str :=
  filter (fun c => negb ((c =? 45)%N || char_isspace c)) number.

(** [s.isdigit()]. *)
Definition str_isdigit (s : str) : bool :=
  match s with
  | [] => false
  | _ => forallb char_isdigit s
  end.

(** [int(digit)] for one character of a string. *)
Definition int_of_char (c : char) : result nat :=
  match char_int c with
  | Some d => Ok d
  | None => Raise ValueError
  end.

Definition multiplication_table : list (list nat) :=
  [ [0; 1; 2; 3; 4; 5; 6; 7; 8; 9];
    [1; 2; 3; 4; 0; 6; 7; 8; 9; 5];
    [2; 3; 4; 0; 1; 7; 8; 9; 5; 6];
    [3; 4; 0; 1; 2; 8; 9; 5; 6; 7];
    [4; 0; 1; 2; 3; 9; 5; 6; 7; 8];
    [5; 9; 8; 7; 6; 0; 4; 3; 2; 1];
    [6; 5; 9; 8; 7; 1; 0; 4; 3; 2];
    [7; 6; 5; 9; 8; 2; 1; 0; 4; 3];
    [8; 7; 6; 5; 9; 3; 2; 1; 0; 4];
    [9; 8; 7; 6; 5; 4; 3; 2; 1; 0] ].

Definition permutation_table : list (list nat) :=
  [ [0; 1; 2; 3; 4; 5; 6; 7; 8; 9];
    [1; 5; 7; 6; 2; 8; 3; 0; 9; 4];
    [5; 8; 0; 3; 7; 9; 6; 1; 4; 2];
    [8; 9; 1; 6; 0; 4; 3; 5; 2; 7];
    [9; 4; 5; 3; 1; 2; 6; 8; 7; 0];
    [4; 2; 8; 6; 5; 7; 3; 9; 0; 1];
    [2; 7; 9; 3; 8; 0; 6; 4; 1; 5];
    [7; 0; 4; 6; 9; 1; 3; 2; 5; 8] ].

(** The loop [for i, digit in enumerate(reversed(digits))], entered at
    index [i] with the running [checksum]. *)
Fixpoint verhoeff_loop (i checksum : nat) (digits : list char) : result nat :=
  match digits with
  | [] => Ok checksum
  | digit :: rest =>
      mrow <- index multiplication_table checksum ;;
      prow <- index permutation_table (i mod 8) ;;
      d <- int_of_char digit ;;
      p <- index prow d ;;
      c <- index mrow p ;;
      verhoeff_loop (S i) c rest
  end.

Definition _validate_aadhaar (number : str) : result bool :=
  let digits := strip_separators number in
  if negb (length digits =? 12) || negb (str_isdigit digits) then Ok false
  else if str_eqb digits (repeat 48%N 12) || str_eqb digits (repeat 49%N 12)
  then Ok false
  else
    checksum <- verhoeff_loop 0 0 (rev digits) ;;
    Ok (checksum =? 0).

(** *** The validator as the specification words it *)

(** The dihedral-group product and the position permutation, as total
    functions on digit values. *)
Definition d5_mul (a b : nat) : nat := nth b (nth a multiplication_table []) 0.
Definition d5_perm (i d : nat) : nat := nth d (nth (i mod 8) permutation_table []) 0.

(** The checksum of the digit values, read from the last to the first,
    starting from 0. *)
Fixpoint verhoeff_from (i checksum : nat) (reversed_digits : list nat) : nat :=
  match reversed_digits with
  | [] => checksum
  | d :: rest => verhoeff_from (S i) (d5_mul checksum (d5_perm i d)) rest
  end.

Definition verhoeff_checksum (digits : list nat) : nat :=
  verhoeff_from 0 0 (rev digits).

(** The digit values of a string of decimal digits. *)
Fixpoint digit_values (s : str) : option (list nat) :=
  match s with
  | [] => Some []
  | c :: s' =>
      match char_int c, digit_values s' with
      | Some d, Some ds => Some (d :: ds)
      | _, _ => None
      end
  end.

(** "The same digit twelve times". *)
Definition repeated_digit (ds : list nat) : bool :=
  match ds with
  | [] => false
  | d :: _ => forallb (Nat.eqb d) ds
  end.

(** The claimed validator: 12 digits after stripping, not one digit
    repeated, checksum 0. *)
Definition aadhaar_valid_as_specified (number : str) : bool :=
  match digit_values (strip_separators number) with
  | Some ds => (length ds =? 12) && negb (repeated_digit ds)
               && (verhoeff_checksum ds =? 0)
  | None => false
  end.

End Aadhaar.

(* ------------------------------------------------------------------ *)
(** ** The data model *)

(** One detected span: the dictionary [{"text", "start", "end",
    "confidence", "pattern"}]; the entities of the NLP stage carry no
    ["pattern"]. *)
Record Detection : Type := {
  text : str;
  start : nat;
  end_ : nat;
  confidence : float;
  pattern : option str
}.

(** One entry of [self.redaction_log]. *)
Record LogEntry : Type := {
  timestamp : str;
  input_file : str;
  output_file : str;
  pii_detected : dict nat;
  total_pii_count : nat;
  pii_details : dict (list (str * float))
}.

(** The two keys of [self.config] the engine reads. *)
Record Config : Type := {
  confidence_threshold : float;
  context_window : Z
}.

(** One entry of [self.patterns]. *)
Record PatternConfig : Type := {
  patterns : list str;
  validation : option (str -> result bool);
  priority : option Z
}.

(** An entity of [doc.ents]. *)
Record Entity : Type := {
  label_ : str;
  ent_text : str;
  start_char : nat;
  end_char : nat
}.

(** The object [self]. [self_nlp] is [None] when the model failed to
    load, and otherwise the call [self.nlp(text)] followed by
    [doc.ents]. *)
Record AdvancedPIIRedactor : Type := {
  self_config : Config;
  self_nlp : option (str -> result (list Entity));
  self_patterns : dict PatternConfig;
  self_redaction_log : list LogEntry;
  self_context_keywords : dict (list str)
}.

(** A match object of [re]: the span of the whole match and the spans of
    its capturing groups.  Every capturing group of the registry's
    patterns is mandatory, so a group of a match always has a span. *)
Record MatchObject : Type := {
  m_span : nat * nat;
  m_groups : list (nat * nat)
}.

(** [list(re.finditer(pattern, text, re.IGNORECASE))]. *)
Class RegexEngine : Type := {
  finditer : str -> str -> list MatchObject
}.

(** The validators of the class other than [_validate_aadhaar]. *)
Class Validators : Type := {
  _validate_pan : str -> result bool;
  _validate_dl : str -> result bool;
  _validate_passport : str -> result bool;
  _validate_voter_id : str -> result bool;
  _validate_credit_card : str -> result bool;
  _validate_bank_account : str -> result bool;
  _validate_ifsc : str -> result bool;
  _validate_mobile : str -> result bool;
  _validate_email : str -> result bool;
  _validate_date : str -> result bool;
  _validate_age : str -> result bool;
  _validate_pincode : str -> result bool;
  _validate_address : str -> result bool;
  _validate_name : str -> result bool;
  _validate_biometric : str -> result bool;
  _validate_health_id : str -> result bool
}.

(* ------------------------------------------------------------------ *)
(** ** Construction *)

Definition default_config : Config :=
  {| confidence_threshold := 0.6; context_window := 150 |}.

(** The keys a user configuration file may override. *)
Record UserConfig : Type := {
  user_confidence_threshold : option float;
  user_context_window : option Z
}.

(** [default_config.update(user_config)] when the file exists. *)
Definition _load_config (config_path : option UserConfig) : Config :=
  match config_path with
  | Some user_config =>
      {| confidence_threshold :=
           match user_confidence_threshold user_config with
           | Some t => t
           | None => confidence_threshold default_config
           end;
         context_window :=
           match user_context_window user_config with
           | Some w => w
           | None => context_window default_config
           end |}
  | None => default_config
  end.

Definition _load_context_keywords : dict (list str) :=
  [ (py "AADHAAR", List.map py ["aadhaar"; "aadhar"; "uid"; "unique"; "identification"; "uidai"; "enrollment"; "demographic"]%string);
    (py "PAN", List.map py ["pan"; "permanent"; "account"; "number"; "income"; "tax"; "assessee"; "taxpayer"]%string);
    (py "DRIVING_LICENSE", List.map py ["driving"; "license"; "dl"; "motor"; "vehicle"; "transport"; "rto"; "issued"]%string);
    (py "PASSPORT", List.map py ["passport"; "travel"; "document"; "republic"; "india"; "issued"; "valid"]%string);
    (py "VOTER_ID", List.map py ["voter"; "election"; "epic"; "electoral"; "commission"; "booth"; "constituency"]%string);
    (py "CREDIT_CARD", List.map py ["credit"; "debit"; "card"; "visa"; "master"; "amex"; "discover"; "valid"; "expires"]%string);
    (py "BANK_ACCOUNT", List.map py ["account"; "bank"; "saving"; "current"; "deposit"; "branch"; "holder"]%string);
    (py "IFSC", List.map py ["ifsc"; "micr"; "branch"; "code"; "routing"; "swift"; "bank"]%string);
    (py "MOBILE", List.map py ["mobile"; "phone"; "contact"; "cell"; "number"; "registered"; "primary"]%string);
    (py "EMAIL", List.map py ["email"; "mail"; "address"; "contact"; "registered"; "primary"; "alternate"]%string);
    (py "DOB", List.map py ["birth"; "dob"; "born"; "date"; "age"; "year"; "month"; "day"]%string);
    (py "ADDRESS", List.map py ["address"; "residence"; "house"; "flat"; "plot"; "street"; "road"; "city"; "state"; "country"]%string);
    (py "PINCODE", List.map py ["pin"; "pincode"; "postal"; "zip"; "area"; "code"]%string);
    (py "NAME", List.map py ["name"; "first"; "last"; "middle"; "full"; "surname"; "given"; "family"]%string);
    (py "FATHER_NAME", List.map py ["father"; "dad"; "papa"; "parent"; "guardian"; "s/o"; "son"; "daughter"]%string);
    (py "MOTHER_NAME", List.map py ["mother"; "mom"; "mama"; "parent"; "guardian"; "d/o"; "w/o"; "wife"]%string);
    (py "SPOUSE_NAME", List.map py ["spouse"; "husband"; "wife"; "partner"; "married"; "w/o"; "s/o"]%string) ].

(* ------------------------------------------------------------------ *)
(** ** Sorting *)

Section Sorting.
Context {A K : Type} (key : A -> K) (ltb : K -> K -> bool).

(** [x] goes behind the leading elements whose key is strictly greater,
    and before the first one whose key is not. *)
Fixpoint insert_desc (x : A) (l : list A) : list A :=
  match l with
  | [] => [x]
  | y :: l' => if ltb (key x) (key y) then y :: insert_desc x l' else x :: l
  end.

(** [sorted(l, key=key, reverse=True)]: descending by key, stable, for
    keys that [<] orders totally (offsets; confidences, which are never
    NaN). *)
Definition sorted_reverse (l : list A) : list A :=
  fold_right insert_desc [] l.

End Sorting.

(* ------------------------------------------------------------------ *)
(** ** The engine *)

Section Engine.
Context {U : UnicodeDB} {R : RegexEngine}.

(** [d.get(k, [])]. *)
Definition get_or_empty {V} (d : dict (list V)) (k : str) : list V :=
  match get d k with
  | Some l => l
  | None => []
  end.

Definition _calculate_context_score (self : AdvancedPIIRedactor)
    (text : str) (start end_ : nat) (pii_type : str) : float :=
  let context_window := context_window (self_config self) in
  let context_start := Z.max 0 (Z.of_nat start - context_window) in
  let context_end :=
    Z.min (Z.of_nat (length text)) (Z.of_nat end_ + context_window) in
  let context_text := str_lower (py_slice text context_start context_end) in
  let keywords := get_or_empty (self_context_keywords self) pii_type in
  let keyword_score :=
    fold_left
      (fun keyword_score keyword =>
         if str_in keyword context_text then (keyword_score + 0.2)%float
         else keyword_score)
      keywords 0%float in
  let base_score := 0.7%float in
  let final_score := py_min 1.0 (base_score + keyword_score) in
  final_score.

(** The inner loop of [_remove_overlapping_matches], with its [break]. *)
Fixpoint is_overlapping (m : Detection) (filtered_matches : list Detection)
  : bool :=
  match filtered_matches with
  | [] => false
  | existing :: rest =>
      if (start m <? end_ existing) && (start existing <? end_ m) then true
      else is_overlapping m rest
  end.

Definition _remove_overlapping_matches (matches : list Detection)
  : list Detection :=
  match matches with
  | [] => matches
  | _ =>
      let sorted_matches := sorted_reverse confidence PrimFloat.ltb matches in
      fold_left
        (fun filtered_matches m =>
           if is_overlapping m filtered_matches then filtered_matches
           else filtered_matches ++ [m])
        sorted_matches []
  end.

(** [match.group(1) if match.groups() else match.group()], as a span. *)
Definition match_span (m : MatchObject) : nat * nat :=
  match m_groups m with
  | g :: _ => g
  | [] => m_span m
  end.

(** [config.get("priority", 3)]. *)
Definition priority_or_default (config : PatternConfig) : Z :=
  match priority config with
  | Some p => p
  | None => 3%Z
  end.

(** The validator call of [detect_pii] with its [try]/[except]. *)
Definition run_validation (config : PatternConfig) (match_text : str)
  : result bool :=
  match validation config with
  | Some validate => try_except (validate match_text) (fun _ => Ok false)
  | None => Ok true
  end.

Definition final_confidence_of (config : PatternConfig) (context_score : float)
  : float :=
  let priority_boost := (float_of_Z (4 - priority_or_default config) * 0.1)%float in
  py_min 1.0 (context_score + priority_boost).

(** The body of the loop over the matches of one pattern: the detection
    appended to [matches], if any. *)
Definition scan_match (self : AdvancedPIIRedactor) (text pii_type : str)
    (config : PatternConfig) (pattern : str) (m : MatchObject)
  : result (option Detection) :=
  let match_start := fst (match_span m) in
  let match_end := snd (match_span m) in
  let match_text := substr text match_start match_end in
  let context_score :=
    _calculate_context_score self text match_start match_end pii_type in
  is_valid <- run_validation config match_text ;;
  let final_confidence := final_confidence_of config context_score in
  if is_valid
     && (confidence_threshold (self_config self) <? final_confidence)%float
  then Ok (Some {| text := match_text; start := match_start;
                   end_ := match_end; confidence := final_confidence;
                   pattern := Some pattern |})
  else Ok None.

(** A [for] loop whose body may raise. *)
Fixpoint for_each {A S} (body : S -> A -> result S) (l : list A) (s : S)
  : result S :=
  match l with
  | [] => Ok s
  | a :: l' => s' <- body s a ;; for_each body l' s'
  end.

Definition scan_pattern (self : AdvancedPIIRedactor) (text pii_type : str)
    (config : PatternConfig) (matches : list Detection) (pattern : str)
  : result (list Detection) :=
  for_each
    (fun matches m =>
       found <- scan_match self text pii_type config pattern m ;;
       Ok (match found with
           | Some d => matches ++ [d]
           | None => matches
           end))
    (finditer pattern text) matches.

(** Stage 1 for one category: the list [matches] before overlap removal. *)
Definition scan_category (self : AdvancedPIIRedactor) (text pii_type : str)
    (config : PatternConfig) : result (list Detection) :=
  for_each (scan_pattern self text pii_type config) (patterns config) [].

Definition pattern_stage (self : AdvancedPIIRedactor) (text : str)
  : result (dict (list Detection)) :=
  for_each
    (fun detected_pii (item : str * PatternConfig) =>
       let (pii_type, config) := item in
       matches <- scan_category self text pii_type config ;;
       Ok (match matches with
           | [] => detected_pii
           | _ => set detected_pii pii_type
                    (_remove_overlapping_matches matches)
           end))
    (self_patterns self) [].

Definition nlp_labels : list str :=
  List.map py ["PERSON"; "ORG"; "GPE"; "MONEY"; "DATE"; "CARDINAL"]%string.

(** The body of the loop over [doc.ents]. *)
Definition file_entity (entities : dict (list Detection)) (ent : Entity)
  : dict (list Detection) :=
  if str_mem (label_ ent) nlp_labels then
    let entity_type := (py "NLP_" ++ label_ ent)%list in
    let entities :=
      if mem entities entity_type then entities
      else set entities entity_type [] in
    set entities entity_type
      (get_or_empty entities entity_type
         ++ [ {| text := ent_text ent; start := start_char ent;
                 end_ := end_char ent; confidence := 0.8%float;
                 pattern := None |} ])
  else entities.

Definition collect_entities (ents : list Entity) : dict (list Detection) :=
  fold_left file_entity ents [].

Definition _detect_nlp_entities (model : str -> result (list Entity))
    (text : str) : result (dict (list Detection)) :=
  try_except (ents <- model text ;; Ok (collect_entities ents))
             (fun _ => Ok []).

(** Stage 2: the entities join [detected_pii]. *)
Definition merge_entities (detected_pii nlp_entities : dict (list Detection))
  : dict (list Detection) :=
  fold_left
    (fun detected_pii (item : str * list Detection) =>
       let (entity_type, entities) := item in
       if mem detected_pii entity_type
       then set detected_pii entity_type
              (get_or_empty detected_pii entity_type ++ entities)
       else set detected_pii entity_type entities)
    nlp_entities detected_pii.

Definition nlp_stage (self : AdvancedPIIRedactor) (text : str)
    (detected_pii : dict (list Detection)) : result (dict (list Detection)) :=
  match self_nlp self with
  | Some model =>
      nlp_entities <- _detect_nlp_entities model text ;;
      Ok (merge_entities detected_pii nlp_entities)
  | None => Ok detected_pii
  end.

(** [s.strip()]. *)
Definition lstrip (s : str) : str :=
  (fix go (s : str) : str :=
     match s with
     | c :: s' => if char_isspace c then go s' else s
     | [] => []
     end) s.

Definition str_strip (s : str) : str := rev (lstrip (rev (lstrip s))).

Definition false_positives : dict (list str) :=
  [ (py "NAME", List.map py ["name"; "first"; "last"; "full"; "mr"; "mrs"; "ms"; "dr"; "sir"; "madam"]%string);
    (py "MOBILE", List.map py ["0000000000"; "1111111111"; "9999999999"]%string);
    (py "EMAIL", List.map py ["email@example.com"; "test@test.com"]%string);
    (py "ADDRESS", List.map py ["address"; "street"; "city"; "state"]%string) ].

Definition _is_false_positive (text pii_type : str) : bool :=
  let text_lower := str_strip (str_lower text) in
  str_mem text_lower (get_or_empty false_positives pii_type).

(** Whether the loop body of [_refine_detections] reaches its [append]. *)
Definition keeps (pii_type : str) (m : Detection) : bool :=
  if str_mem pii_type [py "NAME"; py "ADDRESS"]
     && (length (str_strip (text m)) <? 3)
  then false
  else if _is_false_positive (text m) pii_type then false
  else true.

Definition _refine_detections (detected_pii : dict (list Detection))
    (text : str) : dict (list Detection) :=
  fold_left
    (fun refined_pii (item : str * list Detection) =>
       let (pii_type, matches) := item in
       let refined_matches := filter (keeps pii_type) matches in
       match refined_matches with
       | [] => refined_pii
       | _ => set refined_pii pii_type refined_matches
       end)
    detected_pii [].

(** [detect_pii]; [None] is the [None] an extractor returns on failure. *)
Definition detect_pii (self : AdvancedPIIRedactor) (text : option str)
  : result (dict (list Detection)) :=
  match text with
  | None | Some [] => Ok []
  | Some text =>
      detected_pii <- pattern_stage self text ;;
      detected_pii <- nlp_stage self text detected_pii ;;
      Ok (_refine_detections detected_pii text)
  end.

End Engine.

(* ------------------------------------------------------------------ *)
(** ** The pattern registry *)

Section Registry.
Context {U : UnicodeDB} {V : Validators}.

Definition _get_comprehensive_patterns : dict PatternConfig :=
  [
    (py "AADHAAR",
     {| patterns :=
         [ py "\b\d{4}[-\s]?\d{4}[-\s]?\d{4}\b";
           py "\b\d{12}\b";
           py "(?i)(?:aadhaar|aadhar|uid)[-\s:]*(?:no|number|#)?[-\s:]*(\d{4}[-\s]?\d{4}[-\s]?\d{4})";
           py "(?i)(?:aadhaar|aadhar|uid)[-\s:]*(?:no|number|#)?[-\s:]*(\d{12})" ];
        validation := Some _validate_aadhaar;
        priority := Some 1%Z |});
    (py "PAN",
     {| patterns :=
         [ py "\b[A-Z]{5}\d{4}[A-Z]\b";
           py "(?i)(?:pan|permanent.*account)[-\s:]*(?:no|number|#)?[-\s:]*([A-Z]{5}\d{4}[A-Z])" ];
        validation := Some _validate_pan;
        priority := Some 1%Z |});
    (py "DRIVING_LICENSE",
     {| patterns :=
         [ py "\b[A-Z]{2}[-\s]?\d{2}[-\s]?\d{4}[-\s]?\d{7}\b";
           py "\b[A-Z]{2}\d{13}\b";
           py "(?i)(?:driving.*license|dl)[-\s:]*(?:no|number|#)?[-\s:]*([A-Z]{2}[-\s]?\d{2}[-\s]?\d{4}[-\s]?\d{7})" ];
        validation := Some _validate_dl;
        priority := Some 2%Z |});
    (py "PASSPORT",
     {| patterns :=
         [ py "\b[A-Z]\d{7}\b";
           py "\b[A-Z]{2}\d{6}\b";
           py "(?i)(?:passport)[-\s:]*(?:no|number|#)?[-\s:]*([A-Z]\d{7})" ];
        validation := Some _validate_passport;
        priority := Some 2%Z |});
    (py "VOTER_ID",
     {| patterns :=
         [ py "\b[A-Z]{3}\d{7}\b";
           py "\b[A-Z]{2}[A-Z0-9]\d{6}\b";
           py "(?i)(?:voter.*id|epic)[-\s:]*(?:no|number|#)?[-\s:]*([A-Z]{3}\d{7})" ];
        validation := Some _validate_voter_id;
        priority := Some 2%Z |});
    (py "CREDIT_CARD",
     {| patterns :=
         [ py "\b(?:\d{4}[-\s]?){3}\d{4}\b";
           py "\b\d{13,19}\b";
           py "(?i)(?:credit|debit|card)[-\s:]*(?:no|number|#)?[-\s:]*(\d{4}[-\s]?\d{4}[-\s]?\d{4}[-\s]?\d{4})" ];
        validation := Some _validate_credit_card;
        priority := Some 1%Z |});
    (py "BANK_ACCOUNT",
     {| patterns :=
         [ py "\b\d{9,18}\b";
           py "(?i)(?:account)[-\s:]*(?:no|number|#)?[-\s:]*(\d{9,18})" ];
        validation := Some _validate_bank_account;
        priority := Some 2%Z |});
    (py "IFSC",
     {| patterns :=
         [ py "\b[A-Z]{4}0[A-Z0-9]{6}\b";
           py "(?i)(?:ifsc)[-\s:]*(?:code)?[-\s:]*([A-Z]{4}0[A-Z0-9]{6})" ];
        validation := Some _validate_ifsc;
        priority := Some 2%Z |});
    (py "MOBILE",
     {| patterns :=
         [ py "\b(?:\+91[-\s]?)?\d{10}\b";
           py "\b91[-\s]?\d{10}\b";
           py "(?i)(?:mobile|phone|contact)[-\s:]*(?:no|number|#)?[-\s:]*(\+?91[-\s]?\d{10})";
           py "(?i)(?:mobile|phone|contact)[-\s:]*(?:no|number|#)?[-\s:]*(\d{10})" ];
        validation := Some _validate_mobile;
        priority := Some 1%Z |});
    (py "EMAIL",
     {| patterns :=
         [ py "\b[A-Za-z0-9._%+-]+@[A-Za-z0-9.-]+\.[A-Z|a-z]{2,}\b";
           py "(?i)(?:email|mail)[-\s:]*(?:id|address)?[-\s:]*([A-Za-z0-9._%+-]+@[A-Za-z0-9.-]+\.[A-Z|a-z]{2,})" ];
        validation := Some _validate_email;
        priority := Some 1%Z |});
    (py "DOB",
     {| patterns :=
         [ py "\b(?:\d{1,2}[-/]\d{1,2}[-/]\d{2,4})\b";
           py "\b(?:\d{2,4}[-/]\d{1,2}[-/]\d{1,2})\b";
           py "(?i)(?:dob|date.*birth|born)[-\s:]*(\d{1,2}[-/]\d{1,2}[-/]\d{2,4})" ];
        validation := Some _validate_date;
        priority := Some 1%Z |});
    (py "AGE",
     {| patterns :=
         [ py "\b(?:age|aged)?\s*:?\s*(\d{1,3})\s*(?:years?|yrs?|y/o)?\b";
           py "(?i)(?:age)[-\s:]*(\d{1,3})" ];
        validation := Some _validate_age;
        priority := Some 3%Z |});
    (py "PINCODE",
     {| patterns :=
         [ py "\b\d{6}\b";
           py "(?i)(?:pin|pincode|postal)[-\s:]*(?:code)?[-\s:]*(\d{6})" ];
        validation := Some _validate_pincode;
        priority := Some 2%Z |});
    (py "ADDRESS",
     {| patterns :=
         [ py "(?i)\b(?:house|flat|plot|door|room|block|building|apartment|complex|colony|nagar|layout|area|sector|phase|street|road|lane|avenue|cross|main|circle|square|park|garden|residency|estate|township|enclave|extension|vihar|puram|city|town|village|dist|district|state|country)[\s\w\d,.-]{5,200}";
           py "(?i)(?:address|residence)[-\s:]*([^,\n]{10,200})" ];
        validation := Some _validate_address;
        priority := Some 3%Z |});
    (py "NAME",
     {| patterns :=
         [ py "(?i)(?:name|first.*name|last.*name|full.*name)[-\s:]*([A-Za-z\s]{2,50})";
           py "\b[A-Z][a-z]+\s+[A-Z][a-z]+(?:\s+[A-Z][a-z]+)?\b" ];
        validation := Some _validate_name;
        priority := Some 3%Z |});
    (py "FATHER_NAME",
     {| patterns :=
         [ py "(?i)(?:father.*name|s/o|son.*of)[-\s:]*([A-Za-z\s]{2,50})";
           py "(?i)(?:father)[-\s:]*([A-Za-z\s]{2,50})" ];
        validation := Some _validate_name;
        priority := Some 2%Z |});
    (py "MOTHER_NAME",
     {| patterns :=
         [ py "(?i)(?:mother.*name|d/o|daughter.*of|w/o|wife.*of)[-\s:]*([A-Za-z\s]{2,50})";
           py "(?i)(?:mother)[-\s:]*([A-Za-z\s]{2,50})" ];
        validation := Some _validate_name;
        priority := Some 2%Z |});
    (py "BIOMETRIC_ID",
     {| patterns :=
         [ py "\b\d{12,16}\b";
           py "(?i)(?:biometric|fingerprint|iris)[-\s:]*(?:id|number)?[-\s:]*(\d{12,16})" ];
        validation := Some _validate_biometric;
        priority := Some 3%Z |});
    (py "HEALTH_ID",
     {| patterns :=
         [ py "\b\d{2}-\d{4}-\d{4}-\d{4}\b";
           py "(?i)(?:health.*id|abha|medical.*id)[-\s:]*(\d{2}-\d{4}-\d{4}-\d{4})" ];
        validation := Some _validate_health_id;
        priority := Some 2%Z |}) ].

(** [__init__]: [config_path] is the parsed user configuration, if the
    file exists; [nlp_model] is what [_load_nlp_model] returned. *)
Definition __init__ (config_path : option UserConfig)
    (nlp_model : option (str -> result (list Entity))) : AdvancedPIIRedactor :=
  {| self_config := _load_config config_path;
     self_nlp := nlp_model;
     self_patterns := _get_comprehensive_patterns;
     self_redaction_log := [];
     self_context_keywords := _load_context_keywords |}.

End Registry.

(* ------------------------------------------------------------------ *)
(** ** Redaction of a text file, the log and its summary *)

(** The files, as the redactor sees them through its extractors, through
    [shutil.copy2] and through [open(path, 'w').write]. *)
Class FileSystem : Type := {
  files : Type;
  extract_text_from_file : files -> str -> option str;
  copy2 : files -> str -> str -> result unit * files;
  write_text : files -> str -> str -> result unit * files
}.

(** The block character U+2588. *)
Definition mask : char := 9608%N.

(** [{k: f(v) for k, v in d.items()}]. *)
Definition dict_comprehension {V W} (f : V -> W) (d : dict V) : dict W :=
  fold_left (fun acc (item : str * V) => set acc (fst item) (f (snd item)))
            d [].

Definition set_redaction_log (self : AdvancedPIIRedactor)
    (log : list LogEntry) : AdvancedPIIRedactor :=
  {| self_config := self_config self;
     self_nlp := self_nlp self;
     self_patterns := self_patterns self;
     self_redaction_log := log;
     self_context_keywords := self_context_keywords self |}.

Definition redacted_marker : str := py "***REDACTED***".

(** The entry [_log_redaction] builds; [now] is
    [datetime.now().isoformat()]. *)
Definition log_entry_of (now input_path output_path : str)
    (pii_data : dict (list Detection)) : LogEntry :=
  {| timestamp := now;
     input_file := input_path;
     output_file := output_path;
     pii_detected := dict_comprehension (fun v => length v) pii_data;
     total_pii_count :=
       list_sum (List.map (fun v => length v) (values pii_data));
     pii_details :=
       dict_comprehension
         (fun v => List.map (fun m => (redacted_marker, confidence m)) v)
         pii_data |}.

Definition _log_redaction (self : AdvancedPIIRedactor)
    (now input_path output_path : str) (pii_data : dict (list Detection))
  : AdvancedPIIRedactor :=
  let log_entry := log_entry_of now input_path output_path pii_data in
  set_redaction_log self (self_redaction_log self ++ [log_entry]).

(** The two loops that gather every match of every category. *)
Definition all_matches_of (pii_data : dict (list Detection)) : list Detection :=
  fold_left
    (fun all_matches (item : str * list Detection) =>
       fold_left (fun all_matches m => all_matches ++ [m])
                 (snd item) all_matches)
    pii_data [].

(** One replacement:
    [redacted_text[:start] + mask * (end - start) + redacted_text[end:]]. *)
Definition redact_span (redacted_text : str) (m : Detection) : str :=
  firstn (start m) redacted_text
    ++ repeat mask (end_ m - start m)
    ++ skipn (end_ m) redacted_text.

(** The text [_redact_text] writes when [pii_data] is not empty. *)
Definition redact_matches (text : str) (pii_data : dict (list Detection))
  : str :=
  let all_matches := all_matches_of pii_data in
  let all_matches := sorted_reverse start Nat.ltb all_matches in
  fold_left redact_span all_matches text.

Section Redaction.
Context {U : UnicodeDB} {R : RegexEngine} {F : FileSystem}.

(** The result of the call, and the redactor and the files after it. *)
Definition _redact_text (self : AdvancedPIIRedactor) (fs : files)
    (now input_path output_path : str)
  : result str * (AdvancedPIIRedactor * files) :=
  let text := extract_text_from_file fs input_path in
  match detect_pii self text with
  | Raise e => (Raise e, (self, fs))
  | Ok [] =>
      match copy2 fs input_path output_path with
      | (Ok _, fs') => (Ok output_path, (self, fs'))
      | (Raise e, fs') => (Raise e, (self, fs'))
      end
  | Ok pii_data =>
      match text with
      | None => (Raise TypeError, (self, fs))
      | Some text =>
          let redacted_text := redact_matches text pii_data in
          match write_text fs output_path redacted_text with
          | (Ok _, fs') =>
              (Ok output_path,
               (_log_redaction self now input_path output_path pii_data, fs'))
          | (Raise e, fs') => (Raise e, (self, fs'))
          end
      end
  end.

End Redaction.

(** A value of the summary dictionary. *)
Inductive SummaryValue : Type :=
| VStr (s : str)
| VInt (n : nat)
| VCounts (d : dict nat)
| VLog (l : list LogEntry).

(** [d.get(k, 0)]. *)
Definition get_or_zero (d : dict nat) (k : str) : nat :=
  match get d k with
  | Some n => n
  | None => 0
  end.

(** The body of the loop "Aggregate PII types". *)
Definition add_count (found : dict nat) (item : str * nat) : dict nat :=
  let (pii_type, count) := item in
  let found := if mem found pii_type then found else set found pii_type 0 in
  set found pii_type (get_or_zero found pii_type + count).

Definition aggregate_pii_types (log : list LogEntry) : dict nat :=
  fold_left
    (fun found entry => fold_left add_count (pii_detected entry) found)
    log [].

(** The count of [k] in one entry, 0 if the entry has no such category. *)
Definition entry_count (k : str) (entry : LogEntry) : nat :=
  get_or_zero (pii_detected entry) k.

Definition get_redaction_summary (self : AdvancedPIIRedactor)
  : dict SummaryValue :=
  match self_redaction_log self with
  | [] => [ (py "message", VStr (py "No redactions performed yet")) ]
  | _ =>
      [ (py "total_files_processed", VInt (length (self_redaction_log self)));
        (py "total_pii_redacted",
         VInt (list_sum (List.map total_pii_count (self_redaction_log self))));
        (py "pii_types_found",
         VCounts (aggregate_pii_types (self_redaction_log self)));
        (py "redaction_log", VLog (self_redaction_log self)) ]
  end.

(* ------------------------------------------------------------------ *)
(** ** The behaviour as the specification words it *)

Section AsSpecified.
Context {U : UnicodeDB}.

(** The window of the context scorer, lower-cased. *)
Definition context_text_of (self : AdvancedPIIRedactor) (text : str)
    (start end_ : nat) : str :=
  let context_window := context_window (self_config self) in
  str_lower
    (py_slice text
       (Z.max 0 (Z.of_nat start - context_window))
       (Z.min (Z.of_nat (length text)) (Z.of_nat end_ + context_window))).

(** The number of offsets of [hay] at which [needle] occurs. *)
Fixpoint occurrences (needle hay : str) : nat :=
  (if startswith needle hay then 1 else 0)
  + match hay with
    | [] => 0
    | _ :: h' => occurrences needle h'
    end.

(** The score with [k] the number of keyword occurrences in the window. *)
Definition context_score_by_occurrences (self : AdvancedPIIRedactor)
    (text : str) (start end_ : nat) (pii_type : str) : float :=
  let window := context_text_of self text start end_ in
  let keywords := get_or_empty (self_context_keywords self) pii_type in
  let k := list_sum (List.map (fun kw => occurrences kw window) keywords) in
  py_min 1.0 (0.7 + 0.2 * float_of_nat k)%float.

(** The number of keywords that occur in the window at all. *)
Definition keywords_present (self : AdvancedPIIRedactor)
    (text : str) (start end_ : nat) (pii_type : str) : nat :=
  let window := context_text_of self text start end_ in
  let keywords := get_or_empty (self_context_keywords self) pii_type in
  length (filter (fun kw => str_in kw window) keywords).

(** The validator passed: it returned [True], or there is none. *)
Definition validator_passed (config : PatternConfig) (match_text : str)
  : bool :=
  match validation config with
  | None => true
  | Some validate =>
      match validate match_text with
      | Ok answer => answer
      | Raise _ => false
      end
  end.

(** The candidate of one match: text and offsets from the first group if
    there is one, confidence [min(1.0, score + (4 - tier) * 0.1)], emitted
    iff the validator passed and the confidence exceeds the threshold. *)
Definition candidate_of (self : AdvancedPIIRedactor) (text pii_type : str)
    (config : PatternConfig) (pattern : str) (m : MatchObject)
  : list Detection :=
  let (s, e) := match m_groups m with
                | first_group :: _ => first_group
                | [] => m_span m
                end in
  let tier := match priority config with Some p => p | None => 3%Z end in
  let final :=
    py_min 1.0 (_calculate_context_score self text s e pii_type
                + float_of_Z (4 - tier) * 0.1)%float in
  if validator_passed config (substr text s e)
     && (confidence_threshold (self_config self) <? final)%float
  then [ {| text := substr text s e; start := s; end_ := e;
            confidence := final; pattern := Some pattern |} ]
  else [].

End AsSpecified.

(** The half-open intervals of two detections share an offset. *)
Definition intervals_intersect (a b : Detection) : bool :=
  Nat.max (start a) (start b) <? Nat.min (end_ a) (end_ b).

(** Greedy acceptance: a candidate joins the accepted ones iff its
    interval meets none of theirs. *)
Fixpoint greedy_accept (accepted candidates : list Detection)
  : list Detection :=
  match candidates with
  | [] => accepted
  | c :: rest =>
      if existsb (intervals_intersect c) accepted
      then greedy_accept accepted rest
      else greedy_accept (accepted ++ [c]) rest
  end.

(** [a] goes strictly before [b]: higher confidence first, then the
    earlier start, then the longer span. *)
Definition specified_before (a b : Detection) : bool :=
  (confidence b <? confidence a)%float
  || (confidence a =? confidence b)%float
     && ((start a <? start b)
         || (start a =? start b)
            && (end_ b - start b <? end_ a - start a)).

Fixpoint insert_specified (x : Detection) (l : list Detection)
  : list Detection :=
  match l with
  | [] => [x]
  | y :: l' =>
      if specified_before y x then y :: insert_specified x l' else x :: l
  end.

(** The reference procedure with the tie-break of the specification. *)
Definition resolve_as_specified (candidates : list Detection)
  : list Detection :=
  greedy_accept [] (fold_right insert_specified [] candidates).

(** [R] holds between the elements at any two distinct positions. *)
Definition pairwise {A} (R : A -> A -> Prop) (l : list A) : Prop :=
  forall i j a b,
    i <> j -> nth_error l i = Some a -> nth_error l j = Some b -> R a b.

(** The half-open intervals [[s1,e1)] and [[s2,e2)] share no offset. *)
Definition disjoint_intervals (s1 e1 s2 e2 : nat) : Prop :=
  forall x, ~ (s1 <= x < e1 /\ s2 <= x < e2).

Definition disjoint_spans (a b : Detection) : Prop :=
  disjoint_intervals (start a) (end_ a) (start b) (end_ b).

(** No two detections at distinct positions of [l] share an offset. *)
Definition pairwise_disjoint (l : list Detection) : Prop :=
  pairwise disjoint_spans l.

(** Entities of one label do not overlap, as for spaCy's [doc.ents]. *)
Definition entities_disjoint (ents : list Entity) : Prop :=
  pairwise
    (fun a b =>
       label_ a = label_ b ->
       disjoint_intervals (start_char a) (end_char a)
                          (start_char b) (end_char b))
    ents.

(** A detection lies inside a text of length [n]. *)
Definition in_bounds (n : nat) (m : Detection) : Prop :=
  start m <= end_ m <= n.

(** The engine reports spans of the text it was given. *)
Definition engine_in_bounds {R : RegexEngine} (text : str) : Prop :=
  forall pattern m,
    In m (finditer pattern text) ->
    fst (match_span m) <= snd (match_span m) <= length text.

(** The model reports entities of the text it was given. *)
Definition model_in_bounds (self : AdvancedPIIRedactor) (text : str) : Prop :=
  forall model ents,
    self_nlp self = Some model -> model text = Ok ents ->
    Forall (fun ent => start_char ent <= end_char ent <= length text) ents.

(** A detection stripped of everything but its confidence. *)
Definition erase (m : Detection) : Detection :=
  {| text := []; start := 0; end_ := 0; confidence := confidence m;
     pattern := None |}.

(* ------------------------------------------------------------------ *)
(** ** Closed instances for the examples *)

Module Sample.

(** An engine that finds nothing: what [re] returns on a text none of
    the registry's patterns matches. *)
Definition no_match : RegexEngine := {| finditer := fun _ _ => [] |}.

(** Validators that accept everything. *)
Definition accept_all : Validators :=
  let yes := fun _ : str => Ok true in
  {| _validate_pan := yes; _validate_dl := yes; _validate_passport := yes;
     _validate_voter_id := yes; _validate_credit_card := yes;
     _validate_bank_account := yes; _validate_ifsc := yes;
     _validate_mobile := yes; _validate_email := yes; _validate_date := yes;
     _validate_age := yes; _validate_pincode := yes;
     _validate_address := yes; _validate_name := yes;
     _validate_biometric := yes; _validate_health_id := yes |}.

(** Files as a dictionary from path to content. *)
Definition memory_files : FileSystem :=
  {| files := dict str;
     extract_text_from_file := fun fs path => get fs path;
     copy2 := fun fs src dst =>
       match get fs src with
       | Some content => (Ok tt, set fs dst content)
       | None => (Raise FileNotFoundError, fs)
       end;
     write_text := fun fs path content => (Ok tt, set fs path content) |}.

Definition detection (s e : nat) (c : float) : Detection :=
  {| text := []; start := s; end_ := e; confidence := c; pattern := None |}.

(** The entry of AADHAAR in the registry. *)
Definition aadhaar_config : PatternConfig :=
  snd (hd (py "", {| patterns := []; validation := None; priority := None |})
          (@_get_comprehensive_patterns Latin1.db accept_all)).

Definition person (name : str) (s e : nat) : Entity :=
  {| label_ := py "PERSON"; ent_text := name; start_char := s;
     end_char := e |}.

(** A model whose entities on "ab" are "a" and "b". *)
Definition disjoint_model : str -> result (list Entity) :=
  fun _ => Ok [person (py "a") 0 1; person (py "b") 1 2].

(** [AdvancedPIIRedactor()] without a configuration file and without the
    spaCy model. *)
Definition redactor : AdvancedPIIRedactor :=
  @__init__ Latin1.db accept_all None None.

End Sample.

(* ------------------------------------------------------------------ *)
(** ** Notions the properties are stated with *)

(** [k] keyword hits add 0.2 to the running score [k] times. *)
Fixpoint add_hits (k : nat) (score : float) : float :=
  match k with
  | 0 => score
  | S k' => (add_hits k' score + 0.2)%float
  end.

(** The score after [k] hits. *)
Definition score_after (k : nat) : float :=
  py_min 1.0 (0.7 + add_hits k 0)%float.

Section Stages.
Context {U : UnicodeDB} {R : RegexEngine}.

(** The candidates of a category, pattern by pattern and match by match. *)
Definition candidates (self : AdvancedPIIRedactor) (text pii_type : str)
    (config : PatternConfig) : list Detection :=
  flat_map
    (fun pattern =>
       flat_map (candidate_of self text pii_type config pattern)
                (finditer pattern text))
    (patterns config).

(** Stage 1 without its exception plumbing. *)
Definition detected_by_patterns (self : AdvancedPIIRedactor) (text : str)
  : dict (list Detection) :=
  fold_left
    (fun detected_pii (item : str * PatternConfig) =>
       match candidates self text (fst item) (snd item) with
       | [] => detected_pii
       | _ :: _ =>
           set detected_pii (fst item)
             (_remove_overlapping_matches
                (candidates self text (fst item) (snd item)))
       end)
    (self_patterns self) [].

(** What the NLP stage merges in: nothing when the model raises. *)
Definition detected_by_nlp (self : AdvancedPIIRedactor) (text : str)
  : dict (list Detection) :=
  match self_nlp self with
  | Some model =>
      match model text with
      | Ok ents => collect_entities ents
      | Raise _ => []
      end
  | None => []
  end.

End Stages.

Section Order.
Context {A K : Type} (key : A -> K) (ltb : K -> K -> bool).

(** [a] may stand before [b]: its key is not below that of [b]. *)
Definition not_below (a b : A) : Prop := ltb (key a) (key b) = false.

End Order.

(** The detection of an entity. *)
Definition detection_of (ent : Entity) : Detection :=
  {| text := ent_text ent; start := start_char ent; end_ := end_char ent;
     confidence := 0.8%float; pattern := None |}.

(** The keys of the NLP stage. *)
Definition nlp_keys : list str :=
  List.map (fun label => py "NLP_" ++ label)%list nlp_labels.

(** The entities filed under the key [k]. *)
Definition filed_under (k : str) (ent : Entity) : bool :=
  str_mem (label_ ent) nlp_labels && str_eqb (py "NLP_" ++ label_ ent)%list k.

(** The interval of [m] holds the offset [i]. *)
Definition covers (i : nat) (m : Detection) : bool :=
  (start m <=? i) && (i <? end_ m).

(* ------------------------------------------------------------------ *)
(** ** The validators that calculate

    [_validate_credit_card], [_validate_mobile], [_validate_email] and
    [_validate_pincode] as the class has them.  The registry above takes
    its validators through [Validators]; what is proved of these four
    holds of the functions themselves. *)

(** What the database guarantees besides: a decimal digit is neither white
    space nor the hyphen, and the ASCII digits have their values. *)
Record DigitLaws (U : UnicodeDB) : Prop := {
  digit_not_space : forall c d, char_int c = Some d -> char_isspace c = false;
  hyphen_not_digit : char_int 45%N = None;
  ascii_digit_value : forall n, n < 10 -> char_int (48 + N.of_nat n)%N = Some n
}.
Arguments digit_not_space {U} _ {c d} _.
Arguments hyphen_not_digit {U} _.
Arguments ascii_digit_value {U} _ {n} _.

Module Validator.
Section Validator.
Context {U : UnicodeDB}.

(** The loop [for i, digit in enumerate(reverse_digits)] of the Luhn sum,
    entered at index [i] with the running [total]. *)
Fixpoint luhn_loop (i total : nat) (reverse_digits : list char) : result nat :=
  match reverse_digits with
  | [] => Ok total
  | digit :: rest =>
      n <- int_of_char digit ;;
      let n :=
        if i mod 2 =? 1 then
          let n := n * 2 in
          if 9 <? n then n - 9 else n
        else n in
      luhn_loop (S i) (total + n) rest
  end.

Definition _validate_credit_card (number : str) : result bool :=
  let digits := strip_separators number in
  if negb (str_isdigit digits) || (length digits <? 13) || (19 <? length digits)
  then Ok false
  else
    let reverse_digits := rev digits in
    total <- luhn_loop 0 0 reverse_digits ;;
    Ok (total mod 10 =? 0).

(** [re.sub(r'[-\s+]', '', number)]. *)
Definition strip_dialling (number : str) : str :=
  filter (fun c => negb ((c =? 45)%N || char_isspace c || (c =? 43)%N)) number.

Definition _validate_mobile (number : str) : result bool :=
  let digits := strip_dialling number in
  let digits := if startswith (py "91") digits then skipn 2 digits else digits in
  if negb (length digits =? 10) then Ok false
  else
    first <- index digits 0 ;;
    Ok (str_in [first] (py "6789") && str_isdigit digits).

(** [s.split(sep)] for a separator of one character. *)
Fixpoint split_char (sep : char) (s : str) : list str :=
  match s with
  | [] => [[]]
  | c :: s' =>
      if (c =? sep)%N then [] :: split_char sep s'
      else match split_char sep s' with
           | part :: parts => (c :: part) :: parts
           | [] => [[c]]
           end
  end.

Definition _validate_email (email : str) : result bool :=
  if negb (str_in (py "@") email) then Ok false
  else
    domain <- index (split_char 64%N email) 1 ;;
    if negb (str_in (py ".") domain) then Ok false
    else Ok (length (split_char 64%N email) =? 2).

Definition _validate_pincode (pincode : str) : result bool :=
  Ok ((length pincode =? 6) && str_isdigit pincode
      && negb (startswith (py "0") pincode)).

End Validator.
End Validator.

(* ------------------------------------------------------------------ *)
(** ** The quality check *)

Section Quality.
Context {U : UnicodeDB} {R : RegexEngine} {F : FileSystem}.

Definition validate_redaction_quality (self : AdvancedPIIRedactor)
    (fs : files) (original_path redacted_path : str) : result bool :=
  try_except
    (let redacted_text := extract_text_from_file fs redacted_path in
     remaining_pii <- detect_pii self redacted_text ;;
     match remaining_pii with
     | _ :: _ => Ok false
     | [] => Ok true
     end)
    (fun _ => Ok false).

End Quality.

(* ------------------------------------------------------------------ *)
(** ** The earlier revision

    [abcd.py]: one pattern and one context pattern per category, a
    context score from the matches of the context pattern, validators
    called without [try], a log entry for every redaction, a summary
    without the guard for the empty log. *)

(** A detection without the key ["pattern"]. *)
Definition plain_detection (match_text : str) (match_start match_end : nat)
    (score : float) : Detection :=
  {| text := match_text; start := match_start; end_ := match_end;
     confidence := score; pattern := None |}.

(** [re.findall(pattern, text, re.IGNORECASE)]. *)
Class FindallEngine : Type := {
  findall : str -> str -> list str
}.

(** The class as [abcd.py] has it. *)
Module Legacy.

Record Config : Type := {
  confidence_threshold : float
}.

(** One entry of [self.patterns]. *)
Record PatternConfig : Type := {
  pattern : str;
  context : option str;
  validation : option (str -> result bool)
}.

(** One entry of [self.redaction_log]. *)
Record LogEntry : Type := {
  timestamp : str;
  input_file : str;
  output_file : str;
  pii_detected : dict nat;
  total_pii_count : nat
}.

Record AdvancedPIIRedactor : Type := {
  self_config : Config;
  self_nlp : option (str -> result (list Entity));
  self_patterns : dict PatternConfig;
  self_redaction_log : list LogEntry
}.

Definition default_config : Config := {| confidence_threshold := 0.8 |}.

Section Engine.
Context {U : UnicodeDB} {R : RegexEngine} {A : FindallEngine}
        {F : FileSystem}.

Definition _validate_aadhaar (number : str) : result bool :=
  let digits := strip_separators number in
  if negb (length digits =? 12) then Ok false
  else
    checksum <- verhoeff_loop 0 0 (rev digits) ;;
    Ok (checksum =? 0).

Definition _validate_mobile (number : str) : result bool :=
  let digits :=
    filter (fun c => negb ((c =? 45)%N || char_isspace c || (c =? 43)%N))
           number in
  let digits := if startswith (py "91") digits then skipn 2 digits else digits in
  if negb (length digits =? 10) then Ok false
  else
    first <- index digits 0 ;;
    Ok (str_in [first] (py "6789")).

Definition _validate_email (email : str) : result bool :=
  if negb (str_in (py "@") email) then Ok false
  else
    domain <- index (Validator.split_char 64%N email) 1 ;;
    Ok (str_in (py ".") domain).

Definition _validate_pincode (pincode : str) : result bool :=
  Ok ((length pincode =? 6) && str_isdigit pincode).

Definition _calculate_context_score (text : str) (start end_ : nat)
    (context_pattern : str) : float :=
  match context_pattern with
  | [] => 1.0%float
  | _ =>
      let context_window := 100%Z in
      let context_start := Z.max 0 (Z.of_nat start - context_window) in
      let context_end :=
        Z.min (Z.of_nat (length text)) (Z.of_nat end_ + context_window) in
      let context_text := py_slice text context_start context_end in
      let context_matches := findall context_pattern context_text in
      py_min 1.0 (float_of_nat (length context_matches) * 0.3 + 0.7)%float
  end.

(** The body of the loop over the matches of a category: the detection
    appended to [matches], if any. *)
Definition scan_match (self : AdvancedPIIRedactor) (text : str)
    (config : PatternConfig) (m : MatchObject) : result (option Detection) :=
  let match_start := fst (m_span m) in
  let match_end := snd (m_span m) in
  let match_text := substr text match_start match_end in
  let context_score :=
    _calculate_context_score text match_start match_end
      (match context config with Some c => c | None => [] end) in
  is_valid <- match validation config with
              | Some validate => validate match_text
              | None => Ok true
              end ;;
  if is_valid
     && (confidence_threshold (self_config self) <? context_score)%float
  then Ok (Some (plain_detection match_text match_start match_end
                   context_score))
  else Ok None.

Definition scan_category (self : AdvancedPIIRedactor) (text : str)
    (config : PatternConfig) : result (list Detection) :=
  for_each
    (fun matches m =>
       found <- scan_match self text config m ;;
       Ok (match found with
           | Some d => matches ++ [d]
           | None => matches
           end))
    (finditer (pattern config) text) [].

Definition pattern_stage (self : AdvancedPIIRedactor) (text : str)
  : result (dict (list Detection)) :=
  for_each
    (fun detected_pii (item : str * PatternConfig) =>
       let (pii_type, config) := item in
       matches <- scan_category self text config ;;
       Ok (match matches with
           | [] => detected_pii
           | _ => set detected_pii pii_type matches
           end))
    (self_patterns self) [].

Definition nlp_labels : list str :=
  List.map py ["PERSON"; "ORG"; "GPE"; "MONEY"; "DATE"]%string.

(** The body of the loop over [doc.ents]. *)
Definition file_entity (entities : dict (list Detection)) (ent : Entity)
  : dict (list Detection) :=
  if str_mem (label_ ent) nlp_labels then
    let entity_type := (py "NLP_" ++ label_ ent)%list in
    let entities :=
      if mem entities entity_type then entities
      else set entities entity_type [] in
    set entities entity_type
      (get_or_empty entities entity_type
         ++ [ plain_detection (ent_text ent) (start_char ent) (end_char ent)
                0.9%float ])
  else entities.

Definition _detect_nlp_entities (model : str -> result (list Entity))
    (text : str) : result (dict (list Detection)) :=
  try_except (ents <- model text ;; Ok (fold_left file_entity ents []))
             (fun _ => Ok []).

(** [d.update(other)]. *)
Definition update {V} (d other : dict V) : dict V :=
  fold_left (fun d (item : str * V) => set d (fst item) (snd item)) other d.

Definition detect_pii (self : AdvancedPIIRedactor) (text : option str)
  : result (dict (list Detection)) :=
  match text with
  | None | Some [] => Ok []
  | Some text =>
      detected_pii <- pattern_stage self text ;;
      match self_nlp self with
      | Some model =>
          nlp_entities <- _detect_nlp_entities model text ;;
          Ok (update detected_pii nlp_entities)
      | None => Ok detected_pii
      end
  end.

Definition log_entry_of (now input_path output_path : str)
    (pii_data : dict (list Detection)) : LogEntry :=
  {| timestamp := now;
     input_file := input_path;
     output_file := output_path;
     pii_detected := dict_comprehension (fun v => length v) pii_data;
     total_pii_count :=
       list_sum (List.map (fun v => length v) (values pii_data)) |}.

Definition _log_redaction (self : AdvancedPIIRedactor)
    (now input_path output_path : str) (pii_data : dict (list Detection))
  : AdvancedPIIRedactor :=
  let log_entry := log_entry_of now input_path output_path pii_data in
  {| self_config := self_config self;
     self_nlp := self_nlp self;
     self_patterns := self_patterns self;
     self_redaction_log := self_redaction_log self ++ [log_entry] |}.

(** The result of the call, and the redactor and the files after it.  With
    no text extracted, [open(output_path, 'w')] leaves an empty file and
    [f.write(None)] raises. *)
Definition _redact_text (self : AdvancedPIIRedactor) (fs : files)
    (now input_path output_path : str)
  : result str * (AdvancedPIIRedactor * files) :=
  let text := extract_text_from_file fs input_path in
  match detect_pii self text with
  | Raise e => (Raise e, (self, fs))
  | Ok pii_data =>
      match text with
      | None =>
          match write_text fs output_path [] with
          | (Ok _, fs') => (Raise TypeError, (self, fs'))
          | (Raise e, fs') => (Raise e, (self, fs'))
          end
      | Some text =>
          let redacted_text := redact_matches text pii_data in
          match write_text fs output_path redacted_text with
          | (Ok _, fs') =>
              (Ok output_path,
               (_log_redaction self now input_path output_path pii_data, fs'))
          | (Raise e, fs') => (Raise e, (self, fs'))
          end
      end
  end.

End Engine.

(** A value of the summary dictionary. *)
Inductive SummaryValue : Type :=
| VInt (n : nat)
| VLog (l : list LogEntry).

Definition get_redaction_summary (self : AdvancedPIIRedactor)
  : dict SummaryValue :=
  [ (py "total_files_processed", VInt (length (self_redaction_log self)));
    (py "total_pii_redacted",
     VInt (list_sum (List.map total_pii_count (self_redaction_log self))));
    (py "redaction_log", VLog (self_redaction_log self)) ].

End Legacy.

(* ------------------------------------------------------------------ *)
(** ** Redaction of a Word document: the replacements *)

(** [s.replace(old, new)] for a non-empty [old], from left to right:
    [skip] characters of an occurrence already replaced are still to be
    passed over. *)
Fixpoint replace_from (old new : str) (skip : nat) (s : str) : str :=
  match s with
  | [] => []
  | c :: s' =>
      match skip with
      | S k => replace_from old new k s'
      | 0 =>
          if startswith old s
          then new ++ replace_from old new (length old - 1) s'
          else c :: replace_from old new 0 s'
      end
  end.

(** [s.replace(old, new)]; an empty [old] occurs before every character
    and at the end. *)
Definition str_replace (old new s : str) : str :=
  match old with
  | [] => new ++ flat_map (fun c => c :: new) s
  | _ => replace_from old new 0 s
  end.

(** The replacement mapping of [_redact_word]. *)
Definition replacements_of (pii_data : dict (list Detection)) : dict str :=
  fold_left
    (fun replacements (item : str * list Detection) =>
       fold_left
         (fun replacements m =>
            set replacements (text m) (repeat mask (length (text m))))
         (snd item) replacements)
    pii_data [].

(** The loop over the replacements, on the text of one paragraph or of
    one table cell: [paragraph.text] is read, and assigned after each
    replacement. *)
Definition redact_paragraph (replacements : dict str) (paragraph_text : str)
  : str :=
  fold_left
    (fun paragraph_text (item : str * str) =>
       let (original, replacement) := item in
       if str_in original paragraph_text
       then str_replace original replacement paragraph_text
       else paragraph_text)
    replacements paragraph_text.

(** [out] is [s] with some characters masked. *)
Definition masks_some (s out : str) : Prop :=
  length out = length s
  /\ forall i, nth_error out i = nth_error s i \/ nth_error out i = Some mask.

(** Every replacement is as many masks as its original has characters. *)
Definition mask_replacements (replacements : dict str) : Prop :=
  forall original replacement,
    In (original, replacement) replacements ->
    replacement = repeat mask (length original).

(* ------------------------------------------------------------------ *)
(** ** More closed instances *)

Module Fixture.

(** An engine that finds the number of "Aadhaar: 1234 5678 9010" with the
    first pattern of AADHAAR, and nothing else. *)
Definition aadhaar_engine : RegexEngine :=
  {| finditer := fun pattern text =>
       if str_eqb pattern (py "\b\d{4}[-\s]?\d{4}[-\s]?\d{4}\b")
          && str_eqb text (py "Aadhaar: 1234 5678 9010")
       then [ {| m_span := (9, 23); m_groups := [] |} ]
       else [] |}.

(** A model that raises. *)
Definition failing_model : str -> result (list Entity) :=
  fun _ => Raise Exception.

(** [AdvancedPIIRedactor()] with a model that raises. *)
Definition redactor_with_failing_model : AdvancedPIIRedactor :=
  @__init__ Latin1.db Sample.accept_all None (Some failing_model).

(** [AdvancedPIIRedactor()] with a model that reports "a" and "b". *)
Definition redactor_with_model : AdvancedPIIRedactor :=
  @__init__ Latin1.db Sample.accept_all None (Some Sample.disjoint_model).

(** A line with two names and one Aadhaar number written twice. *)
Definition names_and_numbers : str :=
  py "Asha Rao, Ravi Rao. Aadhaar: 1234 5678 9010, UID 1234-5678-9010".

(** What [re.finditer(pattern, text, re.IGNORECASE)] returns on that line
    for the patterns of the registry: the first pattern of AADHAAR finds
    the two numbers, its third pattern finds them again in its group,
    after "Aadhaar: " and after "UID ", the first pattern of NAME finds
    the two names, and the other patterns find nothing. *)
Definition engine_on_names_and_numbers : RegexEngine :=
  {| finditer := fun pattern text =>
       if negb (str_eqb text names_and_numbers) then []
       else if str_eqb pattern (py "\b\d{4}[-\s]?\d{4}[-\s]?\d{4}\b")
       then [ {| m_span := (29, 43); m_groups := [] |};
              {| m_span := (49, 63); m_groups := [] |} ]
       else if str_eqb pattern
                 (py "(?i)(?:aadhaar|aadhar|uid)[-\s:]*(?:no|number|#)?[-\s:]*(\d{4}[-\s]?\d{4}[-\s]?\d{4})")
       then [ {| m_span := (20, 43); m_groups := [(29, 43)] |};
              {| m_span := (45, 63); m_groups := [(49, 63)] |} ]
       else if str_eqb pattern
                 (py "\b[A-Z][a-z]+\s+[A-Z][a-z]+(?:\s+[A-Z][a-z]+)?\b")
       then [ {| m_span := (0, 8); m_groups := [] |};
              {| m_span := (10, 18); m_groups := [] |} ]
       else [] |}.

(** A model whose entities on that line are the two names. *)
Definition names_model : str -> result (list Entity) :=
  fun text =>
    if str_eqb text names_and_numbers
    then Ok [ Sample.person (py "Asha Rao") 0 8;
              Sample.person (py "Ravi Rao") 10 18 ]
    else Ok [].

(** [AdvancedPIIRedactor()] with that model. *)
Definition redactor_with_names_model : AdvancedPIIRedactor :=
  @__init__ Latin1.db Sample.accept_all None (Some names_model).

End Fixture.

(* ------------------------------------------------------------------ *)
(** ** More notions the properties are stated with *)

(** The contribution of the digit [n] at index [i] of the reversed number
    to the Luhn sum. *)
Definition luhn_weight (i n : nat) : nat :=
  if i mod 2 =? 1 then (if 9 <? n * 2 then n * 2 - 9 else n * 2) else n.

Fixpoint luhn_sum (i : nat) (reversed_digits : list nat) : nat :=
  match reversed_digits with
  | [] => 0
  | n :: rest => luhn_weight i n + luhn_sum (S i) rest
  end.

(** The overlap test of [_remove_overlapping_matches]. *)
Definition overlaps (m existing : Detection) : bool :=
  (start m <? end_ existing) && (start existing <? end_ m).

(** The loop body of [_remove_overlapping_matches]. *)
Definition accept (filtered_matches : list Detection) (m : Detection)
  : list Detection :=
  if is_overlapping m filtered_matches then filtered_matches
  else filtered_matches ++ [m].

(** A confidence that is a number, not a NaN. *)
Definition is_number (c : float) : bool := (c =? c)%float.

(** The place of a number in the order of binary64: the sign class, then
    the exponent, then the mantissa, compared lexicographically. *)
Definition float_rank (x : spec_float) : Z * Z * Z :=
  match x with
  | S754_infinity true => (0, 0, 0)
  | S754_finite true m e => (1, - e, - Z.pos m)
  | S754_zero _ => (2, 0, 0)
  | S754_finite false m e => (3, e, Z.pos m)
  | S754_infinity false => (4, 0, 0)
  | S754_nan => (5, 0, 0)
  end%Z.

Definition rank_lt (a b : Z * Z * Z) : Prop :=
  let '(a1, a2, a3) := a in
  let '(b1, b2, b3) := b in
  (a1 < b1 \/ (a1 = b1 /\ (a2 < b2 \/ (a2 = b2 /\ a3 < b3))))%Z.

(** The redactor as it is when the spaCy model did not load. *)
Definition without_nlp (self : AdvancedPIIRedactor) : AdvancedPIIRedactor :=
  {| self_config := self_config self;
     self_nlp := None;
     self_patterns := self_patterns self;
     self_redaction_log := self_redaction_log self;
     self_context_keywords := self_context_keywords self |}.

(** The categories [_refine_detections] can drop a detection from. *)
Definition refined_categories : list str :=
  List.map py ["NAME"; "MOBILE"; "EMAIL"; "ADDRESS"]%string.

(** [d[k]]. *)
Definition getitem {V} (d : dict V) (k : str) : result V :=
  match get d k with
  | Some v => Ok v
  | None => Raise KeyError
  end.

(** An entry counts what it lists: its total is the sum of the counts of
    its categories, each of which is at least 1, and its details list the
    same categories. *)
Definition entry_consistent (entry : LogEntry) : Prop :=
  wf (pii_detected entry)
  /\ pii_detected entry <> []
  /\ Forall (fun count => 1 <= count) (values (pii_detected entry))
  /\ total_pii_count entry = list_sum (values (pii_detected entry))
  /\ keys (pii_details entry) = keys (pii_detected entry).

(** What is read from a path is what was last written to it. *)
Definition reads_back_writes (F : FileSystem) : Prop :=
  forall fs path content fs',
    write_text fs path content = (Ok tt, fs') ->
    extract_text_from_file fs' path = Some content.


(* ================================================================== *)
(** * Properties *)

(** ** Strings, lists and dictionaries *)

Lemma str_eqb_eq (a b : str) : str_eqb a b = true <-> a = b.
Proof.
  revert b. induction a as [|x a IH]; intros [|y b]; cbn;
    try (split; (discriminate || reflexivity)).
  rewrite andb_true_iff, N.eqb_eq, IH. split.
  - now intros [-> ->].
  - now intros [= -> ->].
Qed.

Lemma str_eqb_refl (a : str) : str_eqb a a = true.
Proof. now apply str_eqb_eq. Qed.

Lemma str_eqb_neq (a b : str) : str_eqb a b = false <-> a <> b.
Proof.
  rewrite <- str_eqb_eq. destruct (str_eqb a b); split; congruence.
Qed.

Lemma str_eqb_sym (a b : str) : str_eqb a b = str_eqb b a.
Proof.
  destruct (str_eqb a b) eqn:E.
  - apply str_eqb_eq in E. subst. symmetry. apply str_eqb_refl.
  - symmetry. apply str_eqb_neq. apply str_eqb_neq in E. congruence.
Qed.

Lemma index_nth {A} (d : A) (l : list A) (i : nat) :
  i < length l -> index l i = Ok (nth i l d).
Proof.
  intros H. unfold index.
  destruct (nth_error l i) eqn:E.
  - now rewrite (nth_error_nth l i d E).
  - apply nth_error_None in E. lia.
Qed.

(** A check that holds on [0 .. n-1] holds below [n]. *)
Lemma below_forallb (n : nat) (P : nat -> bool) (i : nat) :
  forallb P (seq 0 n) = true -> i < n -> P i = true.
Proof.
  intros H Hi. rewrite forallb_forall in H. apply H, in_seq. lia.
Qed.

(** ** The Aadhaar validator *)

Section AadhaarFacts.
Context {U : UnicodeDB} (L : UnicodeLaws U).

Lemma multiplication_row_length a :
  a < 10 -> length (nth a multiplication_table []) = 10.
Proof.
  intros H.
  apply Nat.eqb_eq,
    (below_forallb 10
       (fun a => length (nth a multiplication_table []) =? 10));
    [reflexivity|assumption].
Qed.

Lemma permutation_row_length i :
  length (nth (i mod 8) permutation_table []) = 10.
Proof.
  apply Nat.eqb_eq,
    (below_forallb 8 (fun r => length (nth r permutation_table []) =? 10));
    [reflexivity|].
  apply Nat.mod_upper_bound. lia.
Qed.

Lemma d5_mul_lt a b : a < 10 -> b < 10 -> d5_mul a b < 10.
Proof.
  intros Ha Hb. apply Nat.ltb_lt.
  apply (below_forallb 10 (fun b => d5_mul a b <? 10)); [|assumption].
  apply (below_forallb 10
           (fun a => forallb (fun b => d5_mul a b <? 10) (seq 0 10)));
    [reflexivity|assumption].
Qed.

Lemma d5_perm_lt i d : d < 10 -> d5_perm i d < 10.
Proof.
  intros Hd. apply Nat.ltb_lt. unfold d5_perm.
  apply (below_forallb 10
           (fun d => nth d (nth (i mod 8) permutation_table []) 0 <? 10));
    [|assumption].
  apply (below_forallb 8
           (fun r => forallb
              (fun d => nth d (nth r permutation_table []) 0 <? 10)
              (seq 0 10))); [reflexivity|].
  apply Nat.mod_upper_bound. lia.
Qed.

(** One step of the loop on a decimal digit. *)
Lemma verhoeff_step i c digit d rest :
  c < 10 -> char_int digit = Some d ->
  verhoeff_loop i c (digit :: rest)
  = verhoeff_loop (S i) (d5_mul c (d5_perm i d)) rest.
Proof.
  intros Hc Hd. pose proof (char_int_lt L Hd) as Hlt.
  cbn [verhoeff_loop].
  rewrite (index_nth []) by (change (length multiplication_table) with 10; lia).
  cbn [bind].
  rewrite (index_nth [] permutation_table)
    by (change (length permutation_table) with 8;
        apply Nat.mod_upper_bound; lia).
  cbn [bind]. unfold int_of_char. rewrite Hd. cbn [bind].
  rewrite (index_nth 0) by (rewrite permutation_row_length; lia).
  cbn [bind].
  rewrite (index_nth 0).
  - reflexivity.
  - rewrite multiplication_row_length by lia.
    apply (d5_perm_lt i d Hlt).
Qed.

(** One step of the loop on anything else: [int] raises. *)
Lemma verhoeff_step_raises i c digit rest :
  c < 10 -> char_int digit = None ->
  verhoeff_loop i c (digit :: rest) = Raise ValueError.
Proof.
  intros Hc Hd. cbn [verhoeff_loop].
  rewrite (index_nth []) by (change (length multiplication_table) with 10; lia).
  cbn [bind].
  rewrite (index_nth [] permutation_table)
    by (change (length permutation_table) with 8;
        apply Nat.mod_upper_bound; lia).
  cbn [bind]. unfold int_of_char. now rewrite Hd.
Qed.

Lemma verhoeff_loop_digits ds : forall vs i c,
  digit_values ds = Some vs -> c < 10 ->
  verhoeff_loop i c ds = Ok (verhoeff_from i c vs).
Proof.
  induction ds as [|digit rest IH]; intros vs i c Hv Hc.
  - injection Hv as <-. reflexivity.
  - cbn [digit_values] in Hv.
    destruct (char_int digit) as [d|] eqn:Hd; [|discriminate].
    destruct (digit_values rest) as [vs'|] eqn:Hr; [|discriminate].
    injection Hv as <-.
    rewrite (verhoeff_step i c digit d rest Hc Hd). cbn [verhoeff_from].
    apply IH; [reflexivity|].
    apply d5_mul_lt; [assumption|].
    apply d5_perm_lt, (char_int_lt L Hd).
Qed.

Lemma verhoeff_loop_not_digits ds : forall i c,
  digit_values ds = None -> c < 10 ->
  verhoeff_loop i c ds = Raise ValueError.
Proof.
  induction ds as [|digit rest IH]; intros i c Hv Hc.
  - discriminate.
  - cbn [digit_values] in Hv.
    destruct (char_int digit) as [d|] eqn:Hd.
    + rewrite (verhoeff_step i c digit d rest Hc Hd).
      destruct (digit_values rest) eqn:Hr; [discriminate|].
      apply IH; [reflexivity|].
      apply d5_mul_lt; [assumption|].
      apply d5_perm_lt, (char_int_lt L Hd).
    + now apply verhoeff_step_raises.
Qed.

Lemma digit_values_app a : forall b,
  digit_values (a ++ b)
  = match digit_values a, digit_values b with
    | Some x, Some y => Some (x ++ y)
    | _, _ => None
    end.
Proof.
  induction a as [|c a IH]; intros b; cbn.
  - now destruct (digit_values b).
  - rewrite IH. destruct (char_int c); [|reflexivity].
    destruct (digit_values a); [|reflexivity].
    now destruct (digit_values b).
Qed.

Lemma digit_values_rev s :
  digit_values (rev s) = option_map (@rev nat) (digit_values s).
Proof.
  induction s as [|c s IH]; [reflexivity|].
  cbn [rev]. rewrite digit_values_app, IH. cbn [digit_values].
  destruct (digit_values s); cbn; destruct (char_int c); reflexivity.
Qed.

Lemma digit_values_length s : forall ds,
  digit_values s = Some ds -> length ds = length s.
Proof.
  induction s as [|c s IH]; intros ds H; cbn in H.
  - now injection H as <-.
  - destruct (char_int c); [|discriminate].
    destruct (digit_values s); [|discriminate].
    injection H as <-. cbn. f_equal. now apply IH.
Qed.

Lemma digit_values_isdigit s : forall ds,
  digit_values s = Some ds -> forallb char_isdigit s = true.
Proof.
  induction s as [|c s IH]; intros ds H; cbn in *; [reflexivity|].
  destruct (char_int c) eqn:Hc; [|discriminate].
  destruct (digit_values s); [|discriminate].
  rewrite (char_int_isdigit L Hc). cbn. now apply (IH l).
Qed.

End AadhaarFacts.

Lemma latin1_laws : UnicodeLaws Latin1.db.
Proof.
  split; intros c d; cbn; unfold Latin1.int, Latin1.isdigit;
    destruct ((48 <=? c) && (c <=? 57))%N eqn:E; try discriminate.
  - intros [= <-]. apply andb_true_iff in E as [E1 E2].
    apply N.leb_le in E1, E2. lia.
  - reflexivity.
Qed.

(** C7 (as the code has it). [_validate_aadhaar] returns [True] exactly
    when the input, stripped of hyphens and whitespace, is twelve decimal
    digits, is neither twelve 0s nor twelve 1s, and has Verhoeff checksum
    0 (digits read from the last, checksum from 0, updated through the
    multiplication and permutation tables at position [i mod 8]).  It
    returns [False] whenever the stripped input is not twelve characters
    long, fails [isdigit], or is twelve 0s or twelve 1s. *)
Theorem validate_aadhaar_characterised
    (U : UnicodeDB) (L : UnicodeLaws U) (number : str) :
  let digits := strip_separators number in
  (_validate_aadhaar number = Ok true <->
   exists ds,
     digit_values digits = Some ds /\ length ds = 12
     /\ digits <> repeat 48%N 12 /\ digits <> repeat 49%N 12
     /\ verhoeff_checksum ds = 0)
  /\ (length digits <> 12 \/ str_isdigit digits = false
      \/ digits = repeat 48%N 12 \/ digits = repeat 49%N 12 ->
      _validate_aadhaar number = Ok false).
Proof.
  intros digits. unfold _validate_aadhaar. fold digits.
  destruct (length digits =? 12) eqn:Hlen; cbn [negb orb].
  2:{ apply Nat.eqb_neq in Hlen. split; [|reflexivity].
      split; [discriminate|].
      intros (ds & Hv & Hl & _). apply digit_values_length in Hv. lia. }
  apply Nat.eqb_eq in Hlen.
  destruct (str_isdigit digits) eqn:Hdig; cbn [negb].
  2:{ split; [|reflexivity]. split; [discriminate|].
      intros (ds & Hv & _). apply (digit_values_isdigit L) in Hv.
      unfold str_isdigit in Hdig. destruct digits; [discriminate|congruence]. }
  destruct (str_eqb digits (repeat 48%N 12)) eqn:H0; cbn [orb].
  { apply str_eqb_eq in H0. split; [|reflexivity].
    split; [discriminate|]. intros (ds & _ & _ & Hn & _). contradiction. }
  destruct (str_eqb digits (repeat 49%N 12)) eqn:H1.
  { apply str_eqb_eq in H1. split; [|reflexivity].
    split; [discriminate|]. intros (ds & _ & _ & _ & Hn & _). contradiction. }
  apply str_eqb_neq in H0, H1.
  split.
  2:{ intros [H|[H|[H|H]]]; [lia|discriminate|contradiction|contradiction]. }
  destruct (digit_values digits) as [ds|] eqn:Hv.
  - rewrite (verhoeff_loop_digits L (rev digits) (rev ds) 0 0);
      [|rewrite digit_values_rev, Hv; reflexivity|lia].
    cbn [bind]. fold (verhoeff_checksum ds). split.
    + intros [= Hc]. apply Nat.eqb_eq in Hc. exists ds.
      repeat split; try assumption.
      apply digit_values_length in Hv. lia.
    + intros (ds' & [= <-] & _ & _ & _ & Hc). now rewrite Hc.
  - rewrite (verhoeff_loop_not_digits L (rev digits) 0 0);
      [|rewrite digit_values_rev, Hv; reflexivity|lia].
    cbn [bind]. split; [discriminate|]. intros (ds & [=] & _).
Qed.

(** The characterisation at a real input: the checksum of 1234 5678 9010
    is 0, so the number is accepted. *)
Lemma validate_aadhaar_characterised_witness :
  UnicodeLaws Latin1.db
  /\ @_validate_aadhaar Latin1.db (py "1234 5678-9010") = Ok true.
Proof.
  split; [exact latin1_laws|].
  apply (validate_aadhaar_characterised Latin1.db latin1_laws
           (py "1234 5678-9010")).
  exists [1; 2; 3; 4; 5; 6; 7; 8; 9; 0; 1; 0].
  repeat split; try reflexivity; discriminate.
Defined.

(** C7 (as stated) fails: twelve 3s are one digit repeated, and the
    validator accepts them, as it does twelve 6s and twelve 9s. *)
Lemma validate_aadhaar_accepts_repeated_digit :
  ~ (@_validate_aadhaar Latin1.db (py "333333333333") = Ok true
     <-> @aadhaar_valid_as_specified Latin1.db (py "333333333333") = true)
  /\ @_validate_aadhaar Latin1.db (py "666666666666") = Ok true
  /\ @_validate_aadhaar Latin1.db (py "999999999999") = Ok true.
Proof.
  split; [|split; reflexivity].
  intros [H _]. specialize (H eq_refl). discriminate H.
Qed.

(** On characters that are digits to [isdigit] and not to [int], such as
    the superscript two, the validator raises instead of answering. *)
Example validate_aadhaar_raises :
  @_validate_aadhaar Latin1.db (repeat 178%N 12) = Raise ValueError.
Proof. reflexivity. Qed.

(** ** The context scorer *)

Lemma add_hits_shift k score :
  add_hits k (score + 0.2)%float = (add_hits k score + 0.2)%float.
Proof.
  induction k as [|k IH]; [reflexivity|].
  cbn [add_hits]. now rewrite IH.
Qed.

Lemma keyword_loop_hits (window : str) (keywords : list str) :
  forall score,
    fold_left
      (fun keyword_score keyword =>
         if str_in keyword window then (keyword_score + 0.2)%float
         else keyword_score)
      keywords score
    = add_hits (length (filter (fun kw => str_in kw window) keywords)) score.
Proof.
  induction keywords as [|kw rest IH]; intros score; [reflexivity|].
  cbn [fold_left filter]. rewrite IH.
  destruct (str_in kw window); [|reflexivity].
  cbn [length]. rewrite add_hits_shift. reflexivity.
Qed.

(** The ten-fold case analysis the keyword table allows. *)
Ltac upto_ten k :=
  do 11 (destruct k as [|k]; [reflexivity|]); exfalso; lia.

Lemma score_after_formula k :
  k <= 10 -> score_after k = py_min 1.0 (0.7 + 0.2 * float_of_nat k)%float.
Proof. intros H. upto_ten k. Qed.

Lemma score_after_values k :
  k <= 10 ->
  score_after k
  = match k with
    | 0 => 0.7%float
    | 1 => (0.7 + 0.2)%float
    | _ => 1%float
    end.
Proof. intros H. upto_ten k. Qed.

Lemma score_after_bounds k :
  k <= 10 ->
  (0.7 <=? score_after k)%float = true /\ (score_after k <=? 1)%float = true.
Proof.
  intros H.
  do 11 (destruct k as [|k]; [split; reflexivity|]); exfalso; lia.
Qed.

Lemma filter_length_le {A} (f : A -> bool) (l : list A) :
  length (filter f l) <= length l.
Proof.
  induction l as [|a l IH]; cbn; [lia|]. destruct (f a); cbn; lia.
Qed.

(** No category of the keyword table has more than ten keywords. *)
Lemma keyword_table_bound (pii_type : str) :
  length (get_or_empty _load_context_keywords pii_type) <= 10.
Proof.
  unfold get_or_empty, _load_context_keywords. cbn [get].
  repeat (match goal with
          | |- context [if str_eqb ?a ?b then _ else _] =>
              destruct (str_eqb a b); [cbn; lia|]
          end).
  cbn. lia.
Qed.

Section ScorerFacts.
Context {U : UnicodeDB}.

Lemma context_score_hits self text start end_ pii_type :
  _calculate_context_score self text start end_ pii_type
  = score_after (keywords_present self text start end_ pii_type).
Proof.
  unfold _calculate_context_score, keywords_present, context_text_of,
    score_after.
  now rewrite keyword_loop_hits.
Qed.

Lemma keywords_present_bound self text start end_ pii_type :
  self_context_keywords self = _load_context_keywords ->
  keywords_present self text start end_ pii_type <= 10.
Proof.
  intros H. unfold keywords_present. rewrite H.
  etransitivity; [apply filter_length_le|apply keyword_table_bound].
Qed.

(** For a non-negative width the window is the text from [start - w],
    clamped at 0, to [end + w], clamped at the length. *)
Lemma context_window_clamped self text start end_ (w : nat) :
  context_window (self_config self) = Z.of_nat w ->
  context_text_of self text start end_
  = str_lower (substr text (start - w) (Nat.min (length text) (end_ + w))).
Proof.
  intros Hw. unfold context_text_of, py_slice, substr, slice_index.
  rewrite Hw. f_equal.
  set (len := length text).
  assert (Hlo : (Z.max 0 (Z.of_nat start - Z.of_nat w)
                 = Z.of_nat (start - w))%Z) by lia.
  assert (Hhi : (Z.min (Z.of_nat len) (Z.of_nat end_ + Z.of_nat w)
                 = Z.of_nat (Nat.min len (end_ + w)))%Z) by lia.
  rewrite Hlo, Hhi.
  rewrite (proj2 (Z.ltb_ge (Z.of_nat (start - w)) 0)) by lia.
  rewrite (proj2 (Z.ltb_ge (Z.of_nat (Nat.min len (end_ + w))) 0)) by lia.
  destruct (Nat.le_gt_cases (start - w) len) as [Hle|Hgt].
  - replace (Z.to_nat (Z.min (Z.of_nat (start - w)) (Z.of_nat len)))
      with (start - w) by lia.
    f_equal. lia.
  - replace (Z.to_nat (Z.min (Z.of_nat (start - w)) (Z.of_nat len)))
      with len by lia.
    rewrite !skipn_all2 by (fold len; lia). now rewrite !firstn_nil.
Qed.

End ScorerFacts.

(** C3 (as the code has it). For a redactor with the keyword table of
    the source, the context score is [min(1.0, 0.7 + 0.2 * k)] where [k]
    is the number of the category's keywords that occur at least once in
    the lower-cased window; the window reaches [w] places to each side of
    the span, clamped to the text, and [w] is 150 by default. *)
Theorem context_score_counts_keywords_present
    (U : UnicodeDB) (self : AdvancedPIIRedactor)
    (text : str) (start end_ : nat) (pii_type : str) :
  self_context_keywords self = _load_context_keywords ->
  _calculate_context_score self text start end_ pii_type
  = py_min 1.0
      (0.7 + 0.2 * float_of_nat
                     (keywords_present self text start end_ pii_type))%float
  /\ (forall w : nat,
        context_window (self_config self) = Z.of_nat w ->
        context_text_of self text start end_
        = str_lower
            (substr text (start - w) (Nat.min (length text) (end_ + w))))
  /\ context_window (_load_config None) = 150%Z.
Proof.
  intros Hk. split; [|split].
  - rewrite context_score_hits. apply score_after_formula.
    now apply keywords_present_bound.
  - intros w Hw. now apply context_window_clamped.
  - reflexivity.
Qed.

(** The formula at a window with one keyword, twice. *)
Lemma context_score_counts_keywords_present_witness :
  self_context_keywords Sample.redactor = _load_context_keywords
  /\ @keywords_present Latin1.db Sample.redactor
       (py "Aadhaar aadhaar 1234") 16 20 (py "AADHAAR") = 1
  /\ @_calculate_context_score Latin1.db Sample.redactor
       (py "Aadhaar aadhaar 1234") 16 20 (py "AADHAAR")
     = py_min 1.0
         (0.7 + 0.2 * float_of_nat
                        (@keywords_present Latin1.db Sample.redactor
                           (py "Aadhaar aadhaar 1234") 16 20 (py "AADHAAR")))%float.
Proof.
  split; [reflexivity|]. split; [reflexivity|].
  apply (context_score_counts_keywords_present Latin1.db Sample.redactor
           (py "Aadhaar aadhaar 1234") 16 20 (py "AADHAAR") eq_refl).
Defined.

(** C3 (as stated) fails: the window "aadhaar aadhaar 1234" holds two
    occurrences of a keyword of AADHAAR, so the stated score is
    [min(1.0, 0.7 + 0.4) = 1.0]; the scorer counts the keyword once and
    returns [0.7 + 0.2]. *)
Lemma context_score_ignores_repeated_keyword :
  @_calculate_context_score Latin1.db Sample.redactor
    (py "Aadhaar aadhaar 1234") 16 20 (py "AADHAAR") = (0.7 + 0.2)%float
  /\ @context_score_by_occurrences Latin1.db Sample.redactor
       (py "Aadhaar aadhaar 1234") 16 20 (py "AADHAAR")
     = py_min 1.0 (0.7 + 0.4)%float
  /\ @_calculate_context_score Latin1.db Sample.redactor
       (py "Aadhaar aadhaar 1234") 16 20 (py "AADHAAR")
     <> @context_score_by_occurrences Latin1.db Sample.redactor
          (py "Aadhaar aadhaar 1234") 16 20 (py "AADHAAR").
Proof.
  split; [reflexivity|]. split; [reflexivity|].
  intros H. apply (f_equal (fun x => (x <? 1)%float)) in H.
  vm_compute in H. discriminate H.
Qed.

(** ** Confidence under the default threshold *)

Section ThresholdFacts.
Context {U : UnicodeDB} {V : Validators}.

(** Every tier of the registry is 1, 2 or 3, and every category has a
    validator. *)
Lemma registry_entry pii_type config :
  In (pii_type, config) _get_comprehensive_patterns ->
  (priority config = Some 1%Z \/ priority config = Some 2%Z
   \/ priority config = Some 3%Z)
  /\ exists validate, validation config = Some validate.
Proof.
  unfold _get_comprehensive_patterns. cbn [In].
  intros H.
  repeat (destruct H as [H|H];
          [injection H as _ <-; cbn [priority validation];
           split; [tauto|eexists; reflexivity] | ]).
  contradiction.
Qed.

Lemma final_confidence_bounds config k :
  (priority config = Some 1%Z \/ priority config = Some 2%Z
   \/ priority config = Some 3%Z) ->
  k <= 10 ->
  (0.7 <=? final_confidence_of config (score_after k))%float = true
  /\ (0.6 <? final_confidence_of config (score_after k))%float = true
  /\ (final_confidence_of config (score_after k) <=? 1)%float = true.
Proof.
  intros Hp Hk. unfold final_confidence_of, priority_or_default.
  destruct Hp as [-> | [-> | ->]];
    do 11 (destruct k as [|k]; [repeat split; reflexivity|]);
    exfalso; lia.
Qed.

End ThresholdFacts.

(** C10. With the keyword table and the registry of the source, the
    context score of any span of any category lies in [0.7, 1.0]; the
    final confidence of a registry category is then at least 0.7, above
    the default threshold 0.6; so under the default threshold a match is
    emitted exactly when its validator passed. *)
Theorem default_threshold_never_rejects
    (U : UnicodeDB) (V : Validators) (R : RegexEngine)
    (self : AdvancedPIIRedactor) (text : str)
    (span_start span_end : nat) (category : str)
    (pii_type : str) (config : PatternConfig) (pattern : str)
    (m : MatchObject) :
  self_context_keywords self = _load_context_keywords ->
  confidence_threshold (self_config self) = confidence_threshold default_config ->
  In (pii_type, config) _get_comprehensive_patterns ->
  let score := _calculate_context_score self text span_start span_end category in
  let match_start := fst (match_span m) in
  let match_end := snd (match_span m) in
  let final :=
    final_confidence_of config
      (_calculate_context_score self text match_start match_end pii_type) in
  ((0.7 <=? score)%float = true /\ (score <=? 1)%float = true)
  /\ (0.7 <=? final)%float = true
  /\ (confidence_threshold default_config <? final)%float = true
  /\ forall is_valid,
       run_validation config (substr text match_start match_end) = Ok is_valid ->
       scan_match self text pii_type config pattern m
       = Ok (if is_valid
             then Some {| text := substr text match_start match_end;
                          start := match_start; end_ := match_end;
                          confidence := final; pattern := Some pattern |}
             else None).
Proof.
  intros Hk Ht Hin score match_start match_end final.
  destruct (registry_entry pii_type config Hin) as [Hp _].
  assert (Hb := final_confidence_bounds config
                  (keywords_present self text match_start match_end pii_type)
                  Hp (keywords_present_bound self text _ _ pii_type Hk)).
  rewrite <- context_score_hits in Hb. fold final in Hb.
  destruct Hb as (H7 & H6 & _).
  split; [|split; [|split]].
  - unfold score. rewrite context_score_hits.
    apply score_after_bounds. now apply keywords_present_bound.
  - exact H7.
  - exact H6.
  - intros is_valid Hv. unfold scan_match.
    fold match_start match_end. rewrite Hv. cbn [bind].
    fold final. rewrite Ht. change (confidence_threshold default_config)
      with 0.6%float. rewrite H6.
    now destruct is_valid.
Qed.

(** The theorem at the match "1234 5678 9010" of the first AADHAAR
    pattern in "Aadhaar: 1234 5678 9010": the validator passes and the
    match is emitted with confidence 1.0. *)
Lemma default_threshold_never_rejects_witness :
  self_context_keywords Sample.redactor = _load_context_keywords
  /\ confidence_threshold (self_config Sample.redactor)
     = confidence_threshold default_config
  /\ In (py "AADHAAR", Sample.aadhaar_config)
        (@_get_comprehensive_patterns Latin1.db Sample.accept_all)
  /\ @scan_match Latin1.db Sample.redactor
       (py "Aadhaar: 1234 5678 9010") (py "AADHAAR") Sample.aadhaar_config
       (py "\b\d{4}[-\s]?\d{4}[-\s]?\d{4}\b")
       {| m_span := (9, 23); m_groups := [] |}
     = Ok (Some {| text := py "1234 5678 9010"; start := 9; end_ := 23;
                   confidence := 1;
                   pattern := Some (py "\b\d{4}[-\s]?\d{4}[-\s]?\d{4}\b") |}).
Proof.
  split; [reflexivity|]. split; [reflexivity|].
  split; [left; reflexivity|].
  exact (proj2 (proj2 (proj2
    (default_threshold_never_rejects Latin1.db Sample.accept_all
       Sample.no_match Sample.redactor (py "Aadhaar: 1234 5678 9010")
       0 0 [] (py "AADHAAR") Sample.aadhaar_config
       (py "\b\d{4}[-\s]?\d{4}[-\s]?\d{4}\b")
       {| m_span := (9, 23); m_groups := [] |}
       eq_refl eq_refl (or_introl eq_refl)))) true eq_refl).
Defined.

(** ** Dictionaries *)

Section DictFacts.
Context {V : Type}.
Implicit Types (d : dict V) (k : str) (v : V).

Lemma get_set_same d k v : get (set d k v) k = Some v.
Proof.
  induction d as [|[k' v'] d IH]; cbn.
  - now rewrite str_eqb_refl.
  - destruct (str_eqb k k') eqn:E; cbn; rewrite E; [reflexivity|exact IH].
Qed.

Lemma get_set_other d k k' v : k <> k' -> get (set d k v) k' = get d k'.
Proof.
  intros Hne. induction d as [|[k0 v0] d IH]; cbn.
  - destruct (str_eqb k' k) eqn:E; [|reflexivity].
    apply str_eqb_eq in E. congruence.
  - destruct (str_eqb k k0) eqn:E; cbn.
    + apply str_eqb_eq in E. subst k0.
      destruct (str_eqb k' k) eqn:E'; [|reflexivity].
      apply str_eqb_eq in E'. congruence.
    + now rewrite IH.
Qed.

Lemma get_None_keys d k : get d k = None <-> ~ In k (keys d).
Proof.
  induction d as [|[k' v'] d IH]; cbn; [tauto|].
  destruct (str_eqb k k') eqn:E.
  - apply str_eqb_eq in E. subst. split; [discriminate|]. intros H.
    exfalso. apply H. now left.
  - apply str_eqb_neq in E. rewrite IH. split.
    + intros H [H'|H']; [congruence|contradiction].
    + intros H H'. apply H. now right.
Qed.

Lemma get_Some_In d k v : get d k = Some v -> In (k, v) d.
Proof.
  induction d as [|[k' v'] d IH]; cbn; [discriminate|].
  destruct (str_eqb k k') eqn:E.
  - apply str_eqb_eq in E. intros [= ->]. subst. now left.
  - intros H. right. now apply IH.
Qed.

Lemma In_get d k v : wf d -> In (k, v) d -> get d k = Some v.
Proof.
  unfold wf. induction d as [|[k' v'] d IH]; cbn; [contradiction|].
  intros Hwf [H|H].
  - injection H as -> ->. now rewrite str_eqb_refl.
  - inversion Hwf as [|? ? Hnot Hwf']; subst.
    destruct (str_eqb k k') eqn:E.
    + apply str_eqb_eq in E. subst. exfalso. apply Hnot.
      change (In (fst (k', v)) (List.map fst d)). now apply in_map.
    + now apply IH.
Qed.

Lemma set_fresh d k v : get d k = None -> set d k v = (d ++ [(k, v)])%list.
Proof.
  induction d as [|[k' v'] d IH]; cbn; [reflexivity|].
  destruct (str_eqb k k'); [discriminate|]. intros H. now rewrite IH.
Qed.

Lemma keys_set d k v :
  keys (set d k v) = if mem d k then keys d else (keys d ++ [k])%list.
Proof.
  unfold mem, keys.
  induction d as [|[k' v'] d IH]; cbn [set get List.map fst app];
    [reflexivity|].
  destruct (str_eqb k k') eqn:E; cbn [List.map fst]; [reflexivity|].
  rewrite IH. now destruct (get d k).
Qed.

Lemma mem_keys d k : mem d k = true <-> In k (keys d).
Proof.
  unfold mem. destruct (get d k) eqn:E.
  - split; [|reflexivity]. intros _.
    apply get_Some_In in E. change k with (fst (k, v)). now apply in_map.
  - split; [discriminate|]. intros H. now apply get_None_keys in E.
Qed.

Lemma wf_set d k v : wf d -> wf (set d k v).
Proof.
  unfold wf. intros H. rewrite keys_set.
  destruct (mem d k) eqn:E; [assumption|].
  apply NoDup_app; [assumption|repeat constructor; intros []|].
  intros x Hx [<-|[]]. apply mem_keys in Hx. congruence.
Qed.

Lemma get_app d d' k :
  get (d ++ d') k = match get d k with Some v => Some v | None => get d' k end.
Proof.
  induction d as [|[k' v'] d IH]; cbn; [reflexivity|].
  now destruct (str_eqb k k').
Qed.

End DictFacts.

Lemma keys_map_values {V W} (f : str -> V -> W) (d : dict V) :
  keys (List.map (fun item => (fst item, f (fst item) (snd item))) d) = keys d.
Proof.
  unfold keys. rewrite map_map. now apply map_ext.
Qed.

(** ** Loops without exceptions *)

Lemma for_each_pure {A S} (body : S -> A -> result S) (f : S -> A -> S)
    (l : list A) :
  (forall s a, In a l -> body s a = Ok (f s a)) ->
  forall s, for_each body l s = Ok (fold_left f l s).
Proof.
  induction l as [|a l IH]; intros H s; [reflexivity|].
  cbn [for_each fold_left]. rewrite H by now left. cbn [bind].
  apply IH. intros s' a' Hin. apply H. now right.
Qed.

Lemma fold_left_append {A B} (f : A -> list B) (l : list A) (acc : list B) :
  fold_left (fun acc a => acc ++ f a)%list l acc
  = (acc ++ flat_map f l)%list.
Proof.
  revert acc. induction l as [|a l IH]; intros acc; cbn.
  - now rewrite app_nil_r.
  - rewrite IH. now rewrite app_assoc.
Qed.

(** ** The candidate generator *)

Section GeneratorFacts.
Context {U : UnicodeDB} {R : RegexEngine}.

Lemma run_validation_passed config match_text :
  run_validation config match_text = Ok (validator_passed config match_text).
Proof.
  unfold run_validation, validator_passed.
  destruct (validation config) as [validate|]; [|reflexivity].
  now destruct (validate match_text).
Qed.

Lemma scan_match_candidate self text pii_type config pattern m matches :
  (found <- scan_match self text pii_type config pattern m ;;
   Ok (match found with
       | Some d => matches ++ [d]
       | None => matches
       end)%list)
  = Ok (matches ++ candidate_of self text pii_type config pattern m)%list.
Proof.
  unfold scan_match, candidate_of, match_span, final_confidence_of,
    priority_or_default.
  rewrite run_validation_passed. cbn [bind].
  destruct (match m_groups m with g :: _ => g | [] => m_span m end)
    as [s e]. cbn [fst snd].
  destruct (validator_passed config (substr text s e)
            && (confidence_threshold (self_config self) <? _)%float);
    cbn [bind]; [reflexivity|now rewrite app_nil_r].
Qed.

Lemma scan_pattern_candidates self text pii_type config matches pattern :
  scan_pattern self text pii_type config matches pattern
  = Ok (matches
        ++ flat_map (candidate_of self text pii_type config pattern)
                    (finditer pattern text))%list.
Proof.
  unfold scan_pattern.
  rewrite (for_each_pure _
             (fun matches m =>
                matches ++ candidate_of self text pii_type config pattern m)%list).
  - now rewrite fold_left_append.
  - intros s a _. apply scan_match_candidate.
Qed.

Lemma scan_category_candidates self text pii_type config :
  scan_category self text pii_type config
  = Ok (candidates self text pii_type config).
Proof.
  unfold scan_category, candidates.
  rewrite (for_each_pure _
             (fun matches pattern =>
                matches
                ++ flat_map (candidate_of self text pii_type config pattern)
                            (finditer pattern text))%list).
  - now rewrite fold_left_append.
  - intros s a _. apply scan_pattern_candidates.
Qed.

Lemma pattern_stage_detected self text :
  pattern_stage self text = Ok (detected_by_patterns self text).
Proof.
  unfold pattern_stage, detected_by_patterns.
  apply for_each_pure. intros s [pii_type config] _.
  rewrite scan_category_candidates. cbn [bind fst snd].
  now destruct (candidates self text pii_type config).
Qed.

Lemma merge_entities_nil d : merge_entities d [] = d.
Proof. reflexivity. Qed.

Lemma nlp_stage_merged self text detected_pii :
  nlp_stage self text detected_pii
  = Ok (merge_entities detected_pii (detected_by_nlp self text)).
Proof.
  unfold nlp_stage, detected_by_nlp, _detect_nlp_entities.
  destruct (self_nlp self) as [model|]; [|reflexivity].
  now destruct (model text).
Qed.

Lemma detect_pii_stages self text :
  text <> [] ->
  detect_pii self (Some text)
  = Ok (_refine_detections
          (merge_entities (detected_by_patterns self text)
                          (detected_by_nlp self text))
          text).
Proof.
  intros Hne. unfold detect_pii. destruct text as [|c text]; [congruence|].
  rewrite pattern_stage_detected. cbn [bind].
  now rewrite nlp_stage_merged.
Qed.

Lemma detect_pii_total self text :
  exists detected_pii, detect_pii self text = Ok detected_pii.
Proof.
  destruct text as [[|c text]|]; try (eexists; reflexivity).
  eexists. apply detect_pii_stages. discriminate.
Qed.

End GeneratorFacts.

(** C4. The list [matches] that [detect_pii] builds for a category holds,
    pattern by pattern and match by match, the candidate of each match.
    A detection is in the list iff it comes from a match of a pattern of
    the category, has the text and offsets of the first capturing group
    if the match has one and of the whole match otherwise, has the
    confidence [min(1.0, contextScore + (4 - tier) * 0.1)], the validator
    passed (none counts as passed), and the confidence is strictly above
    the configured threshold, which is 0.6 by default. *)
Theorem candidates_characterised
    (U : UnicodeDB) (R : RegexEngine)
    (self : AdvancedPIIRedactor) (text pii_type : str)
    (config : PatternConfig) :
  exists matches,
    scan_category self text pii_type config = Ok matches
    /\ matches
       = flat_map
           (fun pattern =>
              flat_map (candidate_of self text pii_type config pattern)
                       (finditer pattern text))
           (patterns config)
    /\ (forall d,
          In d matches <->
          exists pattern m,
            In pattern (patterns config) /\ In m (finditer pattern text)
            /\ let span := match m_groups m with
                           | first_group :: _ => first_group
                           | [] => m_span m
                           end in
               let tier := match priority config with
                           | Some p => p
                           | None => 3%Z
                           end in
               let final :=
                 py_min 1.0
                   (_calculate_context_score self text (fst span) (snd span)
                      pii_type
                    + float_of_Z (4 - tier) * 0.1)%float in
               validator_passed config (substr text (fst span) (snd span))
               = true
               /\ (confidence_threshold (self_config self) <? final)%float
                  = true
               /\ d = {| text := substr text (fst span) (snd span);
                         start := fst span; end_ := snd span;
                         confidence := final; pattern := Some pattern |})
    /\ confidence_threshold (_load_config None) = 0.6%float.
Proof.
  eexists. split; [apply scan_category_candidates|].
  split; [reflexivity|]. split; [|reflexivity].
  intros d. unfold candidates. rewrite in_flat_map. split.
  - intros (pattern & Hp & Hd). apply in_flat_map in Hd as (m & Hm & Hd).
    exists pattern, m. split; [exact Hp|]. split; [exact Hm|].
    unfold candidate_of in Hd. cbv zeta.
    destruct (match m_groups m with g :: _ => g | [] => m_span m end)
      as [s e]. cbn [fst snd].
    destruct (validator_passed config (substr text s e)) eqn:Hv;
      [|destruct Hd].
    destruct (confidence_threshold (self_config self) <? _)%float eqn:Ht;
      [|destruct Hd].
    destruct Hd as [<-|[]]. repeat split.
  - intros (pattern & m & Hp & Hm & Hd). exists pattern.
    split; [exact Hp|]. apply in_flat_map. exists m. split; [exact Hm|].
    unfold candidate_of. cbv zeta in Hd.
    destruct (match m_groups m with g :: _ => g | [] => m_span m end)
      as [s e]. cbn [fst snd] in Hd. destruct Hd as (Hv & Ht & ->).
    rewrite Hv, Ht. now left.
Qed.

(** C2. [detect_pii] returns a dictionary for every redactor and every
    text, and a match whose validator raises is not emitted: the call
    yields no detection and no exception. *)
Theorem validator_faults_are_contained
    (U : UnicodeDB) (R : RegexEngine) (self : AdvancedPIIRedactor) :
  (forall text, exists detected_pii, detect_pii self text = Ok detected_pii)
  /\ (forall text pii_type config pattern m validate e,
        validation config = Some validate ->
        validate (substr text (fst (match_span m)) (snd (match_span m)))
        = Raise e ->
        scan_match self text pii_type config pattern m = Ok None
        /\ candidate_of self text pii_type config pattern m = []).
Proof.
  split; [apply detect_pii_total|].
  intros text pii_type config pattern m validate e Hv He.
  unfold scan_match, candidate_of, run_validation, validator_passed,
    match_span in *.
  destruct (match m_groups m with g :: _ => g | [] => m_span m end)
    as [s e']. cbn [fst snd] in *.
  rewrite Hv, He. cbn. split; reflexivity.
Qed.

(** The containment at a validator that does raise: [_validate_aadhaar]
    on twelve superscript twos. *)
Lemma validator_faults_are_contained_witness :
  validation Sample.aadhaar_config = Some (@_validate_aadhaar Latin1.db)
  /\ @_validate_aadhaar Latin1.db (repeat 178%N 12) = Raise ValueError
  /\ @scan_match Latin1.db Sample.redactor (repeat 178%N 12) (py "AADHAAR")
       Sample.aadhaar_config (py "\b\d{12}\b")
       {| m_span := (0, 12); m_groups := [] |} = Ok None.
Proof.
  split; [reflexivity|]. split; [reflexivity|].
  exact (proj1 (proj2
    (validator_faults_are_contained Latin1.db Sample.no_match Sample.redactor)
    (repeat 178%N 12) (py "AADHAAR") Sample.aadhaar_config (py "\b\d{12}\b")
    {| m_span := (0, 12); m_groups := [] |}
    (@_validate_aadhaar Latin1.db) ValueError eq_refl eq_refl)).
Defined.

(** ** Order on binary64 *)

Lemma SFcompare_refl (x : spec_float) :
  SFcompare x x = Some Eq \/ SFcompare x x = None.
Proof.
  destruct x as [s|s| |s m e]; cbn; auto.
  - destruct s; auto.
  - rewrite Z.compare_refl, Pos.compare_cont_refl. destruct s; auto.
Qed.

Lemma SFcompare_Lt_Gt (x y : spec_float) :
  SFcompare x y = Some Lt -> SFcompare y x = Some Gt.
Proof.
  destruct x as [sx|sx| |sx mx ex], y as [sy|sy| |sy my ey]; cbn;
    try discriminate; try (destruct sx; discriminate);
    try (destruct sy; discriminate);
    try (destruct sx, sy; (discriminate || reflexivity)).
  rewrite (Z.compare_antisym ex ey).
  assert (Hm : Pos.compare_cont Eq my mx
               = CompOpp (Pos.compare_cont Eq mx my))
    by (symmetry; apply (Pos.compare_cont_antisym mx my Eq)).
  rewrite Hm.
  destruct sx, sy; try (discriminate || reflexivity);
    destruct (ex ?= ey)%Z; cbn [CompOpp]; try (discriminate || reflexivity);
    destruct (Pos.compare_cont Eq mx my); cbn [CompOpp];
    (discriminate || reflexivity).
Qed.

Lemma float_ltb_irrefl (c : float) : (c <? c)%float = false.
Proof.
  rewrite ltb_spec. unfold SFltb.
  now destruct (SFcompare_refl (Prim2SF c)) as [-> | ->].
Qed.

Lemma float_ltb_asym (a b : float) :
  (a <? b)%float = true -> (b <? a)%float = false.
Proof.
  rewrite !ltb_spec. unfold SFltb.
  destruct (SFcompare (Prim2SF a) (Prim2SF b)) as [[]|] eqn:E;
    try discriminate.
  intros _. now rewrite (SFcompare_Lt_Gt _ _ E).
Qed.

(** ** Sorting *)

Section SortingFacts.
Context {A K : Type} (key : A -> K) (ltb : K -> K -> bool).

Lemma insert_desc_permutation x l :
  Permutation (insert_desc key ltb x l) (x :: l).
Proof.
  induction l as [|y l IH]; cbn; [reflexivity|].
  destruct (ltb (key x) (key y)); [|reflexivity].
  rewrite IH. apply perm_swap.
Qed.

Lemma sorted_reverse_permutation l :
  Permutation (sorted_reverse key ltb l) l.
Proof.
  induction l as [|x l IH]; cbn; [reflexivity|].
  rewrite insert_desc_permutation. now constructor.
Qed.

Lemma insert_desc_sorted x l :
  (forall a b, ltb a b = true -> ltb b a = false) ->
  Sorted (not_below key ltb) l ->
  Sorted (not_below key ltb) (insert_desc key ltb x l).
Proof.
  intros Hasym. induction l as [|y l IH]; intros Hs; cbn.
  - repeat constructor.
  - destruct (ltb (key x) (key y)) eqn:E.
    + inversion Hs as [|? ? Hs' Hhd]; subst. constructor; [now apply IH|].
      destruct l as [|z l]; cbn.
      * constructor. now apply Hasym.
      * destruct (ltb (key x) (key z)).
        -- constructor. now inversion Hhd.
        -- constructor. now apply Hasym.
    + constructor; [assumption|]. constructor. exact E.
Qed.

Lemma sorted_reverse_sorted l :
  (forall a b, ltb a b = true -> ltb b a = false) ->
  Sorted (not_below key ltb) (sorted_reverse key ltb l).
Proof.
  intros Hasym. induction l as [|x l IH]; cbn; [constructor|].
  now apply insert_desc_sorted.
Qed.

(** Elements whose keys are tied keep their order of arrival. *)
Lemma insert_desc_stable (p : A -> bool) x l :
  (forall a b, p a = true -> p b = true -> ltb (key a) (key b) = false) ->
  filter p (insert_desc key ltb x l) = filter p (x :: l).
Proof.
  intros Htie. induction l as [|y l IH]; [reflexivity|].
  cbn [insert_desc]. destruct (ltb (key x) (key y)) eqn:E; [|reflexivity].
  cbn [filter] in *. rewrite IH.
  destruct (p x) eqn:Hx; [|reflexivity].
  destruct (p y) eqn:Hy; [|reflexivity].
  rewrite (Htie x y Hx Hy) in E. discriminate.
Qed.

Lemma sorted_reverse_stable (p : A -> bool) l :
  (forall a b, p a = true -> p b = true -> ltb (key a) (key b) = false) ->
  filter p (sorted_reverse key ltb l) = filter p l.
Proof.
  intros Htie. induction l as [|x l IH]; [reflexivity|].
  cbn [sorted_reverse fold_right].
  rewrite insert_desc_stable by assumption.
  cbn [filter]. fold (sorted_reverse key ltb l). now rewrite IH.
Qed.

End SortingFacts.

(** ** Pairs of a list *)

Section PairFacts.
Context {A : Type} (R : A -> A -> Prop).

Lemma ordered_pairs_pairwise l :
  (forall a b, R a b -> R b a) -> ForallOrdPairs R l -> pairwise R l.
Proof.
  intros Hsym H. induction H as [|a l Hhd Htl IH].
  - intros [|i] j x y _ Hi; discriminate Hi.
  - intros [|i] [|j] x y Hne Hi Hj; cbn in Hi, Hj.
    + congruence.
    + injection Hi as <-. rewrite Forall_forall in Hhd.
      apply Hhd. eapply nth_error_In, Hj.
    + injection Hj as <-. rewrite Forall_forall in Hhd.
      apply Hsym, Hhd. eapply nth_error_In, Hi.
    + apply (IH i j); [congruence|assumption|assumption].
Qed.

Lemma pairwise_ordered_pairs l : pairwise R l -> ForallOrdPairs R l.
Proof.
  induction l as [|a l IH]; intros H; constructor.
  - apply Forall_forall. intros b Hb.
    destruct (In_nth_error _ _ Hb) as [j Hj].
    apply (H 0 (S j)); [discriminate|reflexivity|exact Hj].
  - apply IH. intros i j x y Hne Hi Hj.
    apply (H (S i) (S j)); [congruence|exact Hi|exact Hj].
Qed.

Lemma ordered_pairs_snoc l x :
  ForallOrdPairs R l -> Forall (fun a => R a x) l ->
  ForallOrdPairs R (l ++ [x]).
Proof.
  intros H. induction H as [|a l Hhd Htl IH]; intros Hx; cbn.
  - repeat constructor.
  - inversion Hx as [|? ? Hax Hlx]; subst. constructor.
    + apply Forall_app. split; [assumption|]. now repeat constructor.
    + now apply IH.
Qed.

Lemma ordered_pairs_filter (p : A -> bool) l :
  ForallOrdPairs R l -> ForallOrdPairs R (filter p l).
Proof.
  intros H. induction H as [|a l Hhd Htl IH]; cbn; [constructor|].
  destruct (p a); [|assumption]. constructor; [|assumption].
  rewrite Forall_forall in *. intros b Hb. apply Hhd.
  now apply filter_In in Hb.
Qed.

Lemma ordered_pairs_app l l' :
  ForallOrdPairs R l -> ForallOrdPairs R l' ->
  (forall a b, In a l -> In b l' -> R a b) ->
  ForallOrdPairs R (l ++ l').
Proof.
  intros H H' Hx. induction H as [|a l Hhd Htl IH]; cbn; [assumption|].
  constructor.
  - apply Forall_app. split; [assumption|].
    apply Forall_forall. intros b Hb. apply Hx; [now left|assumption].
  - apply IH. intros x y Hx' Hy. apply Hx; [now right|assumption].
Qed.

End PairFacts.

Lemma ordered_pairs_map {A B} (R : B -> B -> Prop) (f : A -> B) l :
  ForallOrdPairs (fun a b => R (f a) (f b)) l ->
  ForallOrdPairs R (List.map f l).
Proof.
  intros H. induction H as [|a l Hhd Htl IH]; cbn; constructor.
  - apply Forall_map. exact Hhd.
  - exact IH.
Qed.

Lemma ordered_pairs_weaken {A} (R R' : A -> A -> Prop) l :
  (forall a b, In a l -> In b l -> R a b -> R' a b) ->
  ForallOrdPairs R l -> ForallOrdPairs R' l.
Proof.
  intros Himp H. induction H as [|a l Hhd Htl IH]; constructor.
  - rewrite Forall_forall in *. intros b Hb.
    apply Himp; [now left|now right|now apply Hhd].
  - apply IH. intros x y Hx Hy. apply Himp; now right.
Qed.

Lemma disjoint_spans_sym a b : disjoint_spans a b -> disjoint_spans b a.
Proof. unfold disjoint_spans, disjoint_intervals. intros H x [? ?]. now apply (H x). Qed.

(** ** The resolver *)

(** The test of the inner loop fails against every accepted detection. *)
Lemma is_overlapping_false m filtered :
  is_overlapping m filtered = false ->
  Forall (fun existing => disjoint_spans existing m) filtered.
Proof.
  induction filtered as [|existing rest IH]; cbn [is_overlapping];
    [constructor|].
  destruct ((start m <? end_ existing) && (start existing <? end_ m)) eqn:E;
    [discriminate|].
  intros H. constructor; [|now apply IH].
  intros x [[H1 H2] [H3 H4]].
  apply andb_false_iff in E as [E|E]; apply Nat.ltb_ge in E; lia.
Qed.

Lemma resolver_loop_disjoint sorted_matches : forall filtered,
  ForallOrdPairs disjoint_spans filtered ->
  ForallOrdPairs disjoint_spans
    (fold_left
       (fun filtered_matches m =>
          if is_overlapping m filtered_matches then filtered_matches
          else filtered_matches ++ [m])
       sorted_matches filtered).
Proof.
  induction sorted_matches as [|m rest IH]; intros filtered H; [exact H|].
  cbn [fold_left]. apply IH.
  destruct (is_overlapping m filtered) eqn:E; [exact H|].
  apply ordered_pairs_snoc; [exact H|]. now apply is_overlapping_false.
Qed.

Lemma remove_overlapping_disjoint matches :
  pairwise_disjoint (_remove_overlapping_matches matches).
Proof.
  apply ordered_pairs_pairwise; [exact disjoint_spans_sym|].
  unfold _remove_overlapping_matches. destruct matches; [constructor|].
  apply resolver_loop_disjoint. constructor.
Qed.

(** On spans that are not empty the test of the loop is interval
    intersection. *)
Lemma is_overlapping_intersects m filtered :
  start m < end_ m ->
  Forall (fun existing => start existing < end_ existing) filtered ->
  is_overlapping m filtered = existsb (intervals_intersect m) filtered.
Proof.
  intros Hm H. induction H as [|existing rest He Hrest IH]; [reflexivity|].
  cbn [is_overlapping existsb]. rewrite IH.
  assert (Heq : (start m <? end_ existing) && (start existing <? end_ m)
                = intervals_intersect m existing).
  { unfold intervals_intersect.
    destruct (start m <? end_ existing) eqn:E1;
      destruct (start existing <? end_ m) eqn:E2;
      destruct (Nat.max (start m) (start existing)
                <? Nat.min (end_ m) (end_ existing)) eqn:E3;
      try reflexivity;
      repeat match goal with
             | H : (_ <? _) = true |- _ => apply Nat.ltb_lt in H
             | H : (_ <? _) = false |- _ => apply Nat.ltb_ge in H
             end; lia. }
  rewrite Heq. now destruct (intervals_intersect m existing).
Qed.

Lemma resolver_loop_greedy candidates : forall accepted,
  Forall (fun m => start m < end_ m) candidates ->
  Forall (fun m => start m < end_ m) accepted ->
  fold_left
    (fun filtered_matches m =>
       if is_overlapping m filtered_matches then filtered_matches
       else filtered_matches ++ [m])
    candidates accepted
  = greedy_accept accepted candidates.
Proof.
  induction candidates as [|c rest IH]; intros accepted Hc Ha; [reflexivity|].
  inversion Hc as [|? ? Hc1 Hc2]; subst.
  cbn [fold_left greedy_accept].
  rewrite (is_overlapping_intersects c accepted Hc1 Ha).
  destruct (existsb (intervals_intersect c) accepted); apply IH;
    try assumption.
  apply Forall_app. split; [assumption|]. now repeat constructor.
Qed.

(** C5 (as the code has it). On candidates with non-empty spans, overlap
    removal is greedy acceptance (a candidate is accepted iff its interval
    meets no accepted interval) over the candidates ordered by confidence,
    highest first, candidates of equal confidence staying in their order
    of arrival: the ordered list is a permutation of the candidates, no
    element has a confidence below its successor's, and the candidates of
    any one confidence keep their relative order. *)
Theorem remove_overlapping_is_stable_greedy (candidates : list Detection) :
  Forall (fun m => start m < end_ m) candidates ->
  let ordered := sorted_reverse confidence PrimFloat.ltb candidates in
  _remove_overlapping_matches candidates = greedy_accept [] ordered
  /\ Permutation ordered candidates
  /\ Sorted (fun a b => (confidence a <? confidence b)%float = false) ordered
  /\ forall c,
       filter (fun m => PrimFloat.Leibniz.eqb (confidence m) c) ordered
       = filter (fun m => PrimFloat.Leibniz.eqb (confidence m) c) candidates.
Proof.
  intros Hne ordered.
  assert (Hperm : Permutation ordered candidates)
    by apply sorted_reverse_permutation.
  split; [|split; [exact Hperm|split]].
  - unfold _remove_overlapping_matches. fold ordered.
    destruct candidates as [|c rest]; [reflexivity|].
    apply resolver_loop_greedy; [|constructor].
    eapply Permutation_Forall; [symmetry; exact Hperm|exact Hne].
  - apply (sorted_reverse_sorted confidence PrimFloat.ltb).
    exact float_ltb_asym.
  - intros c. apply sorted_reverse_stable. intros a b Ha Hb.
    apply FloatAxioms.Leibniz.eqb_spec in Ha, Hb.
    rewrite Ha, Hb. apply float_ltb_irrefl.
Qed.

(** The theorem at two overlapping candidates of confidence 1.0: the one
    that arrived first is kept. *)
Lemma remove_overlapping_is_stable_greedy_witness :
  Forall (fun m => start m < end_ m)
    [Sample.detection 4 14 1; Sample.detection 1 14 1]
  /\ _remove_overlapping_matches
       [Sample.detection 4 14 1; Sample.detection 1 14 1]
     = greedy_accept []
         (sorted_reverse confidence PrimFloat.ltb
            [Sample.detection 4 14 1; Sample.detection 1 14 1]).
Proof.
  assert (H : Forall (fun m => start m < end_ m)
                [Sample.detection 4 14 1; Sample.detection 1 14 1])
    by (repeat constructor; cbn; lia).
  split; [exact H|].
  exact (proj1 (remove_overlapping_is_stable_greedy _ H)).
Defined.

(** A span that is empty intersects nothing, yet the test of the loop
    rejects it when it lies strictly inside an accepted span; the spans
    the registry's patterns produce are never empty. *)
Example empty_span_inside_accepted_is_rejected :
  _remove_overlapping_matches
    [Sample.detection 3 8 1; Sample.detection 5 5 0.9]
  = [Sample.detection 3 8 1]
  /\ greedy_accept [] [Sample.detection 3 8 1; Sample.detection 5 5 0.9]
     = [Sample.detection 3 8 1; Sample.detection 5 5 0.9].
Proof. split; reflexivity. Qed.

(** C5 (as stated) fails: of two overlapping candidates of equal
    confidence, [4,14) arriving before [1,14), the reference procedure
    keeps the earlier start [1,14); the resolver keeps [4,14). *)
Lemma remove_overlapping_ignores_start_tiebreak :
  _remove_overlapping_matches
    [Sample.detection 4 14 1; Sample.detection 1 14 1]
  = [Sample.detection 4 14 1]
  /\ resolve_as_specified
       [Sample.detection 4 14 1; Sample.detection 1 14 1]
     = [Sample.detection 1 14 1]
  /\ _remove_overlapping_matches
       [Sample.detection 4 14 1; Sample.detection 1 14 1]
     <> resolve_as_specified
          [Sample.detection 4 14 1; Sample.detection 1 14 1].
Proof.
  split; [reflexivity|]. split; [reflexivity|].
  intros H. apply (f_equal (List.map start)) in H. discriminate H.
Qed.

(** ** The detected dictionary *)

Lemma In_set {V} (d : dict V) k v k' v' :
  In (k', v') (set d k v) -> (k' = k /\ v' = v) \/ In (k', v') d.
Proof.
  induction d as [|[k0 v0] d IH]; cbn.
  - intros [[= <- <-]|[]]. now left.
  - destruct (str_eqb k k0) eqn:E; cbn.
    + apply str_eqb_eq in E. subst k0.
      intros [[= <- <-]|H]; [now left|now right; right].
    + intros [H|H]; [now right; left|].
      destruct (IH H) as [H'|H']; [now left|now right; right].
Qed.

Lemma get_or_empty_set {V} (d : dict (list V)) k v k' :
  get_or_empty (set d k v) k' = if str_eqb k k' then v else get_or_empty d k'.
Proof.
  unfold get_or_empty. destruct (str_eqb k k') eqn:E.
  - apply str_eqb_eq in E. subst. now rewrite get_set_same.
  - apply str_eqb_neq in E. now rewrite get_set_other.
Qed.

Lemma merge_entities_fresh (nlp_entities : dict (list Detection)) :
  forall detected_pii,
    wf nlp_entities ->
    (forall k, In k (keys nlp_entities) -> ~ In k (keys detected_pii)) ->
    merge_entities detected_pii nlp_entities
    = (detected_pii ++ nlp_entities)%list.
Proof.
  unfold merge_entities, wf.
  induction nlp_entities as [|[k ents] rest IH]; intros d Hwf Hfresh; cbn.
  - now rewrite app_nil_r.
  - inversion Hwf as [|? ? Hk Hrest]; subst.
    assert (Hmem : mem d k = false).
    { destruct (mem d k) eqn:E; [|reflexivity].
      apply mem_keys in E. exfalso. apply (Hfresh k); [now left|exact E]. }
    rewrite Hmem. rewrite set_fresh.
    2:{ unfold mem in Hmem. now destruct (get d k). }
    rewrite IH; [now rewrite <- app_assoc|assumption|].
    intros k' Hk' Hin. unfold keys in Hin. rewrite map_app in Hin.
    apply in_app_or in Hin as [Hin|[<-|[]]].
    + apply (Hfresh k'); [now right|exact Hin].
    + now apply Hk.
Qed.

Lemma str_mem_In x l : str_mem x l = true <-> In x l.
Proof.
  unfold str_mem. rewrite existsb_exists. split.
  - intros (y & Hy & E). apply str_eqb_eq in E. now subst.
  - intros H. exists x. split; [exact H|apply str_eqb_refl].
Qed.

Lemma collect_entities_invariant (ents : list Entity) :
  forall processed entities,
    wf entities ->
    (forall k, get_or_empty entities k
               = List.map detection_of (filter (filed_under k) processed)) ->
    (forall k, In k (keys entities) -> In k nlp_keys) ->
    let result := fold_left file_entity ents entities in
    wf result
    /\ (forall k, get_or_empty result k
                  = List.map detection_of
                      (filter (filed_under k) (processed ++ ents)))
    /\ (forall k, In k (keys result) -> In k nlp_keys).
Proof.
  induction ents as [|ent rest IH]; intros processed entities Hwf Hget Hkeys.
  - cbn. rewrite app_nil_r. auto.
  - cbn [fold_left].
    replace (processed ++ ent :: rest)%list
      with ((processed ++ [ent]) ++ rest)%list
      by (now rewrite <- app_assoc).
    destruct (str_mem (label_ ent) nlp_labels) eqn:Hlabel.
    + set (entity_type := (py "NLP_" ++ label_ ent)%list).
      set (entities' := if mem entities entity_type then entities
                        else set entities entity_type []).
      assert (Hwf' : wf entities')
        by (unfold entities'; destruct (mem entities entity_type);
            [assumption|now apply wf_set]).
      assert (Hget' : forall k, get_or_empty entities' k = get_or_empty entities k).
      { intros k. unfold entities'.
        destruct (mem entities entity_type) eqn:Hm; [reflexivity|].
        rewrite get_or_empty_set. destruct (str_eqb entity_type k) eqn:E;
          [|reflexivity].
        apply str_eqb_eq in E. subst k. unfold get_or_empty, mem in *.
        now destruct (get entities entity_type). }
      assert (Hkeys' : forall k, In k (keys entities') -> In k nlp_keys).
      { intros k. unfold entities'.
        destruct (mem entities entity_type) eqn:Hm; [apply Hkeys|].
        rewrite keys_set, Hm. intros Hin.
        apply in_app_or in Hin as [Hin|[<-|[]]]; [now apply Hkeys|].
        unfold nlp_keys, entity_type.
        apply (in_map (fun label => py "NLP_" ++ label)%list).
        now apply str_mem_In. }
      assert (Hstep : file_entity entities ent
                      = set entities' entity_type
                          (get_or_empty entities' entity_type
                           ++ [detection_of ent]))
        by (unfold file_entity; now rewrite Hlabel).
      rewrite Hstep. apply IH.
      * now apply wf_set.
      * intros k. rewrite get_or_empty_set, !Hget', !Hget.
        rewrite filter_app, map_app. cbn [filter].
        assert (Hf : filed_under k ent = str_eqb entity_type k)
          by (unfold filed_under; now rewrite Hlabel).
        rewrite Hf.
        destruct (str_eqb entity_type k) eqn:E.
        -- apply str_eqb_eq in E. subst k. reflexivity.
        -- cbn [List.map]. now rewrite app_nil_r.
      * intros k. rewrite keys_set.
        destruct (mem entities' entity_type) eqn:Hm; [apply Hkeys'|].
        intros Hin. apply in_app_or in Hin as [Hin|[<-|[]]];
          [now apply Hkeys'|].
        unfold nlp_keys, entity_type.
        apply (in_map (fun label => py "NLP_" ++ label)%list).
        now apply str_mem_In.
    + assert (Hstep : file_entity entities ent = entities)
        by (unfold file_entity; now rewrite Hlabel).
      rewrite Hstep. apply IH; [assumption| |assumption].
      intros k. rewrite Hget, filter_app. cbn [filter].
      assert (Hf : filed_under k ent = false)
        by (unfold filed_under; now rewrite Hlabel).
      rewrite Hf. now rewrite app_nil_r.
Qed.

Lemma collect_entities_spec (ents : list Entity) :
  wf (collect_entities ents)
  /\ (forall k l, In (k, l) (collect_entities ents) ->
                  l = List.map detection_of (filter (filed_under k) ents))
  /\ (forall k, In k (keys (collect_entities ents)) -> In k nlp_keys).
Proof.
  assert (H := collect_entities_invariant ents [] []
                 (NoDup_nil _) (fun k => eq_refl)
                 (fun k (Hin : In k []) => match Hin with end)).
  cbv zeta in H. cbn [app] in H. fold (collect_entities ents) in H.
  destruct H as (Hwf & Hget & Hkeys).
  split; [exact Hwf|split; [|exact Hkeys]].
  intros k l Hin. rewrite <- Hget. unfold get_or_empty.
  now rewrite (In_get _ _ _ Hwf Hin).
Qed.

Lemma entities_filed_disjoint ents k :
  entities_disjoint ents ->
  ForallOrdPairs disjoint_spans
    (List.map detection_of (filter (filed_under k) ents)).
Proof.
  intros H. apply pairwise_ordered_pairs in H.
  apply ordered_pairs_map.
  apply (ordered_pairs_filter _ (filed_under k)) in H.
  revert H. apply ordered_pairs_weaken.
  intros a b Ha Hb Hab. apply Hab.
  apply filter_In in Ha as [_ Ha], Hb as [_ Hb].
  unfold filed_under in Ha, Hb.
  apply andb_true_iff in Ha as [_ Ha], Hb as [_ Hb].
  apply str_eqb_eq in Ha, Hb. rewrite <- Hb in Ha.
  now apply app_inv_head in Ha.
Qed.

Section DetectionFacts.
Context {U : UnicodeDB} {V : Validators} {R : RegexEngine}.

Lemma refine_detections_entries detected_pii text k l :
  In (k, l) (_refine_detections detected_pii text) ->
  exists l0, In (k, l0) detected_pii /\ l = filter (keeps k) l0.
Proof.
  unfold _refine_detections.
  assert (H : forall refined,
             (forall k l, In (k, l) refined ->
                exists l0, In (k, l0) detected_pii /\ l = filter (keeps k) l0) ->
             forall items,
               (forall item, In item items -> In item detected_pii) ->
               forall k l,
                 In (k, l)
                   (fold_left
                      (fun refined_pii (item : str * list Detection) =>
                         let (pii_type, matches) := item in
                         let refined_matches := filter (keeps pii_type) matches in
                         match refined_matches with
                         | [] => refined_pii
                         | _ => set refined_pii pii_type refined_matches
                         end)
                      items refined) ->
                 exists l0, In (k, l0) detected_pii /\ l = filter (keeps k) l0).
  { intros refined Hinv items. revert refined Hinv.
    induction items as [|[pii_type matches] items IH];
      intros refined Hinv Hsub k' l'; [apply Hinv|].
    cbn [fold_left]. apply IH.
    - intros k0 l0 Hin.
      destruct (filter (keeps pii_type) matches) eqn:E; [now apply Hinv|].
      apply In_set in Hin as [[-> ->]|Hin]; [|now apply Hinv].
      exists matches. split; [apply Hsub; now left|now rewrite E].
    - intros item Hitem. apply Hsub. now right. }
  apply (H [] (fun k l (Hin : In (k, l) []) => match Hin with end)).
  auto.
Qed.

Lemma detected_by_patterns_entries self text k l :
  In (k, l) (detected_by_patterns self text) ->
  In k (keys (self_patterns self)) /\ ForallOrdPairs disjoint_spans l.
Proof.
  unfold detected_by_patterns.
  assert (H : forall items detected,
             (forall item, In item items -> In item (self_patterns self)) ->
             (forall k l, In (k, l) detected ->
                In k (keys (self_patterns self))
                /\ ForallOrdPairs disjoint_spans l) ->
             forall k l,
               In (k, l)
                 (fold_left
                    (fun detected_pii (item : str * PatternConfig) =>
                       match candidates self text (fst item) (snd item) with
                       | [] => detected_pii
                       | _ :: _ =>
                           set detected_pii (fst item)
                             (_remove_overlapping_matches
                                (candidates self text (fst item) (snd item)))
                       end)
                    items detected) ->
               In k (keys (self_patterns self))
               /\ ForallOrdPairs disjoint_spans l).
  { induction items as [|[pii_type config] items IH];
      intros detected Hsub Hinv k' l'; [apply Hinv|].
    cbn [fold_left fst snd]. apply IH.
    - intros item Hitem. apply Hsub. now right.
    - intros k0 l0 Hin.
      destruct (candidates self text pii_type config) eqn:E;
        [now apply Hinv|].
      apply In_set in Hin as [[-> ->]|Hin]; [|now apply Hinv].
      split.
      + change pii_type with (fst (pii_type, config)).
        apply in_map, Hsub. now left.
      + apply pairwise_ordered_pairs, remove_overlapping_disjoint. }
  apply H; [auto|intros ? ? []].
Qed.

(** No category of the registry is a key of the NLP stage. *)
Lemma registry_keys_not_nlp k :
  In k (keys _get_comprehensive_patterns) -> ~ In k nlp_keys.
Proof.
  intros Hk Hn. apply str_mem_In in Hn.
  assert (H : forallb (fun k => negb (str_mem k nlp_keys))
                (keys _get_comprehensive_patterns) = true) by reflexivity.
  rewrite forallb_forall in H. specialize (H k Hk).
  now rewrite Hn in H.
Qed.

(** The dictionary before refinement: the pattern categories, then the
    NLP categories. *)
Lemma merged_detections self text :
  self_patterns self = _get_comprehensive_patterns ->
  merge_entities (detected_by_patterns self text) (detected_by_nlp self text)
  = (detected_by_patterns self text ++ detected_by_nlp self text)%list.
Proof.
  intros Hreg. apply merge_entities_fresh.
  - unfold detected_by_nlp. destruct (self_nlp self) as [model|];
      [|constructor].
    destruct (model text) as [ents|];
      [apply (collect_entities_spec ents)|constructor].
  - intros k Hk Hin.
    assert (Hnlp : In k nlp_keys).
    { unfold detected_by_nlp in Hk. destruct (self_nlp self) as [model|];
        [|destruct Hk].
      destruct (model text) as [ents|]; [|destruct Hk].
      now apply (proj2 (proj2 (collect_entities_spec ents))). }
    apply (registry_keys_not_nlp k); [|exact Hnlp].
    rewrite <- Hreg. unfold keys in Hin.
    apply in_map_iff in Hin as ([k' l] & <- & Hin).
    now apply (detected_by_patterns_entries self text k' l).
Qed.

Lemma detected_by_nlp_entries self text k l :
  In (k, l) (detected_by_nlp self text) ->
  In k nlp_keys
  /\ exists model ents,
       self_nlp self = Some model /\ model text = Ok ents
       /\ l = List.map detection_of (filter (filed_under k) ents).
Proof.
  unfold detected_by_nlp. destruct (self_nlp self) as [model|]; [|intros []].
  destruct (model text) as [ents|] eqn:E; [|intros []].
  intros Hin. destruct (collect_entities_spec ents) as (_ & Hl & Hk).
  split.
  - apply Hk. change k with (fst (k, l)). now apply in_map.
  - exists model, ents. split; [reflexivity|].
    split; [assumption || reflexivity|]. now apply Hl.
Qed.

End DetectionFacts.

(** C1. In the dictionary [detect_pii] returns for a redactor with the
    registry of the source, no two detections listed under one key
    overlap, the NLP categories included. The detections of an NLP
    category are the entities of [doc.ents] of one label, as the model
    reported them; spaCy's [doc.ents] do not overlap, which is the
    hypothesis of the second part. The detections listed under a category
    of the registry are pairwise disjoint whatever the model reports. *)
Theorem detections_disjoint_per_category
    (U : UnicodeDB) (V : Validators) (R : RegexEngine)
    (self : AdvancedPIIRedactor) (text : str)
    (detected_pii : dict (list Detection)) :
  self_patterns self = _get_comprehensive_patterns ->
  detect_pii self (Some text) = Ok detected_pii ->
  (forall pii_type matches,
     get detected_pii pii_type = Some matches ->
     In pii_type (keys _get_comprehensive_patterns) ->
     pairwise_disjoint matches)
  /\ ((forall model ents,
         self_nlp self = Some model -> model text = Ok ents ->
         entities_disjoint ents) ->
      forall pii_type matches,
        get detected_pii pii_type = Some matches ->
        pairwise_disjoint matches).
Proof.
  intros Hreg Hdet.
  assert (Hentry : forall k l,
             get detected_pii k = Some l ->
             exists l0,
               l = filter (keeps k) l0
               /\ ((In k (keys _get_comprehensive_patterns)
                    /\ ForallOrdPairs disjoint_spans l0)
                   \/ (In k nlp_keys
                       /\ exists model ents,
                            self_nlp self = Some model /\ model text = Ok ents
                            /\ l0 = List.map detection_of
                                      (filter (filed_under k) ents)))).
  { intros k l Hget. apply get_Some_In in Hget.
    destruct text as [|c text'].
    - injection Hdet as <-. destruct Hget.
    - rewrite detect_pii_stages in Hdet by discriminate.
      injection Hdet as <-.
      apply refine_detections_entries in Hget as (l0 & Hin & ->).
      rewrite (merged_detections self _ Hreg) in Hin.
      exists l0. split; [reflexivity|].
      apply in_app_or in Hin as [Hin|Hin].
      + left. rewrite <- Hreg. now apply detected_by_patterns_entries in Hin.
      + right. now apply detected_by_nlp_entries in Hin. }
  split.
  - intros k l Hget Hk.
    destruct (Hentry k l Hget) as (l0 & -> & [[_ Hd]|[Hn _]]).
    + apply ordered_pairs_pairwise; [exact disjoint_spans_sym|].
      now apply ordered_pairs_filter.
    + exfalso. now apply (registry_keys_not_nlp k).
  - intros Hnlp k l Hget.
    destruct (Hentry k l Hget)
      as (l0 & -> & [[_ Hd]|[_ (model & ents & Hm & He & ->)]]);
      (apply ordered_pairs_pairwise; [exact disjoint_spans_sym|]);
      apply ordered_pairs_filter; [exact Hd|].
    apply entities_filed_disjoint. now apply (Hnlp model).
Qed.

(** The theorem on a line with two names and an Aadhaar number written
    twice, for a model that reports the two names. The resolver receives
    each number twice, from two patterns of AADHAAR, and keeps it once;
    the two names are listed under NAME and under NLP_PERSON. *)
Lemma detections_disjoint_per_category_witness :
  let self := Fixture.redactor_with_names_model in
  let asha := Sample.person (py "Asha Rao") 0 8 in
  let ravi := Sample.person (py "Ravi Rao") 10 18 in
  let aadhaar :=
    [ {| text := py "1234 5678 9010"; start := 29; end_ := 43;
         confidence := 1;
         pattern := Some (py "\b\d{4}[-\s]?\d{4}[-\s]?\d{4}\b") |};
      {| text := py "1234-5678-9010"; start := 49; end_ := 63;
         confidence := 1;
         pattern := Some (py "\b\d{4}[-\s]?\d{4}[-\s]?\d{4}\b") |} ] in
  let names :=
    [ {| text := py "Asha Rao"; start := 0; end_ := 8;
         confidence := (0.7 + 0.1)%float;
         pattern :=
           Some (py "\b[A-Z][a-z]+\s+[A-Z][a-z]+(?:\s+[A-Z][a-z]+)?\b") |};
      {| text := py "Ravi Rao"; start := 10; end_ := 18;
         confidence := (0.7 + 0.1)%float;
         pattern :=
           Some (py "\b[A-Z][a-z]+\s+[A-Z][a-z]+(?:\s+[A-Z][a-z]+)?\b") |} ] in
  let persons := [ detection_of asha; detection_of ravi ] in
  let detected_pii :=
    [ (py "AADHAAR", aadhaar); (py "NAME", names);
      (py "NLP_PERSON", persons) ] in
  self_patterns self = @_get_comprehensive_patterns Latin1.db Sample.accept_all
  /\ @detect_pii Latin1.db Fixture.engine_on_names_and_numbers self
       (Some Fixture.names_and_numbers) = Ok detected_pii
  /\ In (py "AADHAAR")
        (keys (@_get_comprehensive_patterns Latin1.db Sample.accept_all))
  /\ In (py "NAME")
        (keys (@_get_comprehensive_patterns Latin1.db Sample.accept_all))
  /\ entities_disjoint [asha; ravi]
  /\ pairwise_disjoint aadhaar
  /\ pairwise_disjoint names
  /\ pairwise_disjoint persons.
Proof.
  intros self asha ravi aadhaar names persons detected_pii.
  assert (Hd : @detect_pii Latin1.db Fixture.engine_on_names_and_numbers self
                 (Some Fixture.names_and_numbers) = Ok detected_pii)
    by (vm_compute; reflexivity).
  assert (Ha : In (py "AADHAAR")
                 (keys (@_get_comprehensive_patterns Latin1.db
                          Sample.accept_all)))
    by (left; reflexivity).
  assert (Hn : In (py "NAME")
                 (keys (@_get_comprehensive_patterns Latin1.db
                          Sample.accept_all)))
    by (vm_compute; repeat (first [left; reflexivity | right])).
  assert (He : entities_disjoint [asha; ravi]).
  { intros [|[|i]] [|[|j]] a b Hne Hi Hj; cbn in Hi, Hj;
      try congruence; try (destruct i; discriminate);
      try (destruct j; discriminate);
      injection Hi as <-; injection Hj as <-; intros _ x; cbn; lia. }
  destruct (detections_disjoint_per_category Latin1.db Sample.accept_all
              Fixture.engine_on_names_and_numbers self
              Fixture.names_and_numbers detected_pii eq_refl Hd)
    as [Hregistry Hall].
  split; [reflexivity|]. split; [exact Hd|]. split; [exact Ha|].
  split; [exact Hn|]. split; [exact He|].
  split; [exact (Hregistry (py "AADHAAR") aadhaar eq_refl Ha)|].
  split; [exact (Hregistry (py "NAME") names eq_refl Hn)|].
  refine (Hall _ (py "NLP_PERSON") persons eq_refl).
  intros model ents [= <-] Hents.
  change (Fixture.names_model Fixture.names_and_numbers)
    with (Ok [asha; ravi]) in Hents.
  injection Hents as <-. exact He.
Defined.

(** ** Text redaction *)

Lemma all_matches_concat (pii_data : dict (list Detection)) :
  all_matches_of pii_data = concat (values pii_data).
Proof.
  unfold all_matches_of, values.
  assert (H : forall acc,
             fold_left
               (fun all_matches (item : str * list Detection) =>
                  fold_left (fun all_matches m => all_matches ++ [m])
                            (snd item) all_matches)
               pii_data acc
             = (acc ++ concat (List.map snd pii_data))%list).
  { induction pii_data as [|[k l] rest IH]; intros acc; cbn.
    - now rewrite app_nil_r.
    - rewrite IH, app_assoc. f_equal.
      rewrite (fold_left_append (fun m => [m]) l acc). f_equal.
      induction l as [|m l IHl]; [reflexivity|]. cbn. now rewrite IHl. }
  apply (H []).
Qed.

Lemma redact_span_length t m :
  in_bounds (length t) m -> length (redact_span t m) = length t.
Proof.
  unfold in_bounds, redact_span. intros [H1 H2].
  rewrite !length_app, repeat_length, length_firstn, length_skipn. lia.
Qed.

Lemma redact_span_nth t m i :
  in_bounds (length t) m ->
  nth_error (redact_span t m) i
  = if covers i m then Some mask else nth_error t i.
Proof.
  unfold in_bounds, redact_span, covers. intros [H1 H2].
  rewrite nth_error_app, length_firstn, nth_error_firstn.
  replace (Nat.min (start m) (length t)) with (start m) by lia.
  destruct (Nat.ltb_spec i (start m)) as [Hlt|Hge].
  - rewrite (proj2 (Nat.leb_gt (start m) i)) by lia. reflexivity.
  - rewrite (proj2 (Nat.leb_le (start m) i)) by lia. cbn [andb].
    rewrite nth_error_app, repeat_length.
    destruct (Nat.ltb_spec (i - start m) (end_ m - start m)) as [Hin|Hout].
    + rewrite (proj2 (Nat.ltb_lt i (end_ m))) by lia.
      apply nth_error_repeat. lia.
    + rewrite (proj2 (Nat.ltb_ge i (end_ m))) by lia.
      rewrite nth_error_skipn. f_equal. lia.
Qed.

Lemma redact_fold (ms : list Detection) : forall t,
  Forall (in_bounds (length t)) ms ->
  length (fold_left redact_span ms t) = length t
  /\ forall i,
       nth_error (fold_left redact_span ms t) i
       = if existsb (covers i) ms then Some mask else nth_error t i.
Proof.
  induction ms as [|m ms IH]; intros t Hb; [now split|].
  inversion Hb as [|? ? Hm Hms]; subst. cbn [fold_left existsb].
  destruct (IH (redact_span t m)) as [Hlen Hnth].
  - now rewrite redact_span_length.
  - split; [now rewrite Hlen, redact_span_length|].
    intros i. rewrite Hnth, redact_span_nth by assumption.
    destruct (covers i m); cbn [orb]; [|reflexivity].
    now destruct (existsb (covers i) ms).
Qed.

(** A region all of whose offsets hold [c] is [c] repeated. *)
Lemma region_repeat {A} (c : A) (out : list A) (s e : nat) :
  (forall i, s <= i < e -> nth_error out i = Some c) ->
  substr out s e = repeat c (e - s).
Proof.
  intros H. apply nth_error_ext. intros i. unfold substr.
  rewrite nth_error_firstn, nth_error_skipn.
  destruct (Nat.ltb_spec i (e - s)) as [Hlt|Hge].
  - rewrite H by lia. symmetry. now apply nth_error_repeat.
  - symmetry. apply nth_error_None. rewrite repeat_length. lia.
Qed.

Lemma descending_start_sorted (l : list Detection) :
  StronglySorted (fun a b => start b <= start a)
    (sorted_reverse start Nat.ltb l).
Proof.
  apply Sorted_StronglySorted.
  - intros a b c Hab Hbc. lia.
  - assert (H := sorted_reverse_sorted start Nat.ltb l).
    eapply Sorted_ind with (P := Sorted (fun a b => start b <= start a));
      [constructor| |apply H].
    + intros a l' _ IH Hhd. constructor; [exact IH|].
      destruct Hhd as [|b l'' Hab]; constructor.
      unfold not_below in Hab. apply Nat.ltb_ge in Hab. exact Hab.
    + intros a b Hab. apply Nat.ltb_lt in Hab. apply Nat.ltb_ge. lia.
Qed.

(** C6. For spans that lie inside the text, the text [_redact_text]
    writes has the length of the input, its region [[s,e)] is the mask
    character repeated [e - s] times for every span, and it results from
    the replacements applied in the order of decreasing start offset. *)
Theorem text_masking_preserves_length
    (text : str) (pii_data : dict (list Detection)) :
  (forall k l, In (k, l) pii_data -> Forall (in_bounds (length text)) l) ->
  let order := sorted_reverse start Nat.ltb (concat (values pii_data)) in
  let out := redact_matches text pii_data in
  length out = length text
  /\ (forall k l m,
        In (k, l) pii_data -> In m l ->
        substr out (start m) (end_ m) = repeat mask (end_ m - start m))
  /\ out = fold_left redact_span order text
  /\ Permutation order (concat (values pii_data))
  /\ StronglySorted (fun a b => start b <= start a) order.
Proof.
  intros Hb order out.
  assert (Hout : out = fold_left redact_span order text)
    by (unfold out, redact_matches; now rewrite all_matches_concat).
  assert (Hperm : Permutation order (concat (values pii_data)))
    by apply sorted_reverse_permutation.
  assert (Hall : Forall (in_bounds (length text)) order).
  { eapply Permutation_Forall; [symmetry; exact Hperm|].
    apply Forall_forall. intros m Hm.
    apply in_concat in Hm as (l & Hl & Hm). unfold values in Hl.
    apply in_map_iff in Hl as ([k l'] & <- & Hl).
    specialize (Hb k l' Hl). rewrite Forall_forall in Hb. now apply Hb. }
  destruct (redact_fold order text Hall) as [Hlen Hnth].
  rewrite <- Hout in Hlen, Hnth.
  split; [exact Hlen|split; [|split; [exact Hout|split; [exact Hperm|]]]].
  - intros k l m Hl Hm. apply region_repeat. intros i Hi.
    rewrite Hnth.
    assert (Hex : existsb (covers i) order = true).
    { apply existsb_exists. exists m. split.
      - apply (Permutation_in _ (Permutation_sym Hperm)).
        apply in_concat. exists l. split; [|exact Hm].
        unfold values. change l with (snd (k, l)). now apply in_map.
      - unfold covers. apply andb_true_iff.
        split; [apply Nat.leb_le|apply Nat.ltb_lt]; lia. }
    now rewrite Hex.
  - apply descending_start_sorted.
Qed.

(** *** The spans [detect_pii] returns lie inside the text *)

Lemma resolver_loop_subset sorted_matches : forall filtered d,
  In d (fold_left
          (fun filtered_matches m =>
             if is_overlapping m filtered_matches then filtered_matches
             else filtered_matches ++ [m])
          sorted_matches filtered) ->
  In d filtered \/ In d sorted_matches.
Proof.
  induction sorted_matches as [|m rest IH]; intros filtered d Hin;
    [now left|].
  cbn [fold_left] in Hin. apply IH in Hin as [Hin|Hin]; [|now right; right].
  destruct (is_overlapping m filtered); [now left|].
  apply in_app_or in Hin as [Hin|[<-|[]]]; [now left|now right; left].
Qed.

Lemma remove_overlapping_subset matches d :
  In d (_remove_overlapping_matches matches) -> In d matches.
Proof.
  unfold _remove_overlapping_matches. destruct matches as [|m rest];
    [auto|].
  intros Hin. apply resolver_loop_subset in Hin as [[]|Hin].
  eapply Permutation_in;
    [apply (sorted_reverse_permutation confidence PrimFloat.ltb)|exact Hin].
Qed.

Section BoundsFacts.
Context {U : UnicodeDB} {R : RegexEngine}.

Lemma candidates_in_bounds self text pii_type config d :
  engine_in_bounds text ->
  In d (candidates self text pii_type config) ->
  in_bounds (length text) d.
Proof.
  intros He Hin. unfold candidates in Hin.
  apply in_flat_map in Hin as (pattern & _ & Hin).
  apply in_flat_map in Hin as (m & Hm & Hin).
  specialize (He pattern m Hm). unfold match_span in He.
  unfold candidate_of in Hin.
  destruct (match m_groups m with g :: _ => g | [] => m_span m end)
    as [s e]. cbn [fst snd] in He.
  destruct (validator_passed config (substr text s e)
            && (confidence_threshold (self_config self) <? _)%float);
    [|destruct Hin].
  destruct Hin as [<-|[]]. exact He.
Qed.

Lemma detected_by_patterns_in_bounds self text k l :
  engine_in_bounds text ->
  In (k, l) (detected_by_patterns self text) ->
  Forall (in_bounds (length text)) l.
Proof.
  intros He. unfold detected_by_patterns.
  assert (H : forall items detected,
             (forall k l, In (k, l) detected ->
                          Forall (in_bounds (length text)) l) ->
             forall k l,
               In (k, l)
                 (fold_left
                    (fun detected_pii (item : str * PatternConfig) =>
                       match candidates self text (fst item) (snd item) with
                       | [] => detected_pii
                       | _ :: _ =>
                           set detected_pii (fst item)
                             (_remove_overlapping_matches
                                (candidates self text (fst item) (snd item)))
                       end)
                    items detected) ->
               Forall (in_bounds (length text)) l).
  { induction items as [|[pii_type config] items IH];
      intros detected Hinv k' l'; [apply Hinv|].
    cbn [fold_left fst snd]. apply IH. intros k0 l0 Hin.
    destruct (candidates self text pii_type config) eqn:E;
      [now apply Hinv in Hin|].
    apply In_set in Hin as [[-> ->]|Hin]; [|now apply Hinv in Hin].
    apply Forall_forall. intros x Hx.
    apply remove_overlapping_subset in Hx. rewrite <- E in Hx.
    now apply (candidates_in_bounds self text pii_type config). }
  apply H. intros ? ? [].
Qed.

Lemma merge_entities_in_bounds (n : nat) nlp_entities : forall detected_pii,
  (forall k l, In (k, l) detected_pii -> Forall (in_bounds n) l) ->
  (forall k l, In (k, l) nlp_entities -> Forall (in_bounds n) l) ->
  forall k l, In (k, l) (merge_entities detected_pii nlp_entities) ->
              Forall (in_bounds n) l.
Proof.
  unfold merge_entities.
  induction nlp_entities as [|[k0 ents] rest IH]; intros d Hd Hn k l;
    [apply Hd|].
  cbn [fold_left]. apply IH; [|intros k' l' Hin; apply (Hn k' l'); now right].
  intros k' l' Hin.
  assert (Hents : Forall (in_bounds n) ents) by (apply (Hn k0); now left).
  destruct (mem d k0).
  - apply In_set in Hin as [[-> ->]|Hin]; [|now apply Hd in Hin].
    apply Forall_app. split; [|exact Hents].
    unfold get_or_empty. destruct (get d k0) as [old|] eqn:E; [|constructor].
    apply get_Some_In in E. now apply Hd in E.
  - apply In_set in Hin as [[-> ->]|Hin]; [exact Hents|now apply Hd in Hin].
Qed.

Lemma detected_by_nlp_in_bounds self text k l :
  model_in_bounds self text ->
  In (k, l) (detected_by_nlp self text) ->
  Forall (in_bounds (length text)) l.
Proof.
  intros Hm Hin. unfold detected_by_nlp in Hin.
  destruct (self_nlp self) as [model|] eqn:En; [|destruct Hin].
  destruct (model text) as [ents|] eqn:Ee; [|destruct Hin].
  specialize (Hm model ents En Ee).
  rewrite (proj1 (proj2 (collect_entities_spec ents)) k l Hin).
  apply Forall_map. apply Forall_forall. intros ent Hent.
  apply filter_In in Hent as [Hent _]. rewrite Forall_forall in Hm.
  exact (Hm ent Hent).
Qed.

(** Every span [detect_pii] returns lies inside the text, when those of
    the engine and of the model do. *)
Lemma detect_pii_in_bounds self text detected_pii :
  engine_in_bounds text -> model_in_bounds self text ->
  detect_pii self (Some text) = Ok detected_pii ->
  forall k l, In (k, l) detected_pii -> Forall (in_bounds (length text)) l.
Proof.
  intros He Hm Hd k l Hin. destruct text as [|c text'].
  - injection Hd as <-. destruct Hin.
  - rewrite detect_pii_stages in Hd by discriminate. injection Hd as <-.
    apply refine_detections_entries in Hin as (l0 & Hin & ->).
    apply incl_Forall with (l1 := l0);
      [intros x Hx; now apply filter_In in Hx|].
    revert Hin. apply merge_entities_in_bounds.
    + intros k' l'. now apply detected_by_patterns_in_bounds.
    + intros k' l'. now apply detected_by_nlp_in_bounds.
Qed.

(** So the text [_redact_text] writes has the length of the text read. *)
Lemma detected_spans_mask_in_place self text detected_pii :
  engine_in_bounds text -> model_in_bounds self text ->
  detect_pii self (Some text) = Ok detected_pii ->
  length (redact_matches text detected_pii) = length text.
Proof.
  intros He Hm Hd. unfold redact_matches. rewrite all_matches_concat.
  apply redact_fold.
  eapply Permutation_Forall;
    [symmetry; apply (sorted_reverse_permutation start Nat.ltb)|].
  apply Forall_forall. intros m Hin.
  apply in_concat in Hin as (l & Hl & Hin). unfold values in Hl.
  apply in_map_iff in Hl as ([k l'] & <- & Hl).
  assert (H := detect_pii_in_bounds self text detected_pii He Hm Hd k l' Hl).
  rewrite Forall_forall in H. now apply H.
Qed.

End BoundsFacts.

(** The theorem on "hello world" with the overlapping spans [0,5) of one
    category and [3,8) of another: eight block characters, then "rld". *)
Lemma text_masking_preserves_length_witness :
  let pii_data :=
    [ (py "NAME", [Sample.detection 0 5 1]);
      (py "NLP_PERSON", [Sample.detection 3 8 0.8]) ] in
  (forall k l, In (k, l) pii_data ->
               Forall (in_bounds (length (py "hello world"))) l)
  /\ redact_matches (py "hello world") pii_data
     = (repeat mask 8 ++ py "rld")%list
  /\ length (redact_matches (py "hello world") pii_data)
     = length (py "hello world").
Proof.
  intros pii_data.
  assert (H : forall k l, In (k, l) pii_data ->
                Forall (in_bounds (length (py "hello world"))) l).
  { intros k l [[= <- <-]|[[= <- <-]|[]]];
      repeat constructor; cbn; lia. }
  split; [exact H|]. split; [reflexivity|].
  exact (proj1 (text_masking_preserves_length (py "hello world") pii_data H)).
Defined.

(** ** The redaction log *)

Lemma fold_set_fresh {V W} (g : str * V -> W) (items : dict V) :
  forall acc : dict W,
    wf items ->
    (forall k, In k (keys items) -> ~ In k (keys acc)) ->
    fold_left (fun acc item => set acc (fst item) (g item)) items acc
    = (acc ++ List.map (fun item => (fst item, g item)) items)%list.
Proof.
  unfold wf. induction items as [|[k v] rest IH]; intros acc Hwf Hfresh; cbn.
  - now rewrite app_nil_r.
  - inversion Hwf as [|? ? Hk Hrest]; subst.
    rewrite set_fresh.
    2:{ apply get_None_keys. apply Hfresh. now left. }
    rewrite IH; [now rewrite <- app_assoc|assumption|].
    intros k' Hk' Hin. unfold keys in Hin. rewrite map_app in Hin.
    apply in_app_or in Hin as [Hin|[<-|[]]].
    + apply (Hfresh k'); [now right|exact Hin].
    + now apply Hk.
Qed.

Lemma dict_comprehension_map {V W} (f : V -> W) (d : dict V) :
  wf d ->
  dict_comprehension f d
  = List.map (fun item => (fst item, f (snd item))) d.
Proof.
  intros Hwf. unfold dict_comprehension.
  now rewrite (fold_set_fresh (fun item => f (snd item)) d [] Hwf
                 (fun k _ (H : In k []) => match H with end)).
Qed.

(** The comprehension sees the values only through [f]. *)
Lemma dict_comprehension_values {V V' W} (f : V' -> W) (h : V -> V')
    (d : dict V) :
  dict_comprehension f (List.map (fun item => (fst item, h (snd item))) d)
  = dict_comprehension (fun v => f (h v)) d.
Proof.
  unfold dict_comprehension. generalize (@nil (str * W)).
  induction d as [|[k v] d IH]; intros acc; [reflexivity|]. cbn. apply IH.
Qed.

Lemma dict_comprehension_ext {V W} (f g : V -> W) (d : dict V) :
  (forall v, f v = g v) -> dict_comprehension f d = dict_comprehension g d.
Proof.
  intros H. unfold dict_comprehension. generalize (@nil (str * W)).
  induction d as [|[k v] d IH]; intros acc; [reflexivity|]. cbn.
  rewrite H. apply IH.
Qed.

(** The entry depends on the detections through their number and their
    confidences only. *)
Lemma log_entry_erased now input_path output_path pii_data :
  log_entry_of now input_path output_path pii_data
  = log_entry_of now input_path output_path
      (List.map (fun item => (fst item, List.map erase (snd item))) pii_data).
Proof.
  unfold log_entry_of. f_equal.
  - rewrite dict_comprehension_values. apply dict_comprehension_ext.
    intros v. now rewrite length_map.
  - f_equal. unfold values. rewrite !map_map. apply map_ext.
    intros [k l]. cbn. now rewrite length_map.
  - rewrite dict_comprehension_values. apply dict_comprehension_ext.
    intros v. now rewrite map_map.
Qed.

Section LogFacts.
Context {U : UnicodeDB} {R : RegexEngine} {F : FileSystem}.

Lemma refine_detections_wf detected_pii text :
  wf (_refine_detections detected_pii text).
Proof.
  unfold _refine_detections.
  assert (H : forall items refined,
             wf refined ->
             wf (fold_left
                   (fun refined_pii (item : str * list Detection) =>
                      let (pii_type, matches) := item in
                      let refined_matches := filter (keeps pii_type) matches in
                      match refined_matches with
                      | [] => refined_pii
                      | _ => set refined_pii pii_type refined_matches
                      end)
                   items refined)).
  { induction items as [|[k l] items IH]; intros refined Hwf; [exact Hwf|].
    cbn [fold_left]. apply IH.
    destruct (filter (keeps k) l); [exact Hwf|now apply wf_set]. }
  apply H. constructor.
Qed.

Lemma detect_pii_wf self text detected_pii :
  detect_pii self text = Ok detected_pii -> wf detected_pii.
Proof.
  destruct text as [[|c text]|]; try (intros [= <-]; constructor).
  rewrite detect_pii_stages by discriminate. intros [= <-].
  apply refine_detections_wf.
Qed.

End LogFacts.

(** C8 (as the code has it). A call of [_redact_text] leaves the log as
    it was when no PII is detected and when the call raises; when PII is
    detected and the call returns, it appends exactly one entry.  The
    entry holds the number of detections of each category, their total,
    and per detection the marker "***REDACTED***" with the confidence;
    it is the same entry whatever the matched texts and offsets are. *)
Theorem redaction_log_discipline
    (U : UnicodeDB) (R : RegexEngine) (F : FileSystem)
    (self : AdvancedPIIRedactor) (fs : files)
    (now input_path output_path : str) :
  let call := _redact_text self fs now input_path output_path in
  let self' := fst (snd call) in
  exists pii_data,
    detect_pii self (extract_text_from_file fs input_path) = Ok pii_data
    /\ (pii_data = [] -> self_redaction_log self' = self_redaction_log self)
    /\ (forall e, fst call = Raise e ->
                  self_redaction_log self' = self_redaction_log self)
    /\ (pii_data <> [] ->
        forall path, fst call = Ok path ->
          self_redaction_log self'
          = (self_redaction_log self
             ++ [log_entry_of now input_path output_path pii_data])%list)
    /\ (let entry := log_entry_of now input_path output_path pii_data in
        pii_detected entry
        = List.map (fun item => (fst item, length (snd item))) pii_data
        /\ total_pii_count entry
           = list_sum (List.map (fun item => length (snd item)) pii_data)
        /\ pii_details entry
           = List.map
               (fun item =>
                  (fst item,
                   List.map (fun m => (redacted_marker, confidence m))
                            (snd item)))
               pii_data
        /\ entry
           = log_entry_of now input_path output_path
               (List.map (fun item => (fst item, List.map erase (snd item)))
                         pii_data)).
Proof.
  intros call self'.
  destruct (detect_pii_total self (extract_text_from_file fs input_path))
    as [pii_data Hd].
  exists pii_data. split; [exact Hd|].
  assert (Hwf := detect_pii_wf _ _ _ Hd).
  assert (Hentry :
    let entry := log_entry_of now input_path output_path pii_data in
    pii_detected entry
    = List.map (fun item => (fst item, length (snd item))) pii_data
    /\ total_pii_count entry
       = list_sum (List.map (fun item => length (snd item)) pii_data)
    /\ pii_details entry
       = List.map
           (fun item =>
              (fst item,
               List.map (fun m => (redacted_marker, confidence m)) (snd item)))
           pii_data
    /\ entry
       = log_entry_of now input_path output_path
           (List.map (fun item => (fst item, List.map erase (snd item)))
                     pii_data)).
  { cbv zeta. cbn [pii_detected total_pii_count pii_details log_entry_of].
    rewrite !dict_comprehension_map by exact Hwf.
    split; [reflexivity|]. split; [|split; [reflexivity|]].
    - unfold values. now rewrite map_map.
    - apply log_entry_erased. }
  unfold self', call, _redact_text. rewrite Hd.
  destruct pii_data as [|item rest].
  - destruct (copy2 fs input_path output_path) as [[u|e] fs']; cbn;
      repeat split; try reflexivity; try congruence; apply Hentry.
  - destruct (extract_text_from_file fs input_path) as [text|];
      [destruct (write_text fs output_path
                   (redact_matches text (item :: rest))) as [[u|e] fs']|];
      cbn; repeat split; try reflexivity; try congruence;
      try discriminate; apply Hentry.
Qed.

(** The theorem on the file "ab" with a model that reports "a" and "b":
    the call returns and the log gains its one entry, two NLP_PERSON. *)
Lemma redaction_log_discipline_witness :
  let self := @__init__ Latin1.db Sample.accept_all None
                (Some Sample.disjoint_model) in
  let call := @_redact_text Latin1.db Sample.no_match Sample.memory_files
                self [(py "in.txt", py "ab")]
                (py "2024-01-01T00:00:00") (py "in.txt") (py "out.txt") in
  fst call = Ok (py "out.txt")
  /\ List.map pii_detected (self_redaction_log (fst (snd call)))
     = [ [ (py "NLP_PERSON", 2) ] ]
  /\ get (snd (snd call)) (py "out.txt") = Some [mask; mask].
Proof.
  intros self call.
  destruct (redaction_log_discipline Latin1.db Sample.no_match
              Sample.memory_files self [(py "in.txt", py "ab")]
              (py "2024-01-01T00:00:00") (py "in.txt") (py "out.txt"))
    as (pii_data & Hd & _ & _ & Hlog & _).
  vm_compute in Hd. injection Hd as <-.
  assert (Hcall : fst call = Ok (py "out.txt")) by (vm_compute; reflexivity).
  split; [exact Hcall|]. split; [|vm_compute; reflexivity].
  fold call in Hlog.
  rewrite (Hlog ltac:(discriminate) (py "out.txt") Hcall).
  vm_compute. reflexivity.
Defined.

(** C8 (as stated) fails: on a file in which nothing is detected the
    call returns and appends no entry. *)
Lemma redaction_without_pii_is_not_logged :
  let call := @_redact_text Latin1.db Sample.no_match Sample.memory_files
                Sample.redactor [(py "in.txt", py "ab")]
                (py "2024-01-01T00:00:00") (py "in.txt") (py "out.txt") in
  fst call = Ok (py "out.txt")
  /\ get (snd (snd call)) (py "out.txt") = Some (py "ab")
  /\ self_redaction_log (fst (snd call)) = []
  /\ length (self_redaction_log (fst (snd call)))
     <> S (length (self_redaction_log Sample.redactor)).
Proof.
  vm_compute. split; [reflexivity|]. split; [reflexivity|].
  split; [reflexivity|]. discriminate.
Qed.

(** ** The summary *)

Lemma add_count_get found k c k' :
  get (add_count found (k, c)) k'
  = if str_eqb k k' then Some (get_or_zero found k + c) else get found k'.
Proof.
  unfold add_count.
  assert (Hz : get_or_zero (if mem found k then found else set found k 0) k
               = get_or_zero found k).
  { unfold get_or_zero, mem. destruct (get found k) eqn:E; [now rewrite E|].
    now rewrite get_set_same. }
  rewrite Hz. destruct (str_eqb k k') eqn:E.
  - apply str_eqb_eq in E. subst. apply get_set_same.
  - apply str_eqb_neq in E. rewrite get_set_other by assumption.
    destruct (mem found k); [reflexivity|]. now apply get_set_other.
Qed.

Lemma add_count_wf found item : wf found -> wf (add_count found item).
Proof.
  destruct item as [k c]. unfold add_count. intros H. apply wf_set.
  destruct (mem found k); [assumption|now apply wf_set].
Qed.

Lemma add_counts_get (items : dict nat) : forall found k,
  wf items ->
  get (fold_left add_count items found) k
  = match get items k with
    | Some c => Some (get_or_zero found k + c)
    | None => get found k
    end.
Proof.
  unfold wf. induction items as [|[k0 c0] items IH]; intros found k Hwf;
    [reflexivity|].
  inversion Hwf as [|? ? Hk Hrest]; subst.
  cbn [fold_left get]. rewrite IH by assumption.
  rewrite (str_eqb_sym k k0).
  destruct (str_eqb k0 k) eqn:E.
  - apply str_eqb_eq in E. subst k0.
    assert (Hnone : get items k = None) by now apply get_None_keys.
    rewrite Hnone, add_count_get. now rewrite str_eqb_refl.
  - destruct (get items k) as [c|]; [|now rewrite add_count_get, E].
    unfold get_or_zero. now rewrite add_count_get, E.
Qed.

Lemma add_counts_wf (items : dict nat) : forall found,
  wf found -> wf (fold_left add_count items found).
Proof.
  induction items as [|item items IH]; intros found H; [exact H|].
  cbn [fold_left]. apply IH. now apply add_count_wf.
Qed.

Lemma aggregate_fold (log : list LogEntry) : forall found k,
  Forall (fun entry => wf (pii_detected entry)) log ->
  wf found ->
  let totals :=
    fold_left (fun found entry => fold_left add_count (pii_detected entry) found)
              log found in
  wf totals
  /\ get totals k
     = if mem found k || existsb (fun entry => mem (pii_detected entry) k) log
       then Some (get_or_zero found k + list_sum (List.map (entry_count k) log))
       else None.
Proof.
  induction log as [|entry log IH]; intros found k Hlog Hwf; cbn.
  - split; [exact Hwf|]. unfold mem, get_or_zero. rewrite orb_false_r.
    destruct (get found k); [f_equal; lia|reflexivity].
  - inversion Hlog as [|? ? He Hrest]; subst.
    destruct (IH (fold_left add_count (pii_detected entry) found) k Hrest
                 (add_counts_wf _ _ Hwf)) as [Hwf' Hget].
    split; [exact Hwf'|]. cbv zeta in Hget. rewrite Hget.
    unfold mem, get_or_zero, entry_count.
    rewrite (add_counts_get _ found k He). unfold get_or_zero.
    destruct (get (pii_detected entry) k) as [c|];
      destruct (get found k) as [n|]; cbn [orb]; unfold list_sum;
      try (f_equal; lia);
      destruct (existsb _ log); try reflexivity; f_equal; lia.
Qed.

(** C9 (as the code has it). On an empty log the summary is the single
    message "No redactions performed yet".  On a log that is not empty
    the summary holds the number of entries, the sum of their totals,
    and per category, for exactly the categories that occur in some
    entry, the sum of the entries' counts. *)
Theorem summary_totals (self : AdvancedPIIRedactor) :
  let log := self_redaction_log self in
  let summary := get_redaction_summary self in
  (log = [] ->
   summary = [ (py "message", VStr (py "No redactions performed yet")) ])
  /\ (log <> [] ->
      Forall (fun entry => wf (pii_detected entry)) log ->
      get summary (py "total_files_processed") = Some (VInt (length log))
      /\ get summary (py "total_pii_redacted")
         = Some (VInt (list_sum (List.map total_pii_count log)))
      /\ exists totals,
           get summary (py "pii_types_found") = Some (VCounts totals)
           /\ wf totals
           /\ forall k,
                get totals k
                = if existsb (fun entry => mem (pii_detected entry) k) log
                  then Some (list_sum (List.map (entry_count k) log))
                  else None).
Proof.
  intros log summary. unfold summary, get_redaction_summary. fold log.
  split.
  - intros ->. reflexivity.
  - intros Hne Hwf. destruct log as [|entry rest] eqn:E; [congruence|].
    rewrite <- E in *. split; [reflexivity|]. split; [reflexivity|].
    exists (aggregate_pii_types log). split; [reflexivity|].
    destruct (aggregate_fold log [] (py "") Hwf (NoDup_nil _)) as [Hw _].
    split; [exact Hw|].
    intros k. destruct (aggregate_fold log [] k Hwf (NoDup_nil _)) as [_ Hg].
    exact Hg.
Qed.

(** The theorem on a log of two entries. *)
Lemma summary_totals_witness :
  let entry1 :=
    log_entry_of (py "t1") (py "a.txt") (py "a_out.txt")
      [ (py "MOBILE", [Sample.detection 9 19 1]);
        (py "NLP_PERSON", [Sample.detection 0 3 0.8; Sample.detection 4 8 0.8]) ] in
  let entry2 :=
    log_entry_of (py "t2") (py "b.txt") (py "b_out.txt")
      [ (py "NLP_PERSON", [Sample.detection 0 5 0.8]) ] in
  let self := set_redaction_log Sample.redactor [entry1; entry2] in
  self_redaction_log self <> []
  /\ Forall (fun entry => wf (pii_detected entry)) (self_redaction_log self)
  /\ get (get_redaction_summary self) (py "total_files_processed")
     = Some (VInt 2)
  /\ get (get_redaction_summary self) (py "total_pii_redacted")
     = Some (VInt 4)
  /\ get (get_redaction_summary self) (py "pii_types_found")
     = Some (VCounts [ (py "MOBILE", 1); (py "NLP_PERSON", 3) ]).
Proof.
  intros entry1 entry2 self.
  assert (Hne : self_redaction_log self <> []) by discriminate.
  assert (Hwf : Forall (fun entry => wf (pii_detected entry))
                  (self_redaction_log self)).
  { repeat constructor; cbn; intros H;
      repeat (destruct H as [H|H]; [discriminate H|]); exact H. }
  split; [exact Hne|]. split; [exact Hwf|].
  destruct (proj2 (summary_totals self) Hne Hwf) as (H1 & H2 & _).
  split; [exact H1|]. split; [exact H2|]. reflexivity.
Defined.

(** C9 (as stated) fails on the empty log: the summary has no total of
    files processed, no total of PII redacted and no per-category
    totals. *)
Lemma summary_of_empty_log_has_no_totals :
  self_redaction_log Sample.redactor = []
  /\ get (get_redaction_summary Sample.redactor) (py "total_files_processed")
     = None
  /\ get (get_redaction_summary Sample.redactor) (py "total_pii_redacted")
     = None
  /\ get (get_redaction_summary Sample.redactor) (py "pii_types_found")
     = None
  /\ get (get_redaction_summary Sample.redactor) (py "total_files_processed")
     <> Some (VInt (length (self_redaction_log Sample.redactor))).
Proof.
  repeat split; try reflexivity. discriminate.
Qed.

(* ------------------------------------------------------------------ *)
(** ** What the Aadhaar validator catches *)

Lemma latin1_digit_laws : DigitLaws Latin1.db.
Proof.
  split.
  - intros c d H. cbn in *. unfold Latin1.int in H. unfold Latin1.isspace.
    destruct ((48 <=? c)%N && (c <=? 57)%N) eqn:E; [|discriminate].
    apply andb_true_iff in E. destruct E as [E1 E2].
    apply N.leb_le in E1. apply N.leb_le in E2.
    repeat match goal with
    | |- context [(?a <=? ?b)%N] => destruct (N.leb_spec a b)
    | |- context [(?a =? ?b)%N] => destruct (N.eqb_spec a b)
    end; try reflexivity; exfalso; lia.
  - reflexivity.
  - intros n Hn. do 10 (destruct n as [|n]; [reflexivity|]). exfalso; lia.
Qed.

Section ChecksumFacts.
Context {U : UnicodeDB} (L : UnicodeLaws U) (D : DigitLaws U).

Lemma strip_separators_app a b :
  strip_separators (a ++ b) = strip_separators a ++ strip_separators b.
Proof. apply filter_app. Qed.

Lemma strip_separators_digit c d rest :
  char_int c = Some d ->
  strip_separators (c :: rest) = c :: strip_separators rest.
Proof.
  intros H. unfold strip_separators. cbn [filter].
  rewrite (digit_not_space D H).
  destruct (N.eqb_spec c 45) as [->|_]; [|reflexivity].
  rewrite (hyphen_not_digit D) in H. discriminate.
Qed.

Lemma digit_values_lt s : forall vs,
  digit_values s = Some vs -> Forall (fun v => v < 10) vs.
Proof.
  induction s as [|c s IH]; intros vs H; cbn in H.
  - injection H as <-. constructor.
  - destruct (char_int c) as [d|] eqn:Hc; [|discriminate].
    destruct (digit_values s) as [ds|]; [|discriminate].
    injection H as <-. constructor; [exact (char_int_lt L Hc)|auto].
Qed.

Lemma str_isdigit_values s vs :
  s <> [] -> digit_values s = Some vs -> str_isdigit s = true.
Proof.
  intros Hs H. destruct s; [congruence|].
  exact (digit_values_isdigit L _ _ H).
Qed.

End ChecksumFacts.

(** *** The Verhoeff checksum *)

Lemma d5_mul_cancel_l a b b' :
  a < 10 -> b < 10 -> b' < 10 -> d5_mul a b = d5_mul a b' -> b = b'.
Proof.
  intros Ha Hb Hb' H.
  assert (T : forallb (fun a => forallb (fun b => forallb (fun b' =>
                implb (d5_mul a b =? d5_mul a b') (b =? b'))
                (seq 0 10)) (seq 0 10)) (seq 0 10) = true)
    by (vm_compute; reflexivity).
  pose proof (below_forallb 10 _ a T Ha) as T1. cbv beta in T1.
  pose proof (below_forallb 10 _ b T1 Hb) as T2. cbv beta in T2.
  pose proof (below_forallb 10 _ b' T2 Hb') as T3. cbv beta in T3.
  rewrite H, Nat.eqb_refl in T3. apply Nat.eqb_eq. exact T3.
Qed.

Lemma d5_mul_cancel_r a a' b :
  a < 10 -> a' < 10 -> b < 10 -> d5_mul a b = d5_mul a' b -> a = a'.
Proof.
  intros Ha Ha' Hb H.
  assert (T : forallb (fun a => forallb (fun a' => forallb (fun b =>
                implb (d5_mul a b =? d5_mul a' b) (a =? a'))
                (seq 0 10)) (seq 0 10)) (seq 0 10) = true)
    by (vm_compute; reflexivity).
  pose proof (below_forallb 10 _ a T Ha) as T1. cbv beta in T1.
  pose proof (below_forallb 10 _ a' T1 Ha') as T2. cbv beta in T2.
  pose proof (below_forallb 10 _ b T2 Hb) as T3. cbv beta in T3.
  rewrite H, Nat.eqb_refl in T3. apply Nat.eqb_eq. exact T3.
Qed.

Lemma d5_perm_mod i d : d5_perm i d = d5_perm (i mod 8) d.
Proof. unfold d5_perm. rewrite Nat.Div0.mod_mod. reflexivity. Qed.

Lemma d5_perm_inj i d d' :
  d < 10 -> d' < 10 -> d5_perm i d = d5_perm i d' -> d = d'.
Proof.
  intros Hd Hd' H. rewrite (d5_perm_mod i d), (d5_perm_mod i d') in H.
  assert (Hi : i mod 8 < 8) by (apply Nat.mod_upper_bound; lia).
  assert (T : forallb (fun j => forallb (fun d => forallb (fun d' =>
                implb (d5_perm j d =? d5_perm j d') (d =? d'))
                (seq 0 10)) (seq 0 10)) (seq 0 8) = true)
    by (vm_compute; reflexivity).
  pose proof (below_forallb 8 _ (i mod 8) T Hi) as T1. cbv beta in T1.
  pose proof (below_forallb 10 _ d T1 Hd) as T2. cbv beta in T2.
  pose proof (below_forallb 10 _ d' T2 Hd') as T3. cbv beta in T3.
  rewrite H, Nat.eqb_refl in T3. apply Nat.eqb_eq. exact T3.
Qed.

Lemma d5_swap_differs i c d1 d2 :
  c < 10 -> d1 < 10 -> d2 < 10 -> d1 <> d2 ->
  d5_mul (d5_mul c (d5_perm i d2)) (d5_perm (S i) d1)
  <> d5_mul (d5_mul c (d5_perm i d1)) (d5_perm (S i) d2).
Proof.
  intros Hc H1 H2 Hne H.
  assert (Hi : i mod 8 < 8) by (apply Nat.mod_upper_bound; lia).
  assert (HS : forall d, d5_perm (S i) d = d5_perm (S (i mod 8)) d).
  { intros d. unfold d5_perm. f_equal. f_equal.
    change (S i) with (1 + i). change (S (i mod 8)) with (1 + i mod 8).
    rewrite Nat.Div0.add_mod_idemp_r. reflexivity. }
  rewrite (d5_perm_mod i d1), (d5_perm_mod i d2), !HS in H.
  assert (T : forallb (fun c => forallb (fun j => forallb (fun d1 =>
                forallb (fun d2 =>
                  implb (d5_mul (d5_mul c (d5_perm j d2)) (d5_perm (S j) d1)
                         =? d5_mul (d5_mul c (d5_perm j d1)) (d5_perm (S j) d2))
                        (d1 =? d2))
                (seq 0 10)) (seq 0 10)) (seq 0 8)) (seq 0 10) = true)
    by (vm_compute; reflexivity).
  pose proof (below_forallb 10 _ c T Hc) as T1. cbv beta in T1.
  pose proof (below_forallb 8 _ (i mod 8) T1 Hi) as T2. cbv beta in T2.
  pose proof (below_forallb 10 _ d1 T2 H1) as T3. cbv beta in T3.
  pose proof (below_forallb 10 _ d2 T3 H2) as T4. cbv beta in T4.
  rewrite H, Nat.eqb_refl in T4. apply Nat.eqb_eq in T4. contradiction.
Qed.

Lemma verhoeff_from_app l1 : forall i c l2,
  verhoeff_from i c (l1 ++ l2)
  = verhoeff_from (i + length l1) (verhoeff_from i c l1) l2.
Proof.
  induction l1 as [|d l1 IH]; intros i c l2; cbn [app verhoeff_from length].
  - rewrite Nat.add_0_r. reflexivity.
  - rewrite IH. f_equal. lia.
Qed.

Lemma verhoeff_from_lt l : forall i c,
  c < 10 -> Forall (fun v => v < 10) l -> verhoeff_from i c l < 10.
Proof.
  induction l as [|d l IH]; intros i c Hc Hl; cbn [verhoeff_from]; [exact Hc|].
  inversion Hl; subst. apply IH; [|assumption].
  apply d5_mul_lt; [assumption|]. apply d5_perm_lt. assumption.
Qed.

Lemma verhoeff_from_inj l : forall i a a',
  a < 10 -> a' < 10 -> Forall (fun v => v < 10) l ->
  verhoeff_from i a l = verhoeff_from i a' l -> a = a'.
Proof.
  induction l as [|d l IH]; intros i a a' Ha Ha' Hl H; cbn [verhoeff_from] in H;
    [exact H|].
  inversion Hl; subst.
  assert (Hp : d5_perm i d < 10) by (apply d5_perm_lt; assumption).
  apply IH in H; try assumption; try (apply d5_mul_lt; assumption).
  exact (d5_mul_cancel_r _ _ _ Ha Ha' Hp H).
Qed.

Section AadhaarErrors.
Context {U : UnicodeDB} (L : UnicodeLaws U).

(** What an accepted number is made of. *)
Lemma validate_aadhaar_accepts number :
  _validate_aadhaar number = Ok true ->
  exists vs,
    digit_values (strip_separators number) = Some vs
    /\ length (strip_separators number) = 12
    /\ verhoeff_from 0 0 (rev vs) = 0.
Proof.
  unfold _validate_aadhaar. intros H.
  destruct (length (strip_separators number) =? 12) eqn:Hlen;
    [|discriminate].
  apply Nat.eqb_eq in Hlen. cbn [negb orb] in H.
  destruct (str_isdigit (strip_separators number)); [|discriminate].
  cbn [negb] in H.
  destruct (str_eqb _ _ || str_eqb _ _); [discriminate|].
  destruct (digit_values (rev (strip_separators number))) as [rs|] eqn:Hrs.
  - rewrite (verhoeff_loop_digits L _ _ 0 0 Hrs) in H by lia.
    cbn [bind] in H. injection H as H. apply Nat.eqb_eq in H.
    rewrite digit_values_rev in Hrs.
    destruct (digit_values (strip_separators number)) as [vs|];
      [|discriminate].
    cbn in Hrs. injection Hrs as <-. exists vs. auto.
  - rewrite (verhoeff_loop_not_digits L _ 0 0 Hrs) in H by lia. discriminate.
Qed.

(** Twelve decimal digits with a checksum other than 0 are rejected. *)
Lemma validate_aadhaar_rejects number vs :
  digit_values (strip_separators number) = Some vs ->
  length (strip_separators number) = 12 ->
  verhoeff_from 0 0 (rev vs) <> 0 ->
  _validate_aadhaar number = Ok false.
Proof.
  intros Hvs Hlen Hne. unfold _validate_aadhaar.
  rewrite Hlen. cbn [Nat.eqb negb orb].
  destruct (str_isdigit (strip_separators number)); [|reflexivity].
  cbn [negb].
  destruct (str_eqb _ _ || str_eqb _ _); [reflexivity|].
  assert (Hrs : digit_values (rev (strip_separators number)) = Some (rev vs)).
  { rewrite digit_values_rev, Hvs. reflexivity. }
  rewrite (verhoeff_loop_digits L _ _ 0 0 Hrs) by lia. cbn [bind].
  apply Nat.eqb_neq in Hne. rewrite Hne. reflexivity.
Qed.

End AadhaarErrors.

Lemma verhoeff_single_digit va vb d d' :
  Forall (fun v => v < 10) va -> Forall (fun v => v < 10) vb ->
  d < 10 -> d' < 10 -> d <> d' ->
  verhoeff_checksum (vb ++ d :: va) = 0 ->
  verhoeff_checksum (vb ++ d' :: va) <> 0.
Proof.
  intros Ha Hb Hd Hd' Hne H H'. rewrite <- H' in H. clear H'.
  unfold verhoeff_checksum in H.
  rewrite !rev_app_distr in H. cbn [rev] in H.
  rewrite !verhoeff_from_app in H. cbn [verhoeff_from] in H.
  rewrite !length_app in H. cbn [length] in H.
  assert (Hra : Forall (fun v => v < 10) (rev va))
    by (apply Forall_rev; assumption).
  assert (Hrb : Forall (fun v => v < 10) (rev vb))
    by (apply Forall_rev; assumption).
  assert (Hc : verhoeff_from 0 0 (rev va) < 10)
    by (apply verhoeff_from_lt; [lia|assumption]).
  apply verhoeff_from_inj in H; try assumption;
    try (apply d5_mul_lt; [assumption|apply d5_perm_lt; assumption]).
  apply d5_mul_cancel_l in H; try assumption;
    try (apply d5_perm_lt; assumption).
  apply d5_perm_inj in H; try assumption. congruence.
Qed.

Lemma verhoeff_transposition va vb d1 d2 :
  Forall (fun v => v < 10) va -> Forall (fun v => v < 10) vb ->
  d1 < 10 -> d2 < 10 -> d1 <> d2 ->
  verhoeff_checksum (vb ++ d1 :: d2 :: va) = 0 ->
  verhoeff_checksum (vb ++ d2 :: d1 :: va) <> 0.
Proof.
  intros Ha Hb H1 H2 Hne H H'. rewrite <- H' in H. clear H'.
  unfold verhoeff_checksum in H.
  rewrite !rev_app_distr in H. cbn [rev] in H.
  rewrite <- !app_assoc in H. cbn [app] in H.
  rewrite !verhoeff_from_app in H. cbn [verhoeff_from] in H.
  assert (Hra : Forall (fun v => v < 10) (rev va))
    by (apply Forall_rev; assumption).
  assert (Hrb : Forall (fun v => v < 10) (rev vb))
    by (apply Forall_rev; assumption).
  assert (Hc : verhoeff_from 0 0 (rev va) < 10)
    by (apply verhoeff_from_lt; [lia|assumption]).
  cbn [length] in H.
  assert (P : forall i d, d < 10 -> d5_perm i d < 10)
    by (intros; apply d5_perm_lt; assumption).
  apply verhoeff_from_inj in H; try assumption;
    try (repeat apply d5_mul_lt; auto).
  revert H. apply d5_swap_differs; assumption.
Qed.

Section AadhaarErrorDetection.
Context {U : UnicodeDB} (L : UnicodeLaws U) (D : DigitLaws U).

Lemma digit_values_split before after c vs :
  digit_values (before ++ c :: after) = Some vs ->
  exists vb d va,
    digit_values before = Some vb /\ char_int c = Some d
    /\ digit_values after = Some va /\ vs = vb ++ d :: va.
Proof.
  rewrite digit_values_app. cbn [digit_values].
  destruct (digit_values before) as [vb|]; [|discriminate].
  destruct (char_int c) as [d|]; [|discriminate].
  destruct (digit_values after) as [va|]; [|discriminate].
  intros H. injection H as <-. exists vb, d, va. auto.
Qed.

Lemma digit_values_join before after c vb d va :
  digit_values before = Some vb -> char_int c = Some d ->
  digit_values after = Some va ->
  digit_values (before ++ c :: after) = Some (vb ++ d :: va).
Proof.
  intros Hb Hc Ha. rewrite digit_values_app. cbn [digit_values].
  rewrite Hb, Hc, Ha. reflexivity.
Qed.

End AadhaarErrorDetection.

(** X1. A wrong digit is always caught: when [_validate_aadhaar] accepts
    a number, it rejects every number that differs from it in the value
    of one decimal digit, wherever the digit stands and whatever
    separators the number holds. *)
Theorem aadhaar_detects_single_digit_error
    (U : UnicodeDB) (L : UnicodeLaws U) (D : DigitLaws U)
    (before after : str) (c c' : char) (d d' : nat) :
  char_int c = Some d -> char_int c' = Some d' -> d <> d' ->
  _validate_aadhaar (before ++ c :: after) = Ok true ->
  _validate_aadhaar (before ++ c' :: after) = Ok false.
Proof.
  intros Hc Hc' Hne H.
  apply (validate_aadhaar_accepts L) in H.
  destruct H as (vs & Hvs & Hlen & Hsum).
  rewrite strip_separators_app, (strip_separators_digit D _ _ _ Hc) in Hvs, Hlen.
  apply digit_values_split in Hvs.
  destruct Hvs as (vb & d0 & va & Hb & Hc0 & Ha & ->).
  assert (d0 = d) by congruence. subst d0.
  pose proof (digit_values_lt L _ _ Hb) as Hvb.
  pose proof (digit_values_lt L _ _ Ha) as Hva.
  apply (validate_aadhaar_rejects L) with (vs := vb ++ d' :: va).
  - rewrite strip_separators_app, (strip_separators_digit D _ _ _ Hc').
    apply digit_values_join; assumption.
  - rewrite strip_separators_app, (strip_separators_digit D _ _ _ Hc').
    rewrite length_app in *. exact Hlen.
  - apply (verhoeff_single_digit va vb d d'); try assumption.
    + exact (char_int_lt L Hc).
    + exact (char_int_lt L Hc').
Qed.

(** The theorem on 1234 5678 9010 with its tenth digit misread as 9. *)
Lemma aadhaar_detects_single_digit_error_witness :
  UnicodeLaws Latin1.db /\ DigitLaws Latin1.db
  /\ @_validate_aadhaar Latin1.db (py "1234 5678 9010") = Ok true
  /\ @_validate_aadhaar Latin1.db (py "1234 5678 9910") = Ok false.
Proof.
  assert (H : @_validate_aadhaar Latin1.db (py "1234 5678 9010") = Ok true)
    by (vm_compute; reflexivity).
  split; [exact latin1_laws|]. split; [exact latin1_digit_laws|].
  split; [exact H|].
  exact (aadhaar_detects_single_digit_error Latin1.db latin1_laws
             latin1_digit_laws (py "1234 5678 9") (py "10") 48%N 57%N 0 9
             eq_refl eq_refl (fun E => O_S _ E) H).
Defined.

(** X2. Two neighbouring digits written in the wrong order are always
    caught: when [_validate_aadhaar] accepts a number in which two
    different decimal digits stand side by side, it rejects the number
    with the two exchanged. *)
Theorem aadhaar_detects_adjacent_transposition
    (U : UnicodeDB) (L : UnicodeLaws U) (D : DigitLaws U)
    (before after : str) (c1 c2 : char) (d1 d2 : nat) :
  char_int c1 = Some d1 -> char_int c2 = Some d2 -> d1 <> d2 ->
  _validate_aadhaar (before ++ c1 :: c2 :: after) = Ok true ->
  _validate_aadhaar (before ++ c2 :: c1 :: after) = Ok false.
Proof.
  intros Hc1 Hc2 Hne H.
  apply (validate_aadhaar_accepts L) in H.
  destruct H as (vs & Hvs & Hlen & Hsum).
  rewrite strip_separators_app, (strip_separators_digit D _ _ _ Hc1),
    (strip_separators_digit D _ _ _ Hc2) in Hvs, Hlen.
  apply digit_values_split in Hvs.
  destruct Hvs as (vb & d0 & va' & Hb & Hc0 & Ha' & ->).
  assert (d0 = d1) by congruence. subst d0.
  cbn [digit_values] in Ha'. rewrite Hc2 in Ha'.
  destruct (digit_values (strip_separators after)) as [va|] eqn:Ha;
    [|discriminate].
  injection Ha' as <-.
  pose proof (digit_values_lt L _ _ Hb) as Hvb.
  pose proof (digit_values_lt L _ _ Ha) as Hva.
  apply (validate_aadhaar_rejects L) with (vs := vb ++ d2 :: d1 :: va).
  - rewrite strip_separators_app, (strip_separators_digit D _ _ _ Hc2),
      (strip_separators_digit D _ _ _ Hc1).
    rewrite digit_values_app. cbn [digit_values]. rewrite Hb, Hc1, Hc2, Ha.
    reflexivity.
  - rewrite strip_separators_app, (strip_separators_digit D _ _ _ Hc2),
      (strip_separators_digit D _ _ _ Hc1).
    rewrite length_app in *. exact Hlen.
  - apply (verhoeff_transposition va vb d1 d2); try assumption.
    + exact (char_int_lt L Hc1).
    + exact (char_int_lt L Hc2).
Qed.

(** The theorem on 1234-5678-9010 with 78 written 87. *)
Lemma aadhaar_detects_adjacent_transposition_witness :
  UnicodeLaws Latin1.db /\ DigitLaws Latin1.db
  /\ @_validate_aadhaar Latin1.db (py "1234-5678-9010") = Ok true
  /\ @_validate_aadhaar Latin1.db (py "1234-5687-9010") = Ok false.
Proof.
  assert (H : @_validate_aadhaar Latin1.db (py "1234-5678-9010") = Ok true)
    by (vm_compute; reflexivity).
  split; [exact latin1_laws|]. split; [exact latin1_digit_laws|].
  split; [exact H|].
  exact (aadhaar_detects_adjacent_transposition Latin1.db latin1_laws
             latin1_digit_laws (py "1234-56") (py "-9010") 55%N 56%N 7 8
             eq_refl eq_refl (fun E => n_Sn _ E) H).
Defined.

(** X3. [_validate_aadhaar] raises exactly when the stripped number is
    twelve characters that [str.isdigit] accepts, is neither twelve 0s
    nor twelve 1s, and holds a character that [int] refuses; and what it
    raises then is [ValueError]. *)
Theorem validate_aadhaar_raises_exactly
    (U : UnicodeDB) (L : UnicodeLaws U) (number : str) (e : exn) :
  let digits := strip_separators number in
  _validate_aadhaar number = Raise e <->
  e = ValueError /\ length digits = 12 /\ str_isdigit digits = true
  /\ digits <> repeat 48%N 12 /\ digits <> repeat 49%N 12
  /\ digit_values digits = None.
Proof.
  intros digits. unfold _validate_aadhaar. fold digits.
  destruct (Nat.eqb_spec (length digits) 12) as [Hlen|Hlen]; cbn [negb orb].
  2:{ split; [discriminate|]. intros (_ & H & _). contradiction. }
  destruct (str_isdigit digits); cbn [negb].
  2:{ split; [discriminate|]. intros (_ & _ & H & _). discriminate. }
  destruct (str_eqb digits (repeat 48%N 12)) eqn:E0; cbn [orb].
  { apply str_eqb_eq in E0. split; [discriminate|].
    intros (_ & _ & _ & H & _). contradiction. }
  destruct (str_eqb digits (repeat 49%N 12)) eqn:E1.
  { apply str_eqb_eq in E1. split; [discriminate|].
    intros (_ & _ & _ & _ & H & _). contradiction. }
  apply str_eqb_neq in E0. apply str_eqb_neq in E1.
  destruct (digit_values digits) as [vs|] eqn:Hvs.
  - assert (Hrs : digit_values (rev digits) = Some (rev vs))
      by (rewrite digit_values_rev, Hvs; reflexivity).
    rewrite (verhoeff_loop_digits L _ _ 0 0 Hrs) by lia. cbn [bind].
    split; [discriminate|]. intros (_ & _ & _ & _ & _ & H). discriminate.
  - assert (Hrs : digit_values (rev digits) = None)
      by (rewrite digit_values_rev, Hvs; reflexivity).
    rewrite (verhoeff_loop_not_digits L _ 0 0 Hrs) by lia. cbn [bind].
    split.
    + intros H. injection H as <-. auto 10.
    + intros (-> & _). reflexivity.
Qed.

(** The theorem on twelve superscript twos, which [str.isdigit] accepts
    and [int] refuses. *)
Lemma validate_aadhaar_raises_exactly_witness :
  UnicodeLaws Latin1.db
  /\ @_validate_aadhaar Latin1.db (repeat 178%N 12) = Raise ValueError.
Proof.
  split; [exact latin1_laws|].
  apply (validate_aadhaar_raises_exactly Latin1.db latin1_laws).
  vm_compute. repeat split; congruence.
Defined.

(* ------------------------------------------------------------------ *)
(** ** The card number validator *)

Lemma luhn_weight_lt i n : n < 10 -> luhn_weight i n < 10.
Proof.
  intros Hn. unfold luhn_weight.
  destruct (i mod 2 =? 1); [|exact Hn].
  destruct (Nat.ltb_spec 9 (n * 2)); lia.
Qed.

Lemma luhn_weight_inj i n n' :
  n < 10 -> n' < 10 -> luhn_weight i n = luhn_weight i n' -> n = n'.
Proof.
  intros Hn Hn'. unfold luhn_weight.
  destruct (i mod 2 =? 1); [|auto].
  destruct (Nat.ltb_spec 9 (n * 2)), (Nat.ltb_spec 9 (n' * 2)); lia.
Qed.

Lemma luhn_weight_parity i n : luhn_weight i n = luhn_weight (i mod 2) n.
Proof. unfold luhn_weight. rewrite Nat.Div0.mod_mod. reflexivity. Qed.

Lemma luhn_sum_app l1 : forall i l2,
  luhn_sum i (l1 ++ l2) = luhn_sum i l1 + luhn_sum (i + length l1) l2.
Proof.
  induction l1 as [|n l1 IH]; intros i l2; cbn [app luhn_sum length].
  - rewrite Nat.add_0_r. reflexivity.
  - rewrite IH. replace (S i + length l1) with (i + S (length l1)) by lia. lia.
Qed.

Section LuhnFacts.
Context {U : UnicodeDB} (L : UnicodeLaws U) (D : DigitLaws U).

Lemma luhn_loop_digits ds : forall vs i total,
  digit_values ds = Some vs ->
  Validator.luhn_loop i total ds = Ok (total + luhn_sum i vs).
Proof.
  induction ds as [|c ds IH]; intros vs i total H; cbn [digit_values] in H.
  - injection H as <-. cbn. f_equal. lia.
  - destruct (char_int c) as [d|] eqn:Hc; [|discriminate].
    destruct (digit_values ds) as [vs'|] eqn:Hds; [|discriminate].
    injection H as <-. cbn [Validator.luhn_loop luhn_sum].
    unfold int_of_char. rewrite Hc. cbn [bind].
    rewrite (IH vs' (S i) _ eq_refl). f_equal. unfold luhn_weight. lia.
Qed.

Lemma luhn_loop_not_digits ds : forall i total,
  digit_values ds = None ->
  Validator.luhn_loop i total ds = Raise ValueError.
Proof.
  induction ds as [|c ds IH]; intros i total H; cbn [digit_values] in H;
    [discriminate|].
  cbn [Validator.luhn_loop]. unfold int_of_char.
  destruct (char_int c) as [d|] eqn:Hc; [|reflexivity]. cbn [bind].
  destruct (digit_values ds) as [vs'|] eqn:Hds; [discriminate|].
  apply IH. reflexivity.
Qed.

(** The answer on a string of decimal digits of an admissible length. *)
Lemma validate_credit_card_digits number vs :
  digit_values (strip_separators number) = Some vs ->
  13 <= length (strip_separators number) <= 19 ->
  Validator._validate_credit_card number
  = Ok (luhn_sum 0 (rev vs) mod 10 =? 0).
Proof.
  intros Hvs Hlen. unfold Validator._validate_credit_card.
  assert (Hne : strip_separators number <> []).
  { intros E. rewrite E in Hlen. cbn in Hlen. lia. }
  rewrite (str_isdigit_values L _ vs Hne Hvs).
  rewrite (proj2 (Nat.ltb_ge _ _)) by lia.
  rewrite (proj2 (Nat.ltb_ge _ _)) by lia. cbn [negb orb].
  assert (Hrs : digit_values (rev (strip_separators number)) = Some (rev vs))
    by (rewrite digit_values_rev, Hvs; reflexivity).
  rewrite (luhn_loop_digits _ _ 0 0 Hrs). reflexivity.
Qed.

(** What an accepted number is made of. *)
Lemma validate_credit_card_accepts number :
  Validator._validate_credit_card number = Ok true ->
  exists vs,
    digit_values (strip_separators number) = Some vs
    /\ 13 <= length (strip_separators number) <= 19
    /\ luhn_sum 0 (rev vs) mod 10 = 0.
Proof.
  unfold Validator._validate_credit_card. intros H.
  destruct (str_isdigit (strip_separators number)); [|discriminate].
  destruct (Nat.ltb_spec (length (strip_separators number)) 13);
    [discriminate|].
  destruct (Nat.ltb_spec 19 (length (strip_separators number)));
    [discriminate|].
  cbn [negb orb] in H.
  destruct (digit_values (rev (strip_separators number))) as [rs|] eqn:Hrs.
  - rewrite (luhn_loop_digits _ _ 0 0 Hrs) in H. cbn [bind] in H.
    injection H as H. apply Nat.eqb_eq in H.
    rewrite digit_values_rev in Hrs.
    destruct (digit_values (strip_separators number)) as [vs|];
      [|discriminate].
    cbn in Hrs. injection Hrs as <-. exists vs. auto.
  - rewrite (luhn_loop_not_digits _ 0 0 Hrs) in H. discriminate.
Qed.

End LuhnFacts.

Lemma luhn_single_digit va vb d d' :
  d < 10 -> d' < 10 -> d <> d' ->
  luhn_sum 0 (rev (vb ++ d :: va)) mod 10 = 0 ->
  luhn_sum 0 (rev (vb ++ d' :: va)) mod 10 <> 0.
Proof.
  intros Hd Hd' Hne.
  rewrite !rev_app_distr. cbn [rev]. rewrite <- !app_assoc. cbn [app].
  rewrite !luhn_sum_app. cbn [luhn_sum].
  set (i := 0 + length (rev va)).
  pose proof (luhn_weight_lt i d Hd) as Hw.
  pose proof (luhn_weight_lt i d' Hd') as Hw'.
  assert (Hdiff : luhn_weight i d <> luhn_weight i d')
    by (intros E; apply luhn_weight_inj in E; auto).
  generalize dependent (luhn_weight i d). intros w Hw Hdiff.
  generalize dependent (luhn_weight i d'). intros w' Hw' Hdiff.
  generalize (luhn_sum 0 (rev va)) (luhn_sum (S i) (rev vb)). intros a b H H'.
  apply Nat.Div0.mod_divides in H, H'.
  destruct H as [q H], H' as [q' H']. lia.
Qed.

Lemma mod10_shift t k1 k2 :
  k1 < 20 -> (t + k1) mod 10 = 0 ->
  ((t + k2) mod 10 =? 0) = ((k2 + 20 - k1) mod 10 =? 0).
Proof.
  intros Hk H.
  pose proof (Nat.div_mod_eq (t + k1) 10) as E0.
  pose proof (Nat.div_mod_eq (t + k2) 10) as E1.
  pose proof (Nat.mod_upper_bound (t + k2) 10) as B1.
  pose proof (Nat.div_mod_eq (k2 + 20 - k1) 10) as E2.
  pose proof (Nat.mod_upper_bound (k2 + 20 - k1) 10) as B2.
  destruct (Nat.eqb_spec ((t + k2) mod 10) 0),
           (Nat.eqb_spec ((k2 + 20 - k1) mod 10) 0); try reflexivity;
    exfalso; lia.
Qed.

Lemma luhn_transposition va vb d1 d2 :
  d1 < 10 -> d2 < 10 -> d1 <> d2 ->
  luhn_sum 0 (rev (vb ++ d1 :: d2 :: va)) mod 10 = 0 ->
  (luhn_sum 0 (rev (vb ++ d2 :: d1 :: va)) mod 10 =? 0)
  = ((d1 =? 0) && (d2 =? 9) || (d1 =? 9) && (d2 =? 0)).
Proof.
  intros H1 H2 Hne.
  rewrite !rev_app_distr. cbn [rev]. rewrite <- !app_assoc. cbn [app].
  rewrite !luhn_sum_app. cbn [luhn_sum].
  set (i := 0 + length (rev va)).
  rewrite (luhn_weight_parity i), (luhn_weight_parity (S i)).
  rewrite (luhn_weight_parity i d1), (luhn_weight_parity (S i) d2).
  assert (HS : S i mod 2 = S (i mod 2) mod 2).
  { change (S i) with (1 + i). change (S (i mod 2)) with (1 + i mod 2).
    rewrite Nat.Div0.add_mod_idemp_r. reflexivity. }
  rewrite HS.
  assert (Hp : i mod 2 < 2) by (apply Nat.mod_upper_bound; lia).
  generalize dependent (i mod 2). intros p _ Hp.
  generalize (luhn_sum 0 (rev va)) (luhn_sum (S (S i)) (rev vb)). intros a b.
  set (w := luhn_weight p d2 + luhn_weight (S p mod 2) d1).
  set (w' := luhn_weight p d1 + luhn_weight (S p mod 2) d2).
  intros H.
  replace (a + (luhn_weight p d2 + (luhn_weight (S p mod 2) d1 + b)))
    with ((a + b) + w) in H by (unfold w; lia).
  replace (a + (luhn_weight p d1 + (luhn_weight (S p mod 2) d2 + b)))
    with ((a + b) + w') by (unfold w'; lia).
  assert (Hw : w < 20).
  { unfold w. pose proof (luhn_weight_lt p d2 H2).
    pose proof (luhn_weight_lt (S p mod 2) d1 H1). lia. }
  rewrite (mod10_shift _ w w' Hw H). unfold w, w'.
  assert (T : forallb (fun p => forallb (fun d1 => forallb (fun d2 =>
                (d1 =? d2)
                || Bool.eqb
                     ((luhn_weight p d1 + luhn_weight (S p mod 2) d2 + 20
                       - (luhn_weight p d2 + luhn_weight (S p mod 2) d1))
                      mod 10 =? 0)
                     ((d1 =? 0) && (d2 =? 9) || (d1 =? 9) && (d2 =? 0)))
                (seq 0 10)) (seq 0 10)) (seq 0 2) = true)
    by (vm_compute; reflexivity).
  pose proof (below_forallb 2 _ p T Hp) as T1. cbv beta in T1.
  pose proof (below_forallb 10 _ d1 T1 H1) as T2. cbv beta in T2.
  pose proof (below_forallb 10 _ d2 T2 H2) as T3. cbv beta in T3.
  apply Nat.eqb_neq in Hne. rewrite Hne in T3. cbn [orb] in T3.
  apply Bool.eqb_prop in T3. exact T3.
Qed.

Section LuhnStrip.
Context {U : UnicodeDB} (L : UnicodeLaws U) (D : DigitLaws U).

Lemma strip_separators_digits s : forall vs,
  digit_values s = Some vs -> strip_separators s = s.
Proof.
  induction s as [|c s IH]; intros vs H; [reflexivity|].
  cbn [digit_values] in H.
  destruct (char_int c) as [d|] eqn:Hc; [|discriminate].
  destruct (digit_values s) as [vs'|] eqn:Hs; [|discriminate].
  rewrite (strip_separators_digit D _ _ _ Hc), (IH vs' eq_refl). reflexivity.
Qed.

End LuhnStrip.

(** X4. A wrong digit in a card number is always caught: when
    [_validate_credit_card] accepts a number, it rejects every number
    that differs from it in the value of one decimal digit. *)
Theorem credit_card_detects_single_digit_error
    (U : UnicodeDB) (L : UnicodeLaws U) (D : DigitLaws U)
    (before after : str) (c c' : char) (d d' : nat) :
  char_int c = Some d -> char_int c' = Some d' -> d <> d' ->
  Validator._validate_credit_card (before ++ c :: after) = Ok true ->
  Validator._validate_credit_card (before ++ c' :: after) = Ok false.
Proof.
  intros Hc Hc' Hne H.
  apply validate_credit_card_accepts in H.
  destruct H as (vs & Hvs & Hlen & Hsum).
  rewrite strip_separators_app, (strip_separators_digit D _ _ _ Hc) in Hvs, Hlen.
  apply digit_values_split in Hvs.
  destruct Hvs as (vb & d0 & va & Hb & Hc0 & Ha & ->).
  assert (d0 = d) by congruence. subst d0.
  rewrite (validate_credit_card_digits L _ (vb ++ d' :: va)).
  - f_equal. apply Nat.eqb_neq.
    apply (luhn_single_digit va vb d d'); try assumption.
    + exact (char_int_lt L Hc).
    + exact (char_int_lt L Hc').
  - rewrite strip_separators_app, (strip_separators_digit D _ _ _ Hc').
    apply digit_values_join; assumption.
  - rewrite strip_separators_app, (strip_separators_digit D _ _ _ Hc').
    rewrite length_app in *. exact Hlen.
Qed.

(** The theorem on 4111 1111 1111 1111 with one 1 misread as 7. *)
Lemma credit_card_detects_single_digit_error_witness :
  UnicodeLaws Latin1.db /\ DigitLaws Latin1.db
  /\ @Validator._validate_credit_card Latin1.db (py "4111 1111 1111 1111")
     = Ok true
  /\ @Validator._validate_credit_card Latin1.db (py "4111 1111 1171 1111")
     = Ok false.
Proof.
  assert (H : @Validator._validate_credit_card Latin1.db
                (py "4111 1111 1111 1111") = Ok true)
    by (vm_compute; reflexivity).
  assert (Hne : 1 <> 7) by discriminate.
  split; [exact latin1_laws|]. split; [exact latin1_digit_laws|].
  split; [exact H|].
  exact (credit_card_detects_single_digit_error Latin1.db latin1_laws
           latin1_digit_laws (py "4111 1111 11") (py "1 1111") 49%N 55%N 1 7
           eq_refl eq_refl Hne H).
Defined.

(** X5. The last digit of a card number is a check digit: for 12 to 18
    decimal digits there is one value [check] below ten such that
    [_validate_credit_card] accepts the digits followed by one more
    decimal digit if and only if that digit has the value [check]. *)
Theorem credit_card_check_digit
    (U : UnicodeDB) (L : UnicodeLaws U) (D : DigitLaws U)
    (body : str) (vs : list nat) :
  digit_values body = Some vs -> 12 <= length body <= 18 ->
  exists check,
    check < 10
    /\ forall c d,
         char_int c = Some d ->
         Validator._validate_credit_card (body ++ [c]) = Ok (d =? check).
Proof.
  intros Hvs Hlen.
  exists ((10 - luhn_sum 1 (rev vs) mod 10) mod 10).
  split; [apply Nat.mod_upper_bound; lia|].
  intros c d Hc.
  assert (Hall : digit_values (body ++ [c]) = Some (vs ++ [d])).
  { rewrite digit_values_app. cbn [digit_values]. rewrite Hvs, Hc.
    reflexivity. }
  rewrite (validate_credit_card_digits L _ (vs ++ [d])).
  - f_equal. rewrite rev_app_distr. cbn [rev app luhn_sum].
    change (luhn_weight 0 d) with d.
    pose proof (char_int_lt L Hc) as Hd.
    pose proof (Nat.div_mod_eq (luhn_sum 1 (rev vs)) 10) as E0.
    pose proof (Nat.mod_upper_bound (luhn_sum 1 (rev vs)) 10) as B0.
    generalize dependent (luhn_sum 1 (rev vs) / 10). intros q0.
    generalize dependent (luhn_sum 1 (rev vs) mod 10). intros r0.
    generalize (luhn_sum 1 (rev vs)). intros s B0 E0. subst s.
    pose proof (Nat.div_mod_eq (d + (10 * q0 + r0)) 10) as E1.
    pose proof (Nat.mod_upper_bound (d + (10 * q0 + r0)) 10) as B1.
    pose proof (Nat.div_mod_eq (10 - r0) 10) as E2.
    pose proof (Nat.mod_upper_bound (10 - r0) 10) as B2.
    destruct (Nat.eqb_spec ((d + (10 * q0 + r0)) mod 10) 0),
             (Nat.eqb_spec d ((10 - r0) mod 10)); try reflexivity;
      exfalso; lia.
  - rewrite (strip_separators_digits D _ _ Hall). exact Hall.
  - rewrite (strip_separators_digits D _ _ Hall), length_app. cbn. lia.
Qed.

(** The theorem on the fifteen digits 411111111111111. *)
Lemma credit_card_check_digit_witness :
  UnicodeLaws Latin1.db /\ DigitLaws Latin1.db
  /\ exists check,
       check < 10
       /\ forall c d,
            @char_int Latin1.db c = Some d ->
            @Validator._validate_credit_card Latin1.db
              (py "411111111111111" ++ [c])
            = Ok (d =? check).
Proof.
  split; [exact latin1_laws|]. split; [exact latin1_digit_laws|].
  apply (credit_card_check_digit Latin1.db latin1_laws latin1_digit_laws
           (py "411111111111111") (4 :: repeat 1 14)).
  - vm_compute. reflexivity.
  - vm_compute. split; repeat constructor.
Defined.

(** X6. The Luhn sum misses the exchange of a neighbouring 0 and 9, and
    no other: when [_validate_credit_card] accepts a number in which two
    different decimal digits stand side by side, it accepts the number
    with the two exchanged if they are 0 and 9, and rejects it
    otherwise. *)
Theorem credit_card_misses_only_swaps_of_0_and_9
    (U : UnicodeDB) (L : UnicodeLaws U) (D : DigitLaws U)
    (before after : str) (c1 c2 : char) (d1 d2 : nat) :
  char_int c1 = Some d1 -> char_int c2 = Some d2 -> d1 <> d2 ->
  Validator._validate_credit_card (before ++ c1 :: c2 :: after) = Ok true ->
  Validator._validate_credit_card (before ++ c2 :: c1 :: after)
  = Ok ((d1 =? 0) && (d2 =? 9) || (d1 =? 9) && (d2 =? 0)).
Proof.
  intros Hc1 Hc2 Hne H.
  apply validate_credit_card_accepts in H.
  destruct H as (vs & Hvs & Hlen & Hsum).
  rewrite strip_separators_app, (strip_separators_digit D _ _ _ Hc1),
    (strip_separators_digit D _ _ _ Hc2) in Hvs, Hlen.
  apply digit_values_split in Hvs.
  destruct Hvs as (vb & d0 & va' & Hb & Hc0 & Ha' & ->).
  assert (d0 = d1) by congruence. subst d0.
  cbn [digit_values] in Ha'. rewrite Hc2 in Ha'.
  destruct (digit_values (strip_separators after)) as [va|] eqn:Ha;
    [|discriminate].
  injection Ha' as <-.
  rewrite (validate_credit_card_digits L _ (vb ++ d2 :: d1 :: va)).
  - f_equal. apply luhn_transposition; try assumption.
    + exact (char_int_lt L Hc1).
    + exact (char_int_lt L Hc2).
  - rewrite strip_separators_app, (strip_separators_digit D _ _ _ Hc2),
      (strip_separators_digit D _ _ _ Hc1).
    rewrite digit_values_app. cbn [digit_values]. rewrite Hb, Hc1, Hc2, Ha.
    reflexivity.
  - rewrite strip_separators_app, (strip_separators_digit D _ _ _ Hc2),
      (strip_separators_digit D _ _ _ Hc1).
    rewrite length_app in *. exact Hlen.
Qed.

(** The theorem on 4111111111111111 with its first two digits exchanged,
    and on 4111111111110915 with 09 written 90. *)
Lemma credit_card_misses_only_swaps_of_0_and_9_witness :
  UnicodeLaws Latin1.db /\ DigitLaws Latin1.db
  /\ @Validator._validate_credit_card Latin1.db (py "4111111111111111")
     = Ok true
  /\ @Validator._validate_credit_card Latin1.db (py "1411111111111111")
     = Ok false
  /\ @Validator._validate_credit_card Latin1.db (py "4111111111110915")
     = Ok true
  /\ @Validator._validate_credit_card Latin1.db (py "4111111111119015")
     = Ok true.
Proof.
  assert (H : @Validator._validate_credit_card Latin1.db
                (py "4111111111111111") = Ok true)
    by (vm_compute; reflexivity).
  assert (H' : @Validator._validate_credit_card Latin1.db
                 (py "4111111111110915") = Ok true)
    by (vm_compute; reflexivity).
  assert (Hne : 4 <> 1) by discriminate.
  assert (Hne' : 0 <> 9) by discriminate.
  split; [exact latin1_laws|]. split; [exact latin1_digit_laws|].
  split; [exact H|]. split; [|split; [exact H'|]].
  - exact (credit_card_misses_only_swaps_of_0_and_9 Latin1.db latin1_laws
             latin1_digit_laws [] (py "11111111111111") 52%N 49%N 4 1
             eq_refl eq_refl Hne H).
  - exact (credit_card_misses_only_swaps_of_0_and_9 Latin1.db latin1_laws
             latin1_digit_laws (py "411111111111") (py "15") 48%N 57%N 0 9
             eq_refl eq_refl Hne' H').
Defined.

(* ------------------------------------------------------------------ *)
(** ** The mobile number validator *)

Lemma str_in_char (c : char) (s : str) :
  str_in [c] s = existsb (N.eqb c) s.
Proof.
  induction s as [|x s IH]; [reflexivity|].
  cbn [str_in startswith existsb]. rewrite IH, andb_true_r. reflexivity.
Qed.

(** X7. [_validate_mobile] returns on every input.  It removes one
    leading 91 after the separators, so it rejects every number of ten
    characters that begins with 91, and it accepts a number with the
    prefix 91 if and only if what follows are ten digits the first of
    which is 6, 7, 8 or 9; it decides a number without the prefix by the
    same test. *)
Theorem mobile_country_code (U : UnicodeDB) (number : str) :
  let digits := Validator.strip_dialling number in
  (exists answer, Validator._validate_mobile number = Ok answer)
  /\ (length digits = 10 -> startswith (py "91") digits = true ->
      Validator._validate_mobile number = Ok false)
  /\ (forall subscriber,
        digits = (py "91" ++ subscriber)%list ->
        Validator._validate_mobile number
        = Ok ((length subscriber =? 10)
              && existsb (fun c => existsb (N.eqb c) (py "6789"))
                         (firstn 1 subscriber)
              && forallb char_isdigit subscriber))
  /\ (startswith (py "91") digits = false ->
      Validator._validate_mobile number
      = Ok ((length digits =? 10)
            && existsb (fun c => existsb (N.eqb c) (py "6789"))
                       (firstn 1 digits)
            && forallb char_isdigit digits)).
Proof.
  intros digits.
  assert (G : forall local,
             (if negb (length local =? 10) then Ok false
              else first <- index local 0 ;;
                   Ok (str_in [first] (py "6789") && str_isdigit local))
             = Ok ((length local =? 10)
                   && existsb (fun c => existsb (N.eqb c) (py "6789"))
                              (firstn 1 local)
                   && forallb char_isdigit local)).
  { intros local. destruct (length local =? 10) eqn:E; [|reflexivity].
    destruct local as [|c rest]; [discriminate|].
    cbn [negb index nth_error bind firstn existsb andb orb].
    rewrite str_in_char, orb_false_r. reflexivity. }
  unfold Validator._validate_mobile. fold digits.
  repeat split.
  - rewrite G. eauto.
  - intros Hlen H91. rewrite H91, G, length_skipn, Hlen. reflexivity.
  - intros subscriber E. rewrite G, E. reflexivity.
  - intros H91. rewrite H91, G. reflexivity.
Qed.

(* ------------------------------------------------------------------ *)
(** ** The e-mail validator *)

Lemma existsb_eqb_In (c : char) (s : str) :
  existsb (N.eqb c) s = true <-> In c s.
Proof.
  rewrite existsb_exists. split.
  - intros (x & Hx & E). apply N.eqb_eq in E. subst. exact Hx.
  - intros H. exists c. split; [exact H|apply N.eqb_refl].
Qed.

Lemma split_char_not_nil sep s : Validator.split_char sep s <> [].
Proof.
  destruct s as [|c s]; cbn; [discriminate|].
  destruct (c =? sep)%N; [discriminate|].
  destruct (Validator.split_char sep s); discriminate.
Qed.

Lemma split_char_without sep s :
  ~ In sep s -> Validator.split_char sep s = [s].
Proof.
  induction s as [|c s IH]; intros H; [reflexivity|].
  cbn [Validator.split_char].
  destruct (N.eqb_spec c sep) as [->|_]; [exfalso; apply H; left; reflexivity|].
  rewrite IH by (intros Hs; apply H; right; exact Hs). reflexivity.
Qed.

Lemma split_char_at sep l r :
  ~ In sep l ->
  Validator.split_char sep (l ++ sep :: r) = l :: Validator.split_char sep r.
Proof.
  induction l as [|c l IH]; intros H; cbn [app Validator.split_char].
  - rewrite N.eqb_refl. reflexivity.
  - destruct (N.eqb_spec c sep) as [->|_];
      [exfalso; apply H; left; reflexivity|].
    rewrite IH by (intros Hs; apply H; right; exact Hs). reflexivity.
Qed.

Lemma split_char_with sep s :
  In sep s -> 2 <= length (Validator.split_char sep s).
Proof.
  induction s as [|c s IH]; intros H; [destruct H|].
  cbn [Validator.split_char].
  destruct (N.eqb_spec c sep) as [->|Hne].
  - pose proof (split_char_not_nil sep s).
    destruct (Validator.split_char sep s); [congruence|cbn; lia].
  - destruct H as [H|H]; [congruence|]. specialize (IH H).
    destruct (Validator.split_char sep s); [cbn in IH; lia|exact IH].
Qed.

Lemma first_occurrence {A} (dec : forall a b : A, {a = b} + {a <> b})
    (x : A) (s : list A) :
  In x s -> exists l r, s = l ++ x :: r /\ ~ In x l.
Proof.
  induction s as [|c s IH]; intros H; [destruct H|].
  destruct (dec c x) as [->|Hne].
  - exists [], s. split; [reflexivity|intros []].
  - destruct H as [H|H]; [congruence|].
    destruct (IH H) as (l & r & -> & Hl).
    exists (c :: l), r. split; [reflexivity|].
    intros [E|E]; [congruence|contradiction].
Qed.

Lemma first_occurrence_unique {A} (x : A) (l : list A) : forall l' r r',
  l ++ x :: r = l' ++ x :: r' -> ~ In x l -> ~ In x l' -> l = l' /\ r = r'.
Proof.
  induction l as [|c l IH]; intros l' r r' E Hl Hl'.
  - destruct l' as [|c' l']; cbn in E.
    + injection E as <-. auto.
    + injection E as <- _. exfalso. apply Hl'. left. reflexivity.
  - destruct l' as [|c' l']; cbn in E.
    + injection E as -> _. exfalso. apply Hl. left. reflexivity.
    + injection E as <- E.
      destruct (IH l' r r' E) as [-> ->].
      * intros H. apply Hl. right. exact H.
      * intros H. apply Hl'. right. exact H.
      * auto.
Qed.

(** X8. [_validate_email] returns on every input: its index [[1]] is
    never out of range.  It accepts exactly the strings that hold one
    [@] and a dot somewhere after it. *)
Theorem email_needs_exactly_one_at (email : str) :
  exists answer,
    Validator._validate_email email = Ok answer
    /\ (answer = true <->
        exists local_part domain,
          email = (local_part ++ 64%N :: domain)%list
          /\ ~ In 64%N local_part /\ ~ In 64%N domain /\ In 46%N domain).
Proof.
  unfold Validator._validate_email.
  change (py "@") with [64%N]. change (py ".") with [46%N].
  rewrite str_in_char.
  destruct (existsb (N.eqb 64%N) email) eqn:Hat; cbn [negb].
  2:{ exists false. split; [reflexivity|]. split; [discriminate|].
      intros (l & r & -> & _). exfalso.
      assert (H : existsb (N.eqb 64%N) (l ++ 64%N :: r) = true)
        by (apply existsb_eqb_In, in_or_app; right; left; reflexivity).
      congruence. }
  apply existsb_eqb_In in Hat.
  destruct (first_occurrence N.eq_dec _ _ Hat) as (l & r & -> & Hl).
  rewrite (split_char_at _ _ _ Hl).
  pose proof (split_char_not_nil 64%N r) as Hne.
  destruct (in_dec N.eq_dec 64%N r) as [Hr|Hr].
  - (* a second [@] *)
    pose proof (split_char_with _ _ Hr) as Hlen.
    destruct (Validator.split_char 64%N r) as [|part parts]; [congruence|].
    cbn [index nth_error bind length] in *.
    exists false. split.
    + destruct (str_in [46%N] part); cbn [negb]; [|reflexivity].
      f_equal. apply Nat.eqb_neq. lia.
    + split; [discriminate|].
      intros (l' & r' & E & Hl' & Hr' & _). exfalso.
      destruct (first_occurrence_unique _ _ _ _ _ E Hl Hl') as [_ ->].
      contradiction.
  - rewrite (split_char_without _ _ Hr).
    cbn [index nth_error bind length Nat.eqb]. rewrite str_in_char.
    exists (existsb (N.eqb 46%N) r). split.
    + destruct (existsb (N.eqb 46%N) r); reflexivity.
    + rewrite existsb_eqb_In. split.
      * intros Hdot. exists l, r. auto.
      * intros (l' & r' & E & Hl' & Hr' & Hdot).
        destruct (first_occurrence_unique _ _ _ _ _ E Hl Hl') as [_ ->].
        exact Hdot.
Qed.

(* ------------------------------------------------------------------ *)
(** ** The order of the confidences *)

Lemma SFcompare_rank (x y : spec_float) :
  x <> S754_nan -> y <> S754_nan ->
  (SFcompare x y = Some Lt <-> rank_lt (float_rank x) (float_rank y)).
Proof.
  intros Hx Hy.
  destruct x as [sx|sx| |sx mx ex], y as [sy|sy| |sy my ey];
    try congruence; cbn;
    try (destruct sx); try (destruct sy); cbn;
    try (split; [intros HH; (discriminate || lia) | intros HH; (reflexivity || lia)]).
  - change (Pos.compare_cont Eq mx my) with (Pos.compare mx my).
    destruct (Z.compare_spec ex ey), (Pos.compare_spec mx my); cbn;
      (split; [intros HH; (discriminate || lia) | intros HH; (reflexivity || lia)]).
  - change (Pos.compare_cont Eq mx my) with (Pos.compare mx my).
    destruct (Z.compare_spec ex ey), (Pos.compare_spec mx my); cbn;
      (split; [intros HH; (discriminate || lia) | intros HH; (reflexivity || lia)]).
Qed.

Lemma is_number_not_nan (c : float) :
  is_number c = true -> Prim2SF c <> S754_nan.
Proof.
  unfold is_number. rewrite eqb_spec. unfold SFeqb.
  intros H E. rewrite E in H. discriminate.
Qed.

Lemma float_ltb_number (a b : float) :
  (a <? b)%float = true -> is_number a = true /\ is_number b = true.
Proof.
  unfold is_number. rewrite ltb_spec, !eqb_spec. unfold SFltb, SFeqb.
  destruct (Prim2SF a) as [sx|sx| |sx mx ex] eqn:Ea,
           (Prim2SF b) as [sy|sy| |sy my ey] eqn:Eb; try discriminate;
    intros _; split;
    match goal with
    | |- context [SFcompare ?x ?x] =>
        destruct (SFcompare_refl x) as [-> | E]; [reflexivity|cbn in E]
    end; try discriminate; try (destruct sx; discriminate);
    try (destruct sy; discriminate).
Qed.

(** On numbers, "not below" is transitive. *)
Lemma float_not_below_trans (a b c : float) :
  is_number b = true ->
  (a <? b)%float = false -> (b <? c)%float = false -> (a <? c)%float = false.
Proof.
  intros Hb Hab Hbc.
  destruct (a <? c)%float eqn:Hac; [|reflexivity]. exfalso.
  destruct (float_ltb_number _ _ Hac) as [Ha Hc].
  apply is_number_not_nan in Ha, Hb, Hc.
  rewrite ltb_spec in Hab, Hbc, Hac. unfold SFltb in *.
  assert (Hac' : SFcompare (Prim2SF a) (Prim2SF c) = Some Lt)
    by (destruct (SFcompare (Prim2SF a) (Prim2SF c)) as [[]|]; congruence).
  apply (SFcompare_rank _ _ Ha Hc) in Hac'.
  assert (Hab' : ~ rank_lt (float_rank (Prim2SF a)) (float_rank (Prim2SF b))).
  { intros H. apply (SFcompare_rank _ _ Ha Hb) in H. rewrite H in Hab.
    discriminate. }
  assert (Hbc' : ~ rank_lt (float_rank (Prim2SF b)) (float_rank (Prim2SF c))).
  { intros H. apply (SFcompare_rank _ _ Hb Hc) in H. rewrite H in Hbc.
    discriminate. }
  destruct (float_rank (Prim2SF a)) as [[a1 a2] a3],
           (float_rank (Prim2SF b)) as [[b1 b2] b3],
           (float_rank (Prim2SF c)) as [[c1 c2] c3].
  unfold rank_lt in *. lia.
Qed.

Lemma float_ltb_leb (a b : float) :
  (a <? b)%float = true -> (a <=? b)%float = true.
Proof.
  rewrite ltb_spec, leb_spec. unfold SFltb, SFleb.
  destruct (SFcompare (Prim2SF a) (Prim2SF b)) as [[]|]; congruence.
Qed.

(* ------------------------------------------------------------------ *)
(** ** What the resolver keeps *)

Section StrongSortingFacts.
Context {A K : Type} (key : A -> K) (ltb : K -> K -> bool) (good : A -> Prop).
Hypothesis asym : forall a b, ltb a b = true -> ltb b a = false.
Hypothesis trans :
  forall a b c, good b ->
    ltb (key a) (key b) = false -> ltb (key b) (key c) = false ->
    ltb (key a) (key c) = false.

Lemma insert_desc_In x l z :
  In z (insert_desc key ltb x l) <-> z = x \/ In z l.
Proof.
  split.
  - intros H.
    apply (Permutation_in _ (insert_desc_permutation key ltb x l)) in H.
    destruct H as [H|H]; auto.
  - intros H.
    apply (Permutation_in _ (Permutation_sym
                               (insert_desc_permutation key ltb x l))).
    destruct H as [H|H]; [left; auto|right; exact H].
Qed.

Lemma insert_desc_strongly_sorted x l :
  Forall good l ->
  StronglySorted (not_below key ltb) l ->
  StronglySorted (not_below key ltb) (insert_desc key ltb x l).
Proof.
  induction l as [|y l IH]; intros Hgood Hs; cbn [insert_desc].
  - constructor; constructor.
  - inversion Hgood as [|? ? Hy Hl]; subst.
    inversion Hs as [|? ? Hs' Hall]; subst.
    destruct (ltb (key x) (key y)) eqn:E.
    + constructor; [apply IH; assumption|].
      apply Forall_forall. intros z Hz. apply insert_desc_In in Hz.
      destruct Hz as [->|Hz].
      * apply asym. exact E.
      * rewrite Forall_forall in Hall. apply Hall. exact Hz.
    + constructor; [exact Hs|].
      constructor; [exact E|].
      apply Forall_forall. intros z Hz.
      rewrite Forall_forall in Hall.
      exact (trans x y z Hy E (Hall z Hz)).
Qed.

Lemma sorted_reverse_strongly_sorted l :
  Forall good l ->
  StronglySorted (not_below key ltb) (sorted_reverse key ltb l).
Proof.
  induction l as [|x l IH]; intros Hgood; cbn; [constructor|].
  inversion Hgood; subst.
  apply insert_desc_strongly_sorted; [|apply IH; assumption].
  apply Forall_forall. intros z Hz.
  apply (Permutation_in _ (sorted_reverse_permutation key ltb l)) in Hz.
  rewrite Forall_forall in H2. apply H2. exact Hz.
Qed.

(** Sorting a sorted list changes nothing. *)
Lemma sorted_reverse_fixed l :
  Sorted (not_below key ltb) l -> sorted_reverse key ltb l = l.
Proof.
  induction l as [|x l IH]; intros Hs; [reflexivity|].
  inversion Hs as [|? ? Hs' Hhd]; subst.
  cbn [sorted_reverse fold_right]. fold (sorted_reverse key ltb l).
  rewrite (IH Hs'). destruct Hhd as [|y l' Hxy]; [reflexivity|].
  cbn [insert_desc]. unfold not_below in Hxy. rewrite Hxy. reflexivity.
Qed.

End StrongSortingFacts.

Lemma strongly_sorted_snoc {A} (R : A -> A -> Prop) l x :
  StronglySorted R l -> Forall (fun a => R a x) l ->
  StronglySorted R (l ++ [x]).
Proof.
  induction 1 as [|a l Hs IH Hall]; intros Hx; cbn.
  - constructor; constructor.
  - inversion Hx; subst. constructor; [apply IH; assumption|].
    apply Forall_app. split; [exact Hall|]. constructor; [assumption|constructor].
Qed.

Lemma is_overlapping_existsb m filtered :
  is_overlapping m filtered = existsb (overlaps m) filtered.
Proof.
  induction filtered as [|existing rest IH]; [reflexivity|].
  cbn [is_overlapping existsb]. unfold overlaps at 1.
  destruct ((start m <? end_ existing) && (start existing <? end_ m));
    [reflexivity|exact IH].
Qed.

Lemma remove_overlapping_loop matches :
  _remove_overlapping_matches matches
  = fold_left accept (sorted_reverse confidence PrimFloat.ltb matches) [].
Proof. destruct matches; reflexivity. Qed.

Lemma accept_loop_grows rest : forall filtered,
  exists suffix, fold_left accept rest filtered = filtered ++ suffix.
Proof.
  induction rest as [|x rest IH]; intros filtered; cbn [fold_left].
  - exists []. rewrite app_nil_r. reflexivity.
  - destruct (IH (accept filtered x)) as [suffix ->]. unfold accept.
    destruct (is_overlapping x filtered).
    + exists suffix. reflexivity.
    + exists (x :: suffix). rewrite <- app_assoc. reflexivity.
Qed.

Lemma accept_loop_dominates rest : forall filtered,
  StronglySorted (not_below confidence PrimFloat.ltb) rest ->
  (forall k m, In k filtered -> In m rest ->
               not_below confidence PrimFloat.ltb k m) ->
  forall m, In m rest ->
    In m (fold_left accept rest filtered)
    \/ exists kept,
         In kept (fold_left accept rest filtered)
         /\ overlaps m kept = true
         /\ (confidence kept <? confidence m)%float = false.
Proof.
  induction rest as [|x rest IH]; intros filtered Hs Hf m Hm; [destruct Hm|].
  inversion Hs as [|? ? Hs' Hall]; subst. cbn [fold_left].
  destruct (accept_loop_grows rest (accept filtered x)) as [suffix Hgrow].
  destruct Hm as [<-|Hm].
  - unfold accept in *. destruct (is_overlapping x filtered) eqn:E.
    + right. rewrite is_overlapping_existsb in E.
      apply existsb_exists in E. destruct E as (kept & Hk & Ho).
      exists kept. split; [rewrite Hgrow; apply in_or_app; left; exact Hk|].
      split; [exact Ho|]. apply Hf; [exact Hk|left; reflexivity].
    + left. rewrite Hgrow. apply in_or_app. left. apply in_or_app. right.
      left. reflexivity.
  - apply IH; [exact Hs'| |exact Hm].
    intros k m' Hk Hm'. unfold accept in Hk.
    rewrite Forall_forall in Hall.
    destruct (is_overlapping x filtered).
    + apply Hf; [exact Hk|right; exact Hm'].
    + apply in_app_or in Hk. destruct Hk as [Hk|[<-|[]]].
      * apply Hf; [exact Hk|right; exact Hm'].
      * apply Hall. exact Hm'.
Qed.

Lemma confidences_strongly_sorted matches :
  Forall (fun m => is_number (confidence m) = true) matches ->
  StronglySorted (not_below confidence PrimFloat.ltb)
    (sorted_reverse confidence PrimFloat.ltb matches).
Proof.
  apply (sorted_reverse_strongly_sorted confidence PrimFloat.ltb
           (fun m => is_number (confidence m) = true)).
  - exact float_ltb_asym.
  - intros a b c Hb. apply float_not_below_trans. exact Hb.
Qed.

(** X9. When no confidence is a NaN, every candidate
    [_remove_overlapping_matches] drops overlaps, by the test of the
    source, a candidate it keeps whose confidence is not lower. *)
Theorem resolver_drops_only_dominated (matches : list Detection) :
  Forall (fun m => is_number (confidence m) = true) matches ->
  forall m, In m matches ->
    In m (_remove_overlapping_matches matches)
    \/ exists kept,
         In kept (_remove_overlapping_matches matches)
         /\ overlaps m kept = true
         /\ (confidence kept <? confidence m)%float = false.
Proof.
  intros Hnum m Hm. rewrite remove_overlapping_loop.
  apply accept_loop_dominates.
  - apply confidences_strongly_sorted. exact Hnum.
  - intros k m' [].
  - apply (Permutation_in _ (Permutation_sym
             (sorted_reverse_permutation confidence PrimFloat.ltb matches))).
    exact Hm.
Qed.

(** The theorem on two overlapping candidates of confidence 0.9 and 1.0. *)
Lemma resolver_drops_only_dominated_witness :
  let matches := [Sample.detection 0 5 0.9; Sample.detection 3 8 1] in
  Forall (fun m => is_number (confidence m) = true) matches
  /\ _remove_overlapping_matches matches = [Sample.detection 3 8 1]
  /\ (In (Sample.detection 0 5 0.9) (_remove_overlapping_matches matches)
      \/ exists kept,
           In kept (_remove_overlapping_matches matches)
           /\ overlaps (Sample.detection 0 5 0.9) kept = true
           /\ (confidence kept <? confidence (Sample.detection 0 5 0.9))%float
              = false).
Proof.
  intros matches.
  assert (Hnum : Forall (fun m => is_number (confidence m) = true) matches)
    by (repeat constructor).
  split; [exact Hnum|]. split; [vm_compute; reflexivity|].
  exact (resolver_drops_only_dominated matches Hnum
           (Sample.detection 0 5 0.9) (or_introl eq_refl)).
Defined.

(** X10. The best candidate always survives: the result for a list that
    is not empty begins with a candidate of the list, and when no
    confidence is a NaN no candidate of the list has a higher
    confidence than it. *)
Theorem resolver_keeps_the_best (matches : list Detection) :
  matches <> [] ->
  exists top rest,
    _remove_overlapping_matches matches = top :: rest
    /\ In top matches
    /\ (Forall (fun m => is_number (confidence m) = true) matches ->
        forall m, In m matches ->
                  (confidence top <? confidence m)%float = false).
Proof.
  intros Hne. rewrite remove_overlapping_loop.
  pose proof (sorted_reverse_permutation confidence PrimFloat.ltb matches)
    as Hperm.
  destruct (sorted_reverse confidence PrimFloat.ltb matches)
    as [|top sorted_rest] eqn:Hsorted.
  { apply Permutation_nil in Hperm. congruence. }
  cbn [fold_left]. change (accept [] top) with [top].
  destruct (accept_loop_grows sorted_rest [top]) as [suffix ->].
  exists top, suffix. split; [reflexivity|]. split.
  - apply (Permutation_in _ Hperm). left. reflexivity.
  - intros Hnum m Hm.
    pose proof (confidences_strongly_sorted matches Hnum) as Hs.
    rewrite Hsorted in Hs. inversion Hs as [|? ? _ Hall]; subst.
    apply (Permutation_in _ (Permutation_sym Hperm)) in Hm.
    destruct Hm as [<-|Hm]; [apply float_ltb_irrefl|].
    rewrite Forall_forall in Hall. apply Hall. exact Hm.
Qed.

(** The theorem on the same two candidates. *)
Lemma resolver_keeps_the_best_witness :
  let matches := [Sample.detection 0 5 0.9; Sample.detection 3 8 1] in
  matches <> []
  /\ exists top rest,
       _remove_overlapping_matches matches = top :: rest
       /\ In top matches
       /\ (Forall (fun m => is_number (confidence m) = true) matches ->
           forall m, In m matches ->
                     (confidence top <? confidence m)%float = false).
Proof.
  intros matches.
  assert (Hne : matches <> []) by discriminate.
  split; [exact Hne|].
  exact (resolver_keeps_the_best matches Hne).
Defined.

Lemma accept_loop_sorted rest : forall filtered,
  StronglySorted (not_below confidence PrimFloat.ltb) rest ->
  StronglySorted (not_below confidence PrimFloat.ltb) filtered ->
  (forall k m, In k filtered -> In m rest ->
               not_below confidence PrimFloat.ltb k m) ->
  StronglySorted (not_below confidence PrimFloat.ltb)
    (fold_left accept rest filtered).
Proof.
  induction rest as [|x rest IH]; intros filtered Hs Hfs Hf; [exact Hfs|].
  inversion Hs as [|? ? Hs' Hall]; subst. cbn [fold_left].
  rewrite Forall_forall in Hall.
  apply IH; [exact Hs'| |]; unfold accept;
    destruct (is_overlapping x filtered).
  - exact Hfs.
  - apply strongly_sorted_snoc; [exact Hfs|].
    apply Forall_forall. intros k Hk. apply Hf; [exact Hk|left; reflexivity].
  - intros k m Hk Hm. apply Hf; [exact Hk|right; exact Hm].
  - intros k m Hk Hm. apply in_app_or in Hk. destruct Hk as [Hk|[<-|[]]].
    + apply Hf; [exact Hk|right; exact Hm].
    + apply Hall. exact Hm.
Qed.

Lemma accept_loop_fixed rest : forall filtered,
  fold_left accept filtered [] = filtered ->
  fold_left accept (fold_left accept rest filtered) []
  = fold_left accept rest filtered.
Proof.
  induction rest as [|x rest IH]; intros filtered Hfix; [exact Hfix|].
  cbn [fold_left]. apply IH.
  assert (Hstep : accept filtered x
                  = if is_overlapping x filtered then filtered
                    else filtered ++ [x]) by reflexivity.
  rewrite Hstep.
  destruct (is_overlapping x filtered) eqn:E; [exact Hfix|].
  rewrite fold_left_app, Hfix. cbn [fold_left]. unfold accept. rewrite E.
  reflexivity.
Qed.

(** X11. Resolving a resolved list changes nothing: when no confidence
    is a NaN, [_remove_overlapping_matches] returns its own result
    unchanged. *)
Theorem resolver_is_idempotent (matches : list Detection) :
  Forall (fun m => is_number (confidence m) = true) matches ->
  _remove_overlapping_matches (_remove_overlapping_matches matches)
  = _remove_overlapping_matches matches.
Proof.
  intros Hnum.
  rewrite (remove_overlapping_loop (_remove_overlapping_matches matches)).
  rewrite (remove_overlapping_loop matches).
  rewrite (sorted_reverse_fixed confidence PrimFloat.ltb).
  - apply accept_loop_fixed. reflexivity.
  - apply StronglySorted_Sorted. apply accept_loop_sorted.
    + apply confidences_strongly_sorted. exact Hnum.
    + constructor.
    + intros k m [].
Qed.

(** The theorem on the same two candidates. *)
Lemma resolver_is_idempotent_witness :
  let matches := [Sample.detection 0 5 0.9; Sample.detection 3 8 1] in
  Forall (fun m => is_number (confidence m) = true) matches
  /\ _remove_overlapping_matches (_remove_overlapping_matches matches)
     = _remove_overlapping_matches matches.
Proof.
  intros matches.
  assert (Hnum : Forall (fun m => is_number (confidence m) = true) matches)
    by (repeat constructor).
  split; [exact Hnum|].
  exact (resolver_is_idempotent matches Hnum).
Defined.

(* ------------------------------------------------------------------ *)
(** ** The scorer and the tiers *)

Lemma filter_length_mono {A} (f g : A -> bool) (l : list A) :
  (forall x, In x l -> f x = true -> g x = true) ->
  length (filter f l) <= length (filter g l).
Proof.
  induction l as [|x l IH]; intros H; [reflexivity|]. cbn [filter].
  assert (IH' : length (filter f l) <= length (filter g l))
    by (apply IH; intros y Hy; apply H; right; exact Hy).
  destruct (f x) eqn:Ef.
  - rewrite (H x (or_introl eq_refl) Ef). cbn. lia.
  - destruct (g x); cbn; lia.
Qed.

Lemma score_after_monotone k k' :
  k <= k' -> k' <= 10 ->
  (score_after k <=? score_after k')%float = true.
Proof.
  intros Hle Hk'. rewrite !score_after_values by lia.
  destruct k as [|[|k]], k' as [|[|k']]; try (exfalso; lia);
    vm_compute; reflexivity.
Qed.

(** X12. More keywords never lower the score: when every keyword of the
    category that occurs in the window of one span occurs in the window
    of another, the context score of the first is at most that of the
    second. *)
Theorem context_score_is_monotone
    (U : UnicodeDB) (self : AdvancedPIIRedactor)
    (text1 : str) (start1 end1 : nat) (text2 : str) (start2 end2 : nat)
    (pii_type : str) :
  self_context_keywords self = _load_context_keywords ->
  (forall keyword,
     In keyword (get_or_empty _load_context_keywords pii_type) ->
     str_in keyword (context_text_of self text1 start1 end1) = true ->
     str_in keyword (context_text_of self text2 start2 end2) = true) ->
  (_calculate_context_score self text1 start1 end1 pii_type
   <=? _calculate_context_score self text2 start2 end2 pii_type)%float = true.
Proof.
  intros Hkw Hsub. rewrite !context_score_hits.
  apply score_after_monotone.
  - unfold keywords_present. rewrite Hkw. apply filter_length_mono. exact Hsub.
  - apply keywords_present_bound. exact Hkw.
Qed.

(** The theorem on a mobile number after "call" and after "Mobile". *)
Lemma context_score_is_monotone_witness :
  self_context_keywords Sample.redactor = _load_context_keywords
  /\ @_calculate_context_score Latin1.db Sample.redactor
       (py "call 9876543210") 5 15 (py "MOBILE") = 0.7%float
  /\ @_calculate_context_score Latin1.db Sample.redactor
       (py "Mobile 9876543210") 7 17 (py "MOBILE") = (0.7 + 0.2)%float
  /\ (@_calculate_context_score Latin1.db Sample.redactor
        (py "call 9876543210") 5 15 (py "MOBILE")
      <=? @_calculate_context_score Latin1.db Sample.redactor
            (py "Mobile 9876543210") 7 17 (py "MOBILE"))%float = true.
Proof.
  split; [reflexivity|]. split; [vm_compute; reflexivity|].
  split; [vm_compute; reflexivity|].
  apply (context_score_is_monotone Latin1.db Sample.redactor
           (py "call 9876543210") 5 15 (py "Mobile 9876543210") 7 17
           (py "MOBILE") eq_refl).
  intros keyword Hin.
  vm_compute in Hin.
  repeat (destruct Hin as [<-|Hin]; [vm_compute; congruence|]).
  destruct Hin.
Defined.

Section TierFacts.
Context {U : UnicodeDB} {V : Validators}.

Lemma tier_confidence config k :
  (priority config = Some 1%Z \/ priority config = Some 2%Z
   \/ priority config = Some 3%Z) ->
  k <= 10 ->
  final_confidence_of config (score_after k)
  = match priority config, k with
    | Some 1%Z, _ => 1
    | Some 2%Z, 0 => 0.7 + 0.2
    | Some 2%Z, _ => 1
    | _, 0 => 0.7 + 0.1
    | _, 1 => 0.7 + 0.2 + 0.1
    | _, _ => 1
    end%float.
Proof.
  intros Hp Hk. unfold final_confidence_of, priority_or_default.
  destruct Hp as [-> | [-> | ->]];
    do 11 (destruct k as [|k]; [vm_compute; reflexivity|]); exfalso; lia.
Qed.

End TierFacts.

(** X13. The confidence of a match of a category of the registry is
    fixed by the tier of the category and by how many of its keywords
    occur in the window: 1.0 in tier 1; [0.7 + 0.2] or 1.0 in tier 2;
    [0.7 + 0.1], [0.7 + 0.2 + 0.1] or 1.0 in tier 3.  So a threshold
    below 1.0 never rejects a match of a tier-1 category: it is emitted
    with confidence 1.0 if and only if its validator passes. *)
Theorem confidence_by_tier_and_keywords
    (U : UnicodeDB) (V : Validators)
    (self : AdvancedPIIRedactor) (text pii_type : str)
    (config : PatternConfig) (pattern : str) (m : MatchObject) :
  self_context_keywords self = _load_context_keywords ->
  In (pii_type, config) _get_comprehensive_patterns ->
  let match_start := fst (match_span m) in
  let match_end := snd (match_span m) in
  let final :=
    final_confidence_of config
      (_calculate_context_score self text match_start match_end pii_type) in
  final
  = match priority config,
          keywords_present self text match_start match_end pii_type with
    | Some 1%Z, _ => 1
    | Some 2%Z, 0 => 0.7 + 0.2
    | Some 2%Z, _ => 1
    | _, 0 => 0.7 + 0.1
    | _, 1 => 0.7 + 0.2 + 0.1
    | _, _ => 1
    end%float
  /\ (priority config = Some 1%Z ->
      (confidence_threshold (self_config self) <? 1)%float = true ->
      forall is_valid,
        run_validation config (substr text match_start match_end)
        = Ok is_valid ->
        scan_match self text pii_type config pattern m
        = Ok (if is_valid
              then Some {| text := substr text match_start match_end;
                           start := match_start; end_ := match_end;
                           confidence := 1; pattern := Some pattern |}
              else None)).
Proof.
  intros Hkw Hin match_start match_end final.
  destruct (registry_entry pii_type config Hin) as [Hp _].
  assert (Hfinal : final
                   = match priority config,
                           keywords_present self text match_start match_end
                             pii_type with
                     | Some 1%Z, _ => 1
                     | Some 2%Z, 0 => 0.7 + 0.2
                     | Some 2%Z, _ => 1
                     | _, 0 => 0.7 + 0.1
                     | _, 1 => 0.7 + 0.2 + 0.1
                     | _, _ => 1
                     end%float).
  { unfold final. rewrite context_score_hits. apply tier_confidence.
    - exact Hp.
    - apply keywords_present_bound. exact Hkw. }
  split; [exact Hfinal|].
  intros Hone Hthr is_valid Hval.
  rewrite Hone in Hfinal.
  unfold scan_match. fold match_start match_end. rewrite Hval. cbn [bind].
  fold final. rewrite Hfinal, Hthr. rewrite andb_true_r.
  destruct is_valid; reflexivity.
Qed.

(** The theorem on an Aadhaar number with no keyword near it. *)
Lemma confidence_by_tier_and_keywords_witness :
  self_context_keywords Sample.redactor = _load_context_keywords
  /\ In (py "AADHAAR", Sample.aadhaar_config)
        (@_get_comprehensive_patterns Latin1.db Sample.accept_all)
  /\ final_confidence_of Sample.aadhaar_config
       (@_calculate_context_score Latin1.db Sample.redactor
          (py "no 1234 5678 9010") 3 17 (py "AADHAAR")) = 1%float.
Proof.
  split; [reflexivity|]. split; [left; reflexivity|].
  exact (proj1 (confidence_by_tier_and_keywords Latin1.db Sample.accept_all
                  Sample.redactor (py "no 1234 5678 9010")
                  (py "AADHAAR") Sample.aadhaar_config (py "\b\d{12}\b")
                  {| m_span := (3, 17); m_groups := [] |}
                  eq_refl (or_introl eq_refl))).
Defined.

(* ------------------------------------------------------------------ *)
(** ** What the detected dictionary holds *)

Section RefinementFacts.
Context {U : UnicodeDB}.

Lemma refine_loop_get (items : dict (list Detection)) :
  forall refined k,
    wf items ->
    (forall k, In k (keys items) -> get refined k = None) ->
    get (fold_left
           (fun refined_pii (item : str * list Detection) =>
              let (pii_type, matches) := item in
              let refined_matches := filter (keeps pii_type) matches in
              match refined_matches with
              | [] => refined_pii
              | _ => set refined_pii pii_type refined_matches
              end)
           items refined) k
    = match get refined k with
      | Some l => Some l
      | None =>
          match get items k with
          | Some l =>
              match filter (keeps k) l with
              | [] => None
              | l' => Some l'
              end
          | None => None
          end
      end.
Proof.
  induction items as [|[p ms] items IH]; intros refined k Hwf Hfresh.
  - cbn. destruct (get refined k); reflexivity.
  - cbn [fold_left]. unfold wf in Hwf. cbn [keys List.map fst] in Hwf.
    inversion Hwf as [|? ? Hp Hrest]; subst.
    assert (Hp' : get items p = None) by (apply get_None_keys; exact Hp).
    assert (Hrp : get refined p = None)
      by (apply Hfresh; left; reflexivity).
    rewrite IH; [|exact Hrest|].
    + cbn [get]. destruct (str_eqb k p) eqn:E.
      * apply str_eqb_eq in E. subst k. rewrite Hrp.
        destruct (filter (keeps p) ms) as [|m ms'] eqn:Ef.
        -- rewrite Hrp, Hp'. reflexivity.
        -- rewrite get_set_same. reflexivity.
      * apply str_eqb_neq in E.
        destruct (filter (keeps p) ms) as [|m ms'] eqn:Ef; [reflexivity|].
        rewrite get_set_other by congruence. reflexivity.
    + intros k' Hk'.
      assert (Hne : p <> k') by (intros ->; contradiction).
      destruct (filter (keeps p) ms) as [|m ms'] eqn:Ef.
      * apply Hfresh. right. exact Hk'.
      * rewrite get_set_other by exact Hne. apply Hfresh. right. exact Hk'.
Qed.

Lemma refine_detections_get detected_pii text k :
  wf detected_pii ->
  get (_refine_detections detected_pii text) k
  = match get detected_pii k with
    | Some l =>
        match filter (keeps k) l with
        | [] => None
        | l' => Some l'
        end
    | None => None
    end.
Proof.
  intros Hwf. unfold _refine_detections.
  rewrite refine_loop_get; [reflexivity|exact Hwf|reflexivity].
Qed.

Lemma refine_detections_nonempty detected_pii text k l :
  In (k, l) (_refine_detections detected_pii text) -> l <> [].
Proof.
  unfold _refine_detections.
  assert (H : forall items refined,
             (forall k l, In (k, l) refined -> l <> []) ->
             forall k l,
               In (k, l)
                 (fold_left
                    (fun refined_pii (item : str * list Detection) =>
                       let (pii_type, matches) := item in
                       let refined_matches := filter (keeps pii_type) matches in
                       match refined_matches with
                       | [] => refined_pii
                       | _ => set refined_pii pii_type refined_matches
                       end)
                    items refined) ->
               l <> []).
  { induction items as [|[p ms] items IH]; intros refined Hinv k' l';
      [apply Hinv|].
    cbn [fold_left]. apply IH. intros k0 l0 Hin.
    destruct (filter (keeps p) ms) eqn:E; [exact (Hinv _ _ Hin)|].
    apply In_set in Hin. destruct Hin as [[-> ->]|Hin];
      [discriminate|exact (Hinv _ _ Hin)]. }
  apply H. intros ? ? [].
Qed.

Lemma keeps_other_categories pii_type m :
  ~ In pii_type refined_categories -> keeps pii_type m = true.
Proof.
  intros Hk. unfold keeps, _is_false_positive.
  assert (Hna : str_mem pii_type [py "NAME"; py "ADDRESS"] = false).
  { destruct (str_mem pii_type [py "NAME"; py "ADDRESS"]) eqn:E;
      [|reflexivity].
    apply str_mem_In in E. exfalso. apply Hk.
    destruct E as [<-|[<-|[]]]; cbn; auto. }
  rewrite Hna. cbn [andb].
  assert (Hfp : get false_positives pii_type = None).
  { apply get_None_keys. intros Hin. apply Hk.
    cbn in Hin. cbn. tauto. }
  unfold get_or_empty. rewrite Hfp. reflexivity.
Qed.

End RefinementFacts.

(** X14. [_refine_detections] filters and does nothing else: under
    every key the refined list is the given list without the detections
    its loop skips, a key stays if and only if a detection of it
    remains, and the lists of the categories other than NAME, MOBILE,
    EMAIL and ADDRESS are unchanged. *)
Theorem refinement_only_filters
    (U : UnicodeDB) (detected_pii : dict (list Detection)) (text : str) :
  wf detected_pii ->
  forall pii_type,
    get_or_empty (_refine_detections detected_pii text) pii_type
    = filter (keeps pii_type) (get_or_empty detected_pii pii_type)
    /\ (mem (_refine_detections detected_pii text) pii_type = true <->
        filter (keeps pii_type) (get_or_empty detected_pii pii_type) <> [])
    /\ (~ In pii_type refined_categories ->
        get_or_empty (_refine_detections detected_pii text) pii_type
        = get_or_empty detected_pii pii_type).
Proof.
  intros Hwf pii_type.
  assert (H1 : get_or_empty (_refine_detections detected_pii text) pii_type
               = filter (keeps pii_type) (get_or_empty detected_pii pii_type)).
  { unfold get_or_empty. rewrite (refine_detections_get _ _ _ Hwf).
    destruct (get detected_pii pii_type) as [l|]; [|reflexivity].
    destruct (filter (keeps pii_type) l); reflexivity. }
  split; [exact H1|]. split.
  - rewrite <- H1. unfold mem, get_or_empty.
    destruct (get (_refine_detections detected_pii text) pii_type) as [l|]
      eqn:E.
    + apply get_Some_In, refine_detections_nonempty in E. tauto.
    + split; [discriminate|congruence].
  - intros Hk. rewrite H1. apply forallb_filter_id.
    apply forallb_forall. intros m _. apply keeps_other_categories. exact Hk.
Qed.

(** The theorem on the placeholder 9999999999 beside a mobile number. *)
Lemma refinement_only_filters_witness :
  let detected_pii :=
    [ (py "MOBILE", [ {| text := py "9999999999"; start := 0; end_ := 10;
                         confidence := 1; pattern := None |};
                      {| text := py "9876543210"; start := 11; end_ := 21;
                         confidence := 1; pattern := None |} ]) ] in
  wf detected_pii
  /\ @_refine_detections Latin1.db detected_pii (py "9999999999 9876543210")
     = [ (py "MOBILE", [ {| text := py "9876543210"; start := 11; end_ := 21;
                            confidence := 1; pattern := None |} ]) ]
  /\ get_or_empty
       (@_refine_detections Latin1.db detected_pii
          (py "9999999999 9876543210")) (py "MOBILE")
     = filter (@keeps Latin1.db (py "MOBILE"))
         (get_or_empty detected_pii (py "MOBILE")).
Proof.
  intros detected_pii.
  assert (Hwf : wf detected_pii) by (repeat constructor; intros []).
  split; [exact Hwf|]. split; [vm_compute; reflexivity|].
  exact (proj1 (refinement_only_filters Latin1.db detected_pii
                  (py "9999999999 9876543210") Hwf (py "MOBILE"))).
Defined.

Section OriginFacts.
Context {U : UnicodeDB} {V : Validators} {R : RegexEngine}.

Lemma detected_by_patterns_origin self text k l :
  In (k, l) (detected_by_patterns self text) ->
  exists config,
    In (k, config) (self_patterns self)
    /\ l = _remove_overlapping_matches (candidates self text k config).
Proof.
  unfold detected_by_patterns.
  assert (H : forall items detected,
             (forall item, In item items -> In item (self_patterns self)) ->
             (forall k l, In (k, l) detected ->
                exists config,
                  In (k, config) (self_patterns self)
                  /\ l = _remove_overlapping_matches
                           (candidates self text k config)) ->
             forall k l,
               In (k, l)
                 (fold_left
                    (fun detected_pii (item : str * PatternConfig) =>
                       match candidates self text (fst item) (snd item) with
                       | [] => detected_pii
                       | _ :: _ =>
                           set detected_pii (fst item)
                             (_remove_overlapping_matches
                                (candidates self text (fst item) (snd item)))
                       end)
                    items detected) ->
               exists config,
                 In (k, config) (self_patterns self)
                 /\ l = _remove_overlapping_matches
                          (candidates self text k config)).
  { induction items as [|[pii_type config] items IH];
      intros detected Hsub Hinv k' l'; [apply Hinv|].
    cbn [fold_left fst snd]. apply IH.
    - intros item Hitem. apply Hsub. right. exact Hitem.
    - intros k0 l0 Hin.
      destruct (candidates self text pii_type config) eqn:E;
        [exact (Hinv _ _ Hin)|].
      apply In_set in Hin. destruct Hin as [[-> ->]|Hin];
        [|exact (Hinv _ _ Hin)].
      exists config. split; [apply Hsub; left; reflexivity|].
      rewrite E. reflexivity. }
  apply H; [auto|intros ? ? []].
Qed.

Lemma detected_by_patterns_wf self text : wf (detected_by_patterns self text).
Proof.
  unfold detected_by_patterns.
  assert (H : forall items detected,
             wf detected ->
             wf (fold_left
                   (fun detected_pii (item : str * PatternConfig) =>
                      match candidates self text (fst item) (snd item) with
                      | [] => detected_pii
                      | _ :: _ =>
                          set detected_pii (fst item)
                            (_remove_overlapping_matches
                               (candidates self text (fst item) (snd item)))
                      end)
                   items detected)).
  { induction items as [|item items IH]; intros detected Hwf; [exact Hwf|].
    cbn [fold_left]. apply IH.
    destruct (candidates self text (fst item) (snd item));
      [exact Hwf|apply wf_set; exact Hwf]. }
  apply H. constructor.
Qed.

Lemma detected_by_nlp_wf self text : wf (detected_by_nlp self text).
Proof.
  unfold detected_by_nlp. destruct (self_nlp self) as [model|];
    [|constructor].
  destruct (model text) as [ents|];
    [apply (collect_entities_spec ents)|constructor].
Qed.

Lemma candidate_of_shape self text pii_type config pat m d :
  In d (candidate_of self text pii_type config pat m) ->
  d = {| text := substr text (fst (match_span m)) (snd (match_span m));
         start := fst (match_span m); end_ := snd (match_span m);
         confidence :=
           final_confidence_of config
             (_calculate_context_score self text (fst (match_span m))
                (snd (match_span m)) pii_type);
         pattern := Some pat |}
  /\ validator_passed config
       (substr text (fst (match_span m)) (snd (match_span m))) = true
  /\ (confidence_threshold (self_config self)
      <? final_confidence_of config
           (_calculate_context_score self text (fst (match_span m))
              (snd (match_span m)) pii_type))%float = true.
Proof.
  unfold candidate_of, match_span, final_confidence_of, priority_or_default.
  destruct (match m_groups m with g :: _ => g | [] => m_span m end)
    as [s e]. cbn [fst snd].
  destruct (validator_passed config (substr text s e)); cbn [andb];
    [|intros []].
  destruct (confidence_threshold (self_config self) <? _)%float eqn:E;
    [|intros []].
  intros [<-|[]]. auto.
Qed.

End OriginFacts.

Lemma py_min_le_one (x : float) : (py_min 1 x <=? 1)%float = true.
Proof.
  unfold py_min. destruct (x <? 1)%float eqn:E.
  - apply float_ltb_leb. exact E.
  - vm_compute. reflexivity.
Qed.

(** X15. Every detection [detect_pii] lists under a category of the
    registry comes from a match of a pattern of that category: its
    offsets are those of the match, its text is the text between them,
    its validator passed on that text, and its confidence is above the
    threshold and at most 1.0. *)
Theorem pattern_detections_are_validated_slices
    (U : UnicodeDB) (V : Validators) (R : RegexEngine)
    (self : AdvancedPIIRedactor) (text : str)
    (detected_pii : dict (list Detection)) :
  self_patterns self = _get_comprehensive_patterns ->
  detect_pii self (Some text) = Ok detected_pii ->
  forall pii_type matches d,
    In pii_type (keys _get_comprehensive_patterns) ->
    get detected_pii pii_type = Some matches -> In d matches ->
    exists config pat m,
      In (pii_type, config) _get_comprehensive_patterns
      /\ In pat (patterns config) /\ In m (finditer pat text)
      /\ d = {| text := substr text (start d) (end_ d);
                start := fst (match_span m); end_ := snd (match_span m);
                confidence := confidence d; pattern := Some pat |}
      /\ validator_passed config (substr text (start d) (end_ d)) = true
      /\ (confidence_threshold (self_config self) <? confidence d)%float
         = true
      /\ (confidence d <=? 1)%float = true.
Proof.
  intros Hreg Hdet pii_type matches d Hk Hget Hd.
  apply get_Some_In in Hget.
  destruct text as [|c text'].
  { injection Hdet as <-. destruct Hget. }
  rewrite detect_pii_stages in Hdet by discriminate. injection Hdet as <-.
  apply refine_detections_entries in Hget.
  destruct Hget as (l0 & Hin & ->).
  apply filter_In in Hd. destruct Hd as [Hd _].
  rewrite (merged_detections self _ Hreg) in Hin.
  apply in_app_or in Hin. destruct Hin as [Hin|Hin].
  2:{ exfalso. apply detected_by_nlp_entries in Hin.
      exact (registry_keys_not_nlp pii_type Hk (proj1 Hin)). }
  apply detected_by_patterns_origin in Hin.
  destruct Hin as (config & Hc & ->).
  apply remove_overlapping_subset in Hd.
  unfold candidates in Hd.
  apply in_flat_map in Hd. destruct Hd as (pat & Hpat & Hd).
  apply in_flat_map in Hd. destruct Hd as (m & Hm & Hd).
  apply candidate_of_shape in Hd. destruct Hd as (Hshape & Hvalid & Hthr).
  exists config, pat, m. rewrite <- Hreg.
  split; [exact Hc|]. split; [exact Hpat|]. split; [exact Hm|].
  rewrite Hshape. cbn [start end_ confidence].
  split; [reflexivity|]. split; [exact Hvalid|]. split; [exact Hthr|].
  apply py_min_le_one.
Qed.

(** The theorem on "Aadhaar: 1234 5678 9010". *)
Lemma pattern_detections_are_validated_slices_witness :
  let text := py "Aadhaar: 1234 5678 9010" in
  let d := {| text := py "1234 5678 9010"; start := 9; end_ := 23;
              confidence := 1;
              pattern := Some (py "\b\d{4}[-\s]?\d{4}[-\s]?\d{4}\b") |} in
  self_patterns Sample.redactor
  = @_get_comprehensive_patterns Latin1.db Sample.accept_all
  /\ @detect_pii Latin1.db Fixture.aadhaar_engine Sample.redactor (Some text)
     = Ok [ (py "AADHAAR", [d]) ]
  /\ exists config pat m,
       In (py "AADHAAR", config)
          (@_get_comprehensive_patterns Latin1.db Sample.accept_all)
       /\ In pat (patterns config)
       /\ In m (@finditer Fixture.aadhaar_engine pat text)
       /\ d = {| text := substr text (start d) (end_ d);
                 start := fst (match_span m); end_ := snd (match_span m);
                 confidence := confidence d; pattern := Some pat |}
       /\ validator_passed config (substr text (start d) (end_ d)) = true
       /\ (confidence_threshold (self_config Sample.redactor)
           <? confidence d)%float = true
       /\ (confidence d <=? 1)%float = true.
Proof.
  intros text d.
  assert (Hd : @detect_pii Latin1.db Fixture.aadhaar_engine Sample.redactor
                 (Some text) = Ok [ (py "AADHAAR", [d]) ])
    by (vm_compute; reflexivity).
  split; [reflexivity|]. split; [exact Hd|].
  refine (pattern_detections_are_validated_slices Latin1.db Sample.accept_all
            Fixture.aadhaar_engine Sample.redactor text _ eq_refl Hd
            (py "AADHAAR") [d] d _ _ (or_introl eq_refl)).
  - left. reflexivity.
  - vm_compute. reflexivity.
Defined.

(** X16. When the engine and the model report spans of the text they
    are given, every detection [detect_pii] returns has
    [start <= end <= len(text)]. *)
Theorem detected_spans_lie_inside_the_text
    (U : UnicodeDB) (R : RegexEngine)
    (self : AdvancedPIIRedactor) (text : str)
    (detected_pii : dict (list Detection)) :
  engine_in_bounds text -> model_in_bounds self text ->
  detect_pii self (Some text) = Ok detected_pii ->
  forall pii_type matches d,
    get detected_pii pii_type = Some matches -> In d matches ->
    start d <= end_ d <= length text.
Proof.
  intros He Hm Hdet pii_type matches d Hget Hd.
  apply get_Some_In in Hget.
  pose proof (detect_pii_in_bounds self text detected_pii He Hm Hdet
                pii_type matches Hget) as H.
  rewrite Forall_forall in H. exact (H d Hd).
Qed.

(** The theorem on "Aadhaar: 1234 5678 9010". *)
Lemma detected_spans_lie_inside_the_text_witness :
  let text := py "Aadhaar: 1234 5678 9010" in
  let d := {| text := py "1234 5678 9010"; start := 9; end_ := 23;
              confidence := 1;
              pattern := Some (py "\b\d{4}[-\s]?\d{4}[-\s]?\d{4}\b") |} in
  @engine_in_bounds Fixture.aadhaar_engine text
  /\ model_in_bounds Sample.redactor text
  /\ @detect_pii Latin1.db Fixture.aadhaar_engine Sample.redactor (Some text)
     = Ok [ (py "AADHAAR", [d]) ]
  /\ start d <= end_ d <= length text.
Proof.
  intros text d.
  assert (He : @engine_in_bounds Fixture.aadhaar_engine text).
  { intros pat m Hm. cbn [finditer Fixture.aadhaar_engine] in Hm.
    destruct (str_eqb pat _ && str_eqb text _); [|destruct Hm].
    destruct Hm as [<-|[]]. vm_compute. split; repeat constructor. }
  assert (Hm : model_in_bounds Sample.redactor text)
    by (intros model ents H; discriminate H).
  assert (Hd : @detect_pii Latin1.db Fixture.aadhaar_engine Sample.redactor
                 (Some text) = Ok [ (py "AADHAAR", [d]) ])
    by (vm_compute; reflexivity).
  split; [exact He|]. split; [exact Hm|]. split; [exact Hd|].
  refine (detected_spans_lie_inside_the_text Latin1.db Fixture.aadhaar_engine
            Sample.redactor text _ He Hm Hd (py "AADHAAR") [d] d _
            (or_introl eq_refl)).
  vm_compute. reflexivity.
Defined.

(** X17. [detect_pii] returns on every input, with each key once and no
    key with an empty list; without a text, or with the empty text, it
    returns the empty dictionary. *)
Theorem detected_categories_are_not_empty
    (U : UnicodeDB) (R : RegexEngine)
    (self : AdvancedPIIRedactor) (text : option str) :
  exists detected_pii,
    detect_pii self text = Ok detected_pii
    /\ NoDup (keys detected_pii)
    /\ (forall pii_type matches,
          In (pii_type, matches) detected_pii -> matches <> [])
    /\ (text = None \/ text = Some [] -> detected_pii = []).
Proof.
  destruct text as [[|c text']|].
  - exists []. split; [reflexivity|]. split; [constructor|].
    split; [intros ? ? []|reflexivity].
  - eexists. split; [apply detect_pii_stages; discriminate|].
    split; [apply refine_detections_wf|].
    split; [intros k l; apply refine_detections_nonempty|].
    intros [H|H]; discriminate.
  - exists []. split; [reflexivity|]. split; [constructor|].
    split; [intros ? ? []|reflexivity].
Qed.

(** X18. A model that raises is a model that is absent: [detect_pii]
    returns what it returns for the redactor whose model did not
    load. *)
Theorem nlp_failure_is_contained
    (U : UnicodeDB) (R : RegexEngine)
    (self : AdvancedPIIRedactor) (text : str)
    (model : str -> result (list Entity)) (e : exn) :
  self_nlp self = Some model -> model text = Raise e ->
  detect_pii self (Some text) = detect_pii (without_nlp self) (Some text).
Proof.
  intros Hn He. destruct text as [|c text']; [reflexivity|].
  rewrite !detect_pii_stages by discriminate.
  assert (H1 : detected_by_nlp self (c :: text') = []).
  { unfold detected_by_nlp. rewrite Hn, He. reflexivity. }
  rewrite H1. reflexivity.
Qed.

(** The theorem on a model that raises on every text. *)
Lemma nlp_failure_is_contained_witness :
  self_nlp Fixture.redactor_with_failing_model = Some Fixture.failing_model
  /\ Fixture.failing_model (py "Aadhaar: 1234 5678 9010") = Raise Exception
  /\ @detect_pii Latin1.db Fixture.aadhaar_engine
       Fixture.redactor_with_failing_model
       (Some (py "Aadhaar: 1234 5678 9010"))
     = @detect_pii Latin1.db Fixture.aadhaar_engine
         (without_nlp Fixture.redactor_with_failing_model)
         (Some (py "Aadhaar: 1234 5678 9010")).
Proof.
  split; [reflexivity|]. split; [reflexivity|].
  exact (nlp_failure_is_contained Latin1.db Fixture.aadhaar_engine
           Fixture.redactor_with_failing_model
           (py "Aadhaar: 1234 5678 9010") Fixture.failing_model Exception
           eq_refl eq_refl).
Defined.

Lemma str_eqb_app_l (a b c : str) : str_eqb (a ++ b) (a ++ c) = str_eqb b c.
Proof.
  induction a as [|x a IH]; [reflexivity|].
  cbn [app str_eqb]. rewrite N.eqb_refl. exact IH.
Qed.

Lemma nlp_key_not_refined label :
  ~ In (py "NLP_" ++ label)%list refined_categories.
Proof.
  intros H. vm_compute in H.
  repeat (destruct H as [H|H]; [discriminate|]). exact H.
Qed.

Lemma filed_under_label label ent :
  In label nlp_labels ->
  filed_under (py "NLP_" ++ label)%list ent = str_eqb (label_ ent) label.
Proof.
  intros Hl. unfold filed_under. rewrite str_eqb_app_l.
  destruct (str_eqb (label_ ent) label) eqn:E; [|apply andb_false_r].
  apply str_eqb_eq in E. rewrite E.
  rewrite (proj2 (str_mem_In label nlp_labels) Hl). reflexivity.
Qed.

Lemma collect_entities_get ents k :
  get_or_empty (collect_entities ents) k
  = List.map detection_of (filter (filed_under k) ents).
Proof.
  unfold collect_entities.
  apply (proj1 (proj2 (collect_entities_invariant ents [] []
                         ltac:(constructor)
                         (fun k => eq_refl)
                         (fun k (H : In k []) => match H with end)))).
Qed.

(** X19. Neither the threshold nor the refinement touches the entities
    of the model: for each of the six labels, the detections under
    [NLP_<label>] are the entities of that label, all of them and in the
    order of the model. *)
Theorem nlp_entities_are_never_filtered
    (U : UnicodeDB) (V : Validators) (R : RegexEngine)
    (self : AdvancedPIIRedactor) (text : str)
    (model : str -> result (list Entity)) (ents : list Entity)
    (detected_pii : dict (list Detection)) :
  self_patterns self = _get_comprehensive_patterns ->
  self_nlp self = Some model -> model text = Ok ents -> text <> [] ->
  detect_pii self (Some text) = Ok detected_pii ->
  forall label,
    In label nlp_labels ->
    get_or_empty detected_pii (py "NLP_" ++ label)%list
    = List.map detection_of
        (filter (fun ent => str_eqb (label_ ent) label) ents).
Proof.
  intros Hreg Hn He Htext Hdet label Hl.
  rewrite detect_pii_stages in Hdet by exact Htext. injection Hdet as <-.
  rewrite (merged_detections self _ Hreg).
  set (k := (py "NLP_" ++ label)%list).
  assert (Hwf : wf (detected_by_patterns self text
                    ++ detected_by_nlp self text)%list).
  { unfold wf, keys. rewrite map_app. apply NoDup_app.
    - apply detected_by_patterns_wf.
    - apply detected_by_nlp_wf.
    - intros x Hx Hx'.
      apply in_map_iff in Hx. destruct Hx as ([k1 l1] & <- & Hx).
      apply in_map_iff in Hx'. destruct Hx' as ([k2 l2] & E & Hx').
      cbn [fst] in *. subst k2.
      apply detected_by_patterns_entries in Hx.
      apply detected_by_nlp_entries in Hx'.
      apply (registry_keys_not_nlp k1); [|exact (proj1 Hx')].
      rewrite <- Hreg. exact (proj1 Hx). }
  assert (Hpat : get (detected_by_patterns self text) k = None).
  { apply get_None_keys. intros Hin. unfold keys in Hin.
    apply in_map_iff in Hin. destruct Hin as ([k1 l1] & E & Hin).
    cbn [fst] in E. subst k1.
    apply detected_by_patterns_entries in Hin. rewrite Hreg in Hin.
    apply (registry_keys_not_nlp k (proj1 Hin)).
    unfold k, nlp_keys. apply in_map. exact Hl. }
  unfold get_or_empty at 1. rewrite (refine_detections_get _ _ _ Hwf).
  rewrite get_app, Hpat.
  assert (Hkeep : forall l, filter (keeps k) l = l).
  { intros l. apply forallb_filter_id, forallb_forall. intros m _.
    apply keeps_other_categories, nlp_key_not_refined. }
  assert (Hnlp : get_or_empty (detected_by_nlp self text) k
                 = List.map detection_of
                     (filter (fun ent => str_eqb (label_ ent) label) ents)).
  { unfold detected_by_nlp. rewrite Hn, He. rewrite collect_entities_get.
    f_equal. apply filter_ext. intros ent.
    apply filed_under_label. exact Hl. }
  rewrite <- Hnlp. unfold get_or_empty.
  destruct (get (detected_by_nlp self text) k) as [l|] eqn:E; [|reflexivity].
  rewrite Hkeep. destruct l; reflexivity.
Qed.

(** The theorem on "ab" with a model that reports "a" and "b". *)
Lemma nlp_entities_are_never_filtered_witness :
  let detected_pii :=
    [ (py "NLP_PERSON",
       [ detection_of (Sample.person (py "a") 0 1);
         detection_of (Sample.person (py "b") 1 2) ]) ] in
  self_patterns Fixture.redactor_with_model
  = @_get_comprehensive_patterns Latin1.db Sample.accept_all
  /\ self_nlp Fixture.redactor_with_model = Some Sample.disjoint_model
  /\ Sample.disjoint_model (py "ab")
     = Ok [Sample.person (py "a") 0 1; Sample.person (py "b") 1 2]
  /\ py "ab" <> []
  /\ @detect_pii Latin1.db Sample.no_match Fixture.redactor_with_model
       (Some (py "ab")) = Ok detected_pii
  /\ In (py "PERSON") nlp_labels
  /\ get_or_empty detected_pii (py "NLP_" ++ py "PERSON")%list
     = List.map detection_of
         (filter (fun ent => str_eqb (label_ ent) (py "PERSON"))
            [Sample.person (py "a") 0 1; Sample.person (py "b") 1 2]).
Proof.
  intros detected_pii.
  assert (Hne : py "ab" <> []) by discriminate.
  assert (Hd : @detect_pii Latin1.db Sample.no_match
                 Fixture.redactor_with_model (Some (py "ab"))
               = Ok detected_pii) by (vm_compute; reflexivity).
  assert (Hl : In (py "PERSON") nlp_labels) by (left; reflexivity).
  split; [reflexivity|]. split; [reflexivity|]. split; [reflexivity|].
  split; [exact Hne|]. split; [exact Hd|]. split; [exact Hl|].
  exact (nlp_entities_are_never_filtered Latin1.db Sample.accept_all
           Sample.no_match Fixture.redactor_with_model (py "ab")
           Sample.disjoint_model _ detected_pii
           eq_refl eq_refl eq_refl Hne Hd (py "PERSON") Hl).
Defined.

(* ------------------------------------------------------------------ *)
(** ** From the input file to the log *)

Lemma existsb_permutation {A} (f : A -> bool) (l l' : list A) :
  Permutation l l' -> existsb f l = existsb f l'.
Proof.
  induction 1 as [|x l l' _ IH|x y l|l l' l'' _ IH1 _ IH2]; cbn.
  - reflexivity.
  - rewrite IH. reflexivity.
  - destruct (f x), (f y); reflexivity.
  - congruence.
Qed.

Lemma redact_matches_nth text pii_data :
  (forall k l, In (k, l) pii_data -> Forall (in_bounds (length text)) l) ->
  length (redact_matches text pii_data) = length text
  /\ forall i,
       nth_error (redact_matches text pii_data) i
       = if existsb (covers i) (concat (values pii_data)) then Some mask
         else nth_error text i.
Proof.
  intros Hb. unfold redact_matches. rewrite all_matches_concat.
  pose proof (sorted_reverse_permutation start Nat.ltb
                (concat (values pii_data))) as Hperm.
  assert (Hall : Forall (in_bounds (length text))
                   (sorted_reverse start Nat.ltb (concat (values pii_data)))).
  { eapply Permutation_Forall; [symmetry; exact Hperm|].
    apply Forall_forall. intros m Hm.
    apply in_concat in Hm. destruct Hm as (l & Hl & Hm). unfold values in Hl.
    apply in_map_iff in Hl. destruct Hl as ([k l'] & <- & Hl).
    specialize (Hb k l' Hl). rewrite Forall_forall in Hb. apply Hb. exact Hm. }
  destruct (redact_fold _ text Hall) as [Hlen Hnth].
  split; [exact Hlen|].
  intros i. rewrite Hnth, (existsb_permutation _ _ _ Hperm). reflexivity.
Qed.

(** X20. Redaction changes the detected offsets and nothing else: for
    spans inside the text, the redacted text holds the mask at every
    offset a detection covers and the character of the input at every
    other offset. *)
Theorem redaction_leaves_the_rest_untouched
    (text : str) (pii_data : dict (list Detection)) :
  (forall k l, In (k, l) pii_data -> Forall (in_bounds (length text)) l) ->
  forall i,
    nth_error (redact_matches text pii_data) i
    = if existsb (covers i) (concat (values pii_data)) then Some mask
      else nth_error text i.
Proof.
  intros Hb i. unfold redact_matches. rewrite all_matches_concat.
  pose proof (sorted_reverse_permutation start Nat.ltb
                (concat (values pii_data))) as Hperm.
  rewrite <- (existsb_permutation (covers i) _ _ Hperm).
  apply redact_fold.
  eapply Permutation_Forall; [symmetry; exact Hperm|].
  apply Forall_forall. intros m Hm.
  apply in_concat in Hm. destruct Hm as (l & Hl & Hm). unfold values in Hl.
  apply in_map_iff in Hl. destruct Hl as ([k l'] & <- & Hl).
  specialize (Hb k l' Hl). rewrite Forall_forall in Hb. apply Hb. exact Hm.
Qed.

(** The theorem on "hello world" with "hello" detected: the "w" stays. *)
Lemma redaction_leaves_the_rest_untouched_witness :
  let pii_data := [ (py "NAME", [Sample.detection 0 5 1]) ] in
  (forall k l, In (k, l) pii_data ->
               Forall (in_bounds (length (py "hello world"))) l)
  /\ nth_error (redact_matches (py "hello world") pii_data) 6
     = nth_error (py "hello world") 6.
Proof.
  intros pii_data.
  assert (Hb : forall k l, In (k, l) pii_data ->
                 Forall (in_bounds (length (py "hello world"))) l).
  { intros k l [H|[]]. injection H as _ <-. repeat constructor. }
  split; [exact Hb|].
  exact (redaction_leaves_the_rest_untouched (py "hello world") pii_data Hb 6).
Defined.

(** X21. From the input file to the output file: when the files read
    back what was written and the engine and the model report spans of
    the text, a call of [_redact_text] that returns, returns the output
    path; and if anything was detected the output file holds a text of
    the length of the input, with the mask at every detected offset and
    the character of the input elsewhere. *)
Theorem text_redaction_end_to_end
    (U : UnicodeDB) (R : RegexEngine) (F : FileSystem)
    (self : AdvancedPIIRedactor) (fs : files)
    (now input_path output_path : str) (text : str)
    (path : str) (self' : AdvancedPIIRedactor) (fs' : files) :
  reads_back_writes F ->
  engine_in_bounds text -> model_in_bounds self text ->
  extract_text_from_file fs input_path = Some text ->
  _redact_text self fs now input_path output_path = (Ok path, (self', fs')) ->
  exists pii_data,
    detect_pii self (Some text) = Ok pii_data
    /\ path = output_path
    /\ (pii_data <> [] ->
        exists redacted,
          extract_text_from_file fs' output_path = Some redacted
          /\ length redacted = length text
          /\ forall i,
               nth_error redacted i
               = if existsb (covers i) (concat (values pii_data))
                 then Some mask
                 else nth_error text i).
Proof.
  intros Hfs He Hm Hread Hcall.
  unfold _redact_text in Hcall. rewrite Hread in Hcall.
  destruct (detect_pii_total self (Some text)) as [pii_data Hdet].
  rewrite Hdet in Hcall. exists pii_data. split; [exact Hdet|].
  destruct pii_data as [|item rest].
  - destruct (copy2 fs input_path output_path) as [[u|e] fs0];
      [|discriminate].
    injection Hcall as <- _ _. split; [reflexivity|]. congruence.
  - destruct (write_text fs output_path (redact_matches text (item :: rest)))
      as [[u|e] fs0] eqn:Hw; [|discriminate].
    injection Hcall as <- _ <-. split; [reflexivity|]. intros _.
    destruct u. apply Hfs in Hw.
    exists (redact_matches text (item :: rest)). split; [exact Hw|].
    apply redact_matches_nth.
    exact (detect_pii_in_bounds self text _ He Hm Hdet).
Qed.

(** The theorem on a file "ab" in memory, with a model that reports "a"
    and "b". *)
Lemma text_redaction_end_to_end_witness :
  let fs := [(py "in.txt", py "ab")] in
  let call := @_redact_text Latin1.db Sample.no_match Sample.memory_files
                Fixture.redactor_with_model fs
                (py "2024-01-01T00:00:00") (py "in.txt") (py "out.txt") in
  reads_back_writes Sample.memory_files
  /\ @engine_in_bounds Sample.no_match (py "ab")
  /\ model_in_bounds Fixture.redactor_with_model (py "ab")
  /\ @extract_text_from_file Sample.memory_files fs (py "in.txt")
     = Some (py "ab")
  /\ fst call = Ok (py "out.txt")
  /\ exists pii_data,
       @detect_pii Latin1.db Sample.no_match Fixture.redactor_with_model
         (Some (py "ab")) = Ok pii_data
       /\ py "out.txt" = py "out.txt"
       /\ (pii_data <> [] ->
           exists redacted,
             @extract_text_from_file Sample.memory_files (snd (snd call))
               (py "out.txt") = Some redacted
             /\ length redacted = length (py "ab")
             /\ forall i,
                  nth_error redacted i
                  = if existsb (covers i) (concat (values pii_data))
                    then Some mask
                    else nth_error (py "ab") i).
Proof.
  intros fs call.
  assert (Hfs : reads_back_writes Sample.memory_files).
  { intros fs0 path content fs' H. cbn in H. injection H as <-.
    cbn. apply get_set_same. }
  assert (He : @engine_in_bounds Sample.no_match (py "ab"))
    by (intros pat m []).
  assert (Hm : model_in_bounds Fixture.redactor_with_model (py "ab")).
  { intros model ents H. injection H as <-. intros H. injection H as <-.
    repeat constructor. }
  assert (Hcall : call = (Ok (py "out.txt"), (fst (snd call), snd (snd call))))
    by (vm_compute; reflexivity).
  split; [exact Hfs|]. split; [exact He|]. split; [exact Hm|].
  split; [reflexivity|]. split; [vm_compute; reflexivity|].
  exact (text_redaction_end_to_end Latin1.db Sample.no_match
           Sample.memory_files Fixture.redactor_with_model fs
           (py "2024-01-01T00:00:00") (py "in.txt") (py "out.txt") (py "ab")
           (py "out.txt") (fst (snd call)) (snd (snd call))
           Hfs He Hm eq_refl Hcall).
Defined.

Section LogInvariant.
Context {U : UnicodeDB} {R : RegexEngine} {F : FileSystem}.

Lemma detect_pii_nonempty self text detected_pii :
  detect_pii self text = Ok detected_pii ->
  forall k l, In (k, l) detected_pii -> l <> [].
Proof.
  intros Hdet k l Hin. destruct text as [[|c text']|].
  - injection Hdet as <-. destruct Hin.
  - rewrite detect_pii_stages in Hdet by discriminate. injection Hdet as <-.
    exact (refine_detections_nonempty _ _ _ _ Hin).
  - injection Hdet as <-. destruct Hin.
Qed.

Lemma log_entry_consistent now input_path output_path
    (pii_data : dict (list Detection)) :
  wf pii_data -> pii_data <> [] ->
  (forall k l, In (k, l) pii_data -> l <> []) ->
  entry_consistent (log_entry_of now input_path output_path pii_data).
Proof.
  intros Hwf Hne Hl. unfold entry_consistent, log_entry_of.
  cbn [pii_detected total_pii_count pii_details].
  rewrite !(dict_comprehension_map _ _ Hwf).
  assert (Hkeys : forall W (f : list Detection -> W),
             keys (List.map (fun item => (fst item, f (snd item))) pii_data)
             = keys pii_data).
  { intros W f. unfold keys. rewrite map_map. reflexivity. }
  assert (Hvalues : values (List.map (fun item : str * list Detection =>
                                        (fst item, length (snd item)))
                                     pii_data)
                    = List.map (fun v => length v) (values pii_data)).
  { unfold values. rewrite !map_map. reflexivity. }
  split; [unfold wf; rewrite Hkeys; exact Hwf|].
  split; [destruct pii_data; [congruence|discriminate]|].
  split.
  - rewrite Hvalues. apply Forall_map. apply Forall_forall. intros l Hin.
    unfold values in Hin. apply in_map_iff in Hin.
    destruct Hin as ([k l'] & <- & Hin). cbn [snd].
    specialize (Hl k l' Hin). destruct l'; [congruence|cbn; lia].
  - split; [rewrite Hvalues; reflexivity|]. rewrite !Hkeys. reflexivity.
Qed.

End LogInvariant.

(** X22. [_redact_text] keeps the log consistent: if every entry lists
    at least one category, each with a count of at least 1, under keys
    that occur once, with a total that is the sum of the counts and
    details under the same keys, then so does every entry after the
    call. *)
Theorem redaction_log_stays_consistent
    (U : UnicodeDB) (R : RegexEngine) (F : FileSystem)
    (self : AdvancedPIIRedactor) (fs : files)
    (now input_path output_path : str) :
  Forall entry_consistent (self_redaction_log self) ->
  Forall entry_consistent
    (self_redaction_log
       (fst (snd (_redact_text self fs now input_path output_path)))).
Proof.
  intros Hlog. unfold _redact_text.
  destruct (detect_pii self (extract_text_from_file fs input_path))
    as [pii_data|e] eqn:Hdet; [|exact Hlog].
  destruct pii_data as [|item rest].
  { destruct (copy2 fs input_path output_path) as [[u|e] fs0]; exact Hlog. }
  destruct (extract_text_from_file fs input_path) as [text|]; [|exact Hlog].
  destruct (write_text fs output_path (redact_matches text (item :: rest)))
    as [[u|e] fs0]; [|exact Hlog].
  cbn [fst snd _log_redaction set_redaction_log self_redaction_log].
  apply Forall_app. split; [exact Hlog|].
  constructor; [|constructor].
  apply log_entry_consistent.
  - exact (detect_pii_wf _ _ _ Hdet).
  - discriminate.
  - exact (detect_pii_nonempty _ _ _ Hdet).
Qed.

(** The theorem on the first redaction of a redactor. *)
Lemma redaction_log_stays_consistent_witness :
  let self := @__init__ Latin1.db Sample.accept_all None
                (Some Sample.disjoint_model) in
  let call := @_redact_text Latin1.db Sample.no_match Sample.memory_files
                self [(py "in.txt", py "ab")]
                (py "2024-01-01T00:00:00") (py "in.txt") (py "out.txt") in
  Forall entry_consistent (self_redaction_log self)
  /\ List.map total_pii_count (self_redaction_log (fst (snd call))) = [2]
  /\ Forall entry_consistent (self_redaction_log (fst (snd call))).
Proof.
  intros self call.
  assert (H0 : Forall entry_consistent (self_redaction_log self))
    by constructor.
  split; [exact H0|]. split; [vm_compute; reflexivity|].
  exact (redaction_log_stays_consistent Latin1.db Sample.no_match
           Sample.memory_files self [(py "in.txt", py "ab")]
           (py "2024-01-01T00:00:00") (py "in.txt") (py "out.txt") H0).
Defined.

Lemma list_sum_cons (a : nat) (l : list nat) :
  list_sum (a :: l) = a + list_sum l.
Proof. reflexivity. Qed.

Lemma list_sum_set (d : dict nat) k v :
  list_sum (values (set d k v)) + get_or_zero d k = list_sum (values d) + v.
Proof.
  unfold get_or_zero.
  induction d as [|[k' v'] d IH]; cbn [set get values List.map snd list_sum fold_right].
  - cbn. lia.
  - destruct (str_eqb k k'); cbn [values List.map snd list_sum fold_right].
    + change (fold_right Nat.add 0 (List.map snd d)) with (list_sum (values d)).
      lia.
    + change (fold_right Nat.add 0 (List.map snd (set d k v)))
        with (list_sum (values (set d k v))).
      change (fold_right Nat.add 0 (List.map snd d)) with (list_sum (values d)).
      lia.
Qed.

Lemma list_sum_add_count found item :
  list_sum (values (add_count found item))
  = list_sum (values found) + snd item.
Proof.
  destruct item as [k c]. unfold add_count. cbn [snd].
  pose proof (list_sum_set found k 0) as H0.
  destruct (mem found k) eqn:Hmem.
  - pose proof (list_sum_set found k (get_or_zero found k + c)). lia.
  - assert (Hz : get_or_zero found k = 0).
    { unfold get_or_zero. unfold mem in Hmem.
      destruct (get found k); [discriminate|reflexivity]. }
    pose proof (list_sum_set (set found k 0) k
                  (get_or_zero (set found k 0) k + c)) as H1.
    assert (Hz' : get_or_zero (set found k 0) k = 0)
      by (unfold get_or_zero; rewrite get_set_same; reflexivity).
    lia.
Qed.

Lemma list_sum_add_counts (items : dict nat) : forall found,
  list_sum (values (fold_left add_count items found))
  = list_sum (values found) + list_sum (values items).
Proof.
  induction items as [|item items IH]; intros found; cbn [fold_left].
  - change (list_sum (values [])) with 0. lia.
  - rewrite IH, list_sum_add_count.
    change (list_sum (values (item :: items)))
      with (snd item + list_sum (values items)).
    lia.
Qed.

Lemma list_sum_aggregate (log : list LogEntry) : forall found,
  list_sum
    (values
       (fold_left
          (fun found entry => fold_left add_count (pii_detected entry) found)
          log found))
  = list_sum (values found)
    + list_sum
        (List.map (fun entry => list_sum (values (pii_detected entry))) log).
Proof.
  induction log as [|entry log IH]; intros found; cbn [fold_left List.map].
  - change (list_sum []) with 0. lia.
  - rewrite IH, list_sum_add_counts, list_sum_cons. lia.
Qed.

(** X23. In the summary of a consistent log that is not empty, the
    totals per category add up to the total of detections, which is at
    least the number of files. *)
Theorem summary_total_is_the_sum_of_its_categories
    (self : AdvancedPIIRedactor) :
  self_redaction_log self <> [] ->
  Forall entry_consistent (self_redaction_log self) ->
  exists total totals,
    get (get_redaction_summary self) (py "total_pii_redacted")
    = Some (VInt total)
    /\ get (get_redaction_summary self) (py "pii_types_found")
       = Some (VCounts totals)
    /\ list_sum (values totals) = total
    /\ length (self_redaction_log self) <= total.
Proof.
  intros Hne Hlog. unfold get_redaction_summary.
  destruct (self_redaction_log self) as [|entry log] eqn:E; [congruence|].
  rewrite <- E in *. clear E entry log Hne.
  exists (list_sum (List.map total_pii_count (self_redaction_log self))).
  exists (aggregate_pii_types (self_redaction_log self)).
  split; [reflexivity|]. split; [reflexivity|].
  unfold aggregate_pii_types. rewrite list_sum_aggregate.
  change (list_sum (values [])) with 0. rewrite Nat.add_0_l.
  induction Hlog as [|entry log Hentry _ IH]; [split; reflexivity|].
  destruct Hentry as (_ & Hne & Hpos & Htotal & _).
  destruct IH as [IH1 IH2].
  cbn [List.map length]. rewrite !list_sum_cons, Htotal.
  split; [lia|].
  assert (1 <= list_sum (values (pii_detected entry))).
  { destruct (pii_detected entry) as [|[k c] rest]; [congruence|].
    inversion Hpos; subst.
    change (values ((k, c) :: rest)) with (c :: values rest).
    rewrite list_sum_cons. cbn [snd] in *. lia. }
  lia.
Qed.

(** The theorem on a log of two entries. *)
Lemma summary_total_is_the_sum_of_its_categories_witness :
  let entry1 :=
    log_entry_of (py "t1") (py "a.txt") (py "a_out.txt")
      [ (py "MOBILE", [Sample.detection 9 19 1]);
        (py "NLP_PERSON", [Sample.detection 0 3 0.8; Sample.detection 4 8 0.8]) ] in
  let entry2 :=
    log_entry_of (py "t2") (py "b.txt") (py "b_out.txt")
      [ (py "NLP_PERSON", [Sample.detection 0 5 0.8]) ] in
  let self := set_redaction_log Sample.redactor [entry1; entry2] in
  self_redaction_log self <> []
  /\ Forall entry_consistent (self_redaction_log self)
  /\ exists total totals,
       get (get_redaction_summary self) (py "total_pii_redacted")
       = Some (VInt total)
       /\ get (get_redaction_summary self) (py "pii_types_found")
          = Some (VCounts totals)
       /\ list_sum (values totals) = total
       /\ length (self_redaction_log self) <= total.
Proof.
  intros entry1 entry2 self.
  assert (Hne : self_redaction_log self <> []) by discriminate.
  assert (Hlog : Forall entry_consistent (self_redaction_log self)).
  { repeat constructor; try discriminate;
      try (intros H; vm_compute in H; repeat destruct H as [H|H];
           discriminate || contradiction). }
  split; [exact Hne|]. split; [exact Hlog|].
  exact (summary_total_is_the_sum_of_its_categories self Hne Hlog).
Defined.

(** X24. For a redactor that has logged nothing, after a call of
    [_redact_text] that detects nothing, or that raises, the summary has
    no key [total_pii_redacted] and no key [pii_types_found]: indexing
    it raises [KeyError].  After a call that detects something and
    returns, [total_pii_redacted] is the number of detections and
    [total_files_processed] is 1. *)
Theorem summary_has_no_totals_after_a_clean_file
    (U : UnicodeDB) (R : RegexEngine) (F : FileSystem)
    (self : AdvancedPIIRedactor) (fs : files)
    (now input_path output_path : str) :
  self_redaction_log self = [] ->
  let call := _redact_text self fs now input_path output_path in
  let summary := get_redaction_summary (fst (snd call)) in
  exists pii_data,
    detect_pii self (extract_text_from_file fs input_path) = Ok pii_data
    /\ (pii_data = [] ->
        getitem summary (py "total_pii_redacted") = Raise KeyError
        /\ getitem summary (py "pii_types_found") = Raise KeyError)
    /\ (forall e,
          fst call = Raise e ->
          getitem summary (py "total_pii_redacted") = Raise KeyError)
    /\ (pii_data <> [] ->
        forall path,
          fst call = Ok path ->
          getitem summary (py "total_pii_redacted")
          = Ok (VInt (list_sum
                        (List.map (fun v => length v) (values pii_data))))
          /\ getitem summary (py "total_files_processed") = Ok (VInt 1)).
Proof.
  intros Hlog call summary. subst summary call.
  destruct (detect_pii_total self (extract_text_from_file fs input_path))
    as [pii_data Hdet].
  exists pii_data. split; [exact Hdet|].
  assert (Hempty : forall self',
             self_redaction_log self' = [] ->
             getitem (get_redaction_summary self') (py "total_pii_redacted")
             = Raise KeyError
             /\ getitem (get_redaction_summary self') (py "pii_types_found")
                = Raise KeyError).
  { intros self' H. unfold get_redaction_summary. rewrite H.
    split; reflexivity. }
  unfold _redact_text. rewrite Hdet.
  destruct pii_data as [|item rest].
  - destruct (copy2 fs input_path output_path) as [[u|e] fs0];
      cbn [fst snd];
      (split; [intros _; apply Hempty; exact Hlog|]);
      (split; [intros e' _; apply Hempty; exact Hlog|congruence]).
  - split; [discriminate|].
    destruct (extract_text_from_file fs input_path) as [text|].
    2:{ cbn [fst snd].
        split; [intros e' _; apply Hempty; exact Hlog|].
        intros _ path H. discriminate H. }
    destruct (write_text fs output_path (redact_matches text (item :: rest)))
      as [[u|e] fs0]; cbn [fst snd].
    + split; [intros e' H; discriminate H|].
      intros _ path _. unfold get_redaction_summary, _log_redaction.
      cbn [set_redaction_log self_redaction_log].
      rewrite Hlog. cbn [app]. split; [|reflexivity].
      change (getitem _ _)
        with (Ok (VInt (list_sum
                          (List.map total_pii_count
                             [log_entry_of now input_path output_path
                                (item :: rest)])))).
      cbn [List.map total_pii_count log_entry_of].
      rewrite list_sum_cons. change (list_sum []) with 0.
      rewrite Nat.add_0_r. reflexivity.
    + split; [intros e' _; apply Hempty; exact Hlog|].
      intros _ path H. discriminate H.
Qed.

(** The theorem on a file in which nothing is detected. *)
Lemma summary_has_no_totals_after_a_clean_file_witness :
  let call := @_redact_text Latin1.db Sample.no_match Sample.memory_files
                Sample.redactor [(py "in.txt", py "ab")]
                (py "2024-01-01T00:00:00") (py "in.txt") (py "out.txt") in
  self_redaction_log Sample.redactor = []
  /\ fst call = Ok (py "out.txt")
  /\ exists pii_data,
       @detect_pii Latin1.db Sample.no_match Sample.redactor
         (@extract_text_from_file Sample.memory_files
            [(py "in.txt", py "ab")] (py "in.txt")) = Ok pii_data
       /\ (pii_data = [] ->
           getitem (get_redaction_summary (fst (snd call)))
             (py "total_pii_redacted") = Raise KeyError
           /\ getitem (get_redaction_summary (fst (snd call)))
                (py "pii_types_found") = Raise KeyError)
       /\ (forall e,
             fst call = Raise e ->
             getitem (get_redaction_summary (fst (snd call)))
               (py "total_pii_redacted") = Raise KeyError)
       /\ (pii_data <> [] ->
           forall path,
             fst call = Ok path ->
             getitem (get_redaction_summary (fst (snd call)))
               (py "total_pii_redacted")
             = Ok (VInt (list_sum
                           (List.map (fun v => length v) (values pii_data))))
             /\ getitem (get_redaction_summary (fst (snd call)))
                  (py "total_files_processed") = Ok (VInt 1)).
Proof.
  intros call.
  split; [reflexivity|]. split; [vm_compute; reflexivity|].
  exact (summary_has_no_totals_after_a_clean_file Latin1.db Sample.no_match
           Sample.memory_files Sample.redactor [(py "in.txt", py "ab")]
           (py "2024-01-01T00:00:00") (py "in.txt") (py "out.txt") eq_refl).
Defined.

(** X25. [validate_redaction_quality] returns on every input; its
    answer is [True] exactly when [detect_pii] finds nothing in the
    text extracted from the redacted file, and so it is [True] when no
    text can be extracted from that file, or an empty one. *)
Theorem quality_check_passes_when_nothing_is_read
    (U : UnicodeDB) (R : RegexEngine) (F : FileSystem)
    (self : AdvancedPIIRedactor) (fs : files)
    (original_path redacted_path : str) :
  exists answer,
    validate_redaction_quality self fs original_path redacted_path = Ok answer
    /\ (answer = true <->
        detect_pii self (extract_text_from_file fs redacted_path) = Ok [])
    /\ (extract_text_from_file fs redacted_path = None
        \/ extract_text_from_file fs redacted_path = Some [] ->
        answer = true).
Proof.
  unfold validate_redaction_quality.
  destruct (detect_pii_total self (extract_text_from_file fs redacted_path))
    as [remaining Hdet].
  rewrite Hdet. cbn [bind try_except].
  destruct remaining as [|item rest].
  - exists true. cbn. split; [reflexivity|]. split; [tauto|auto].
  - exists false. cbn. split; [reflexivity|]. split.
    + split; [discriminate|]. intros H. discriminate H.
    + intros [H|H]; rewrite H in Hdet; discriminate Hdet.
Qed.

(* ------------------------------------------------------------------ *)
(** ** Redaction of a Word document *)

Lemma masks_some_refl s : masks_some s s.
Proof. split; auto. Qed.

Lemma masks_some_trans a b c :
  masks_some a b -> masks_some b c -> masks_some a c.
Proof.
  intros [L1 H1] [L2 H2]. split; [congruence|].
  intros i. destruct (H2 i) as [E|E]; [|auto].
  rewrite E. apply H1.
Qed.

Lemma masks_some_cons c s out :
  masks_some s out -> masks_some (c :: s) (c :: out).
Proof.
  intros [L H]. split; [cbn; congruence|].
  intros [|i]; cbn; auto.
Qed.

Lemma masks_some_app n s out :
  n <= length s ->
  masks_some (skipn n s) out -> masks_some s (repeat mask n ++ out).
Proof.
  revert s. induction n as [|n IH]; intros s Hn H; [exact H|].
  destruct s as [|c s]; [cbn in Hn; lia|].
  cbn [repeat app skipn] in *.
  specialize (IH s ltac:(cbn in Hn; lia) H). destruct IH as [L Hi].
  split; [cbn; congruence|].
  intros [|i]; cbn; auto.
Qed.

Lemma startswith_length old s :
  startswith old s = true -> length old <= length s.
Proof.
  revert s. induction old as [|a old IH]; intros [|b s] H; cbn in *;
    try lia; try discriminate.
  apply andb_true_iff in H. specialize (IH s (proj2 H)). lia.
Qed.

Lemma replace_from_skip old new : forall s k,
  replace_from old new k s = replace_from old new 0 (skipn k s).
Proof.
  induction s as [|c s IH]; intros [|k]; try reflexivity.
  cbn [replace_from skipn]. apply IH.
Qed.

(** One replacement of [old] by as many masks. *)
Lemma replace_from_masks old : forall n s,
  length s <= n -> old <> [] ->
  masks_some s (replace_from old (repeat mask (length old)) 0 s).
Proof.
  induction n as [|n IH]; intros s Hn Hold.
  - destruct s; [apply masks_some_refl|cbn in Hn; lia].
  - destruct s as [|c s]; [apply masks_some_refl|].
    cbn [replace_from].
    destruct (startswith old (c :: s)) eqn:E.
    + rewrite replace_from_skip.
      pose proof (startswith_length _ _ E) as Hlen.
      assert (Hsk : skipn (length old) (c :: s) = skipn (length old - 1) s).
      { destruct old; [congruence|]. cbn [length skipn].
        rewrite Nat.sub_succ, Nat.sub_0_r. reflexivity. }
      apply (masks_some_app (length old) (c :: s)); [exact Hlen|].
      rewrite Hsk. apply IH; [|exact Hold].
      rewrite length_skipn. cbn in Hn. lia.
    + apply masks_some_cons. apply IH; [cbn in Hn; lia|exact Hold].
Qed.

Lemma flat_map_singleton (s : str) : flat_map (fun c => [c]) s = s.
Proof.
  induction s as [|c s IH]; [reflexivity|]. cbn. rewrite IH. reflexivity.
Qed.

Lemma str_replace_masks old s :
  masks_some s (str_replace old (repeat mask (length old)) s).
Proof.
  unfold str_replace. destruct old as [|a old'] eqn:E.
  - cbn [length repeat app].
    rewrite flat_map_singleton. apply masks_some_refl.
  - rewrite <- E. apply (replace_from_masks old (length s)); [lia|congruence].
Qed.

(** A text without the mask that occurs after masking occurred before. *)
Lemma startswith_unmasked old : forall s out,
  ~ In mask old ->
  length out = length s ->
  (forall i, nth_error out i = nth_error s i \/ nth_error out i = Some mask) ->
  startswith old out = true -> startswith old s = true.
Proof.
  induction old as [|a old IH]; intros s out Hm L H E; [reflexivity|].
  destruct out as [|b out]; [discriminate|].
  destruct s as [|c s]; [discriminate|].
  cbn [startswith] in *. apply andb_true_iff in E. destruct E as [E1 E2].
  apply N.eqb_eq in E1. subst b.
  assert (Hc : a = c).
  { destruct (H 0) as [E|E]; cbn in E; [congruence|].
    exfalso. apply Hm. left. congruence. }
  subst c. rewrite N.eqb_refl. cbn [andb].
  apply (IH s out).
  - intros Hin. apply Hm. right. exact Hin.
  - cbn in L. lia.
  - intros i. exact (H (S i)).
  - exact E2.
Qed.

Lemma str_in_unmasked old : forall s out,
  ~ In mask old -> masks_some s out ->
  str_in old out = true -> str_in old s = true.
Proof.
  intros s out Hm [L H]. revert s L H.
  induction out as [|b out IH]; intros s L H E.
  - destruct s; [exact E|discriminate].
  - destruct s as [|c s]; [discriminate|].
    cbn [str_in] in *. apply orb_true_iff in E. apply orb_true_iff.
    destruct E as [E|E].
    + left. apply (startswith_unmasked old (c :: s) (b :: out)); assumption.
    + right. apply (IH s).
      * cbn in L. lia.
      * intros i. exact (H (S i)).
      * exact E.
Qed.

Lemma str_in_masks old n out :
  old <> [] -> ~ In mask old ->
  str_in old (repeat mask n ++ out) = str_in old out.
Proof.
  intros Hold Hm. induction n as [|n IH]; [reflexivity|].
  cbn [repeat app str_in]. rewrite IH.
  destruct old as [|a old']; [congruence|].
  cbn [startswith].
  destruct (N.eqb_spec a mask) as [->|_]; [|reflexivity].
  exfalso. apply Hm. left. reflexivity.
Qed.

(** After its replacement, a text without the mask occurs no more. *)
Lemma replace_from_removes old : forall n s,
  length s <= n -> old <> [] -> ~ In mask old ->
  str_in old (replace_from old (repeat mask (length old)) 0 s) = false.
Proof.
  induction n as [|n IH]; intros s Hn Hold Hm.
  - destruct s; [|cbn in Hn; lia]. cbn.
    destruct old; [congruence|reflexivity].
  - destruct s as [|c s].
    { cbn. destruct old; [congruence|reflexivity]. }
    cbn [replace_from].
    destruct (startswith old (c :: s)) eqn:E.
    + rewrite replace_from_skip, str_in_masks by assumption.
      apply IH; [|exact Hold|exact Hm].
      rewrite length_skipn. cbn in Hn. lia.
    + cbn [str_in].
      rewrite (IH s) by (assumption || (cbn in Hn; lia)).
      rewrite orb_false_r.
      destruct (startswith old
                  (c :: replace_from old (repeat mask (length old)) 0 s))
        eqn:E'; [|reflexivity].
      pose proof (replace_from_masks old (length s) s (le_n _) Hold)
        as [L H].
      assert (E'' : startswith old (c :: s) = true).
      { apply (startswith_unmasked old (c :: s)
                 (c :: replace_from old (repeat mask (length old)) 0 s) Hm).
        - cbn. rewrite L. reflexivity.
        - intros [|i]; cbn; auto.
        - exact E'. }
      congruence.
Qed.

Lemma replacements_of_masks pii_data :
  mask_replacements (replacements_of pii_data).
Proof.
  unfold replacements_of.
  assert (Hinner : forall l replacements,
             mask_replacements replacements ->
             mask_replacements
               (fold_left
                  (fun replacements m =>
                     set replacements (text m)
                       (repeat mask (length (text m))))
                  l replacements)).
  { induction l as [|m l IH]; intros replacements H; [exact H|].
    cbn [fold_left]. apply IH. intros o r Hin.
    apply In_set in Hin. destruct Hin as [[-> ->]|Hin]; [reflexivity|].
    exact (H o r Hin). }
  assert (Houter : forall items replacements,
             mask_replacements replacements ->
             mask_replacements
               (fold_left
                  (fun replacements (item : str * list Detection) =>
                     fold_left
                       (fun replacements m =>
                          set replacements (text m)
                            (repeat mask (length (text m))))
                       (snd item) replacements)
                  items replacements)).
  { induction items as [|item items IH]; intros replacements H; [exact H|].
    cbn [fold_left]. apply IH. apply Hinner. exact H. }
  apply Houter. intros o r [].
Qed.

Lemma replacements_of_keys pii_data k l m :
  In (k, l) pii_data -> In m l ->
  In (text m) (keys (replacements_of pii_data)).
Proof.
  unfold replacements_of.
  assert (Hkeep : forall (d : dict str) key value x,
             In x (keys d) -> In x (keys (set d key value))).
  { intros d key value x Hx. rewrite keys_set.
    destruct (mem d key); [exact Hx|apply in_or_app; left; exact Hx]. }
  assert (Hnew : forall (d : dict str) key value,
             In key (keys (set d key value))).
  { intros d key value. apply mem_keys. unfold mem.
    rewrite get_set_same. reflexivity. }
  assert (Hinner : forall l0 replacements x,
             In x (keys replacements)
             \/ (exists m0, In m0 l0 /\ x = text m0) ->
             In x (keys
                     (fold_left
                        (fun replacements m =>
                           set replacements (text m)
                             (repeat mask (length (text m))))
                        l0 replacements))).
  { induction l0 as [|m0 l0 IH]; intros replacements x H.
    - destruct H as [H|(m1 & [] & _)]. exact H.
    - cbn [fold_left]. apply IH.
      destruct H as [H|(m1 & [<-|Hm1] & ->)].
      + left. apply Hkeep. exact H.
      + left. apply Hnew.
      + right. exists m1. auto. }
  assert (Houter : forall items replacements x,
             In x (keys replacements)
             \/ (exists k0 l0 m0,
                   In (k0, l0) items /\ In m0 l0 /\ x = text m0) ->
             In x (keys
                     (fold_left
                        (fun replacements (item : str * list Detection) =>
                           fold_left
                             (fun replacements m =>
                                set replacements (text m)
                                  (repeat mask (length (text m))))
                             (snd item) replacements)
                        items replacements))).
  { induction items as [|[k0 l0] items IH]; intros replacements x H.
    - destruct H as [H|(k1 & l1 & m1 & [] & _)]. exact H.
    - cbn [fold_left snd]. apply IH.
      destruct H as [H|(k1 & l1 & m1 & [E|Hin] & Hm1 & ->)].
      + left. apply Hinner. left. exact H.
      + injection E as -> ->. left. apply Hinner. right. exists m1. auto.
      + right. exists k1, l1, m1. auto. }
  intros Hin Hm. apply Houter. right. exists k, l, m. auto.
Qed.

Lemma redact_paragraph_masks replacements : forall paragraph_text,
  mask_replacements replacements ->
  masks_some paragraph_text (redact_paragraph replacements paragraph_text).
Proof.
  unfold redact_paragraph.
  induction replacements as [|[original replacement] rest IH];
    intros paragraph_text H; [apply masks_some_refl|].
  cbn [fold_left].
  assert (Hr : replacement = repeat mask (length original))
    by (apply H; left; reflexivity).
  assert (Hrest : mask_replacements rest)
    by (intros o r Hin; apply H; right; exact Hin).
  eapply masks_some_trans; [|apply IH; exact Hrest].
  destruct (str_in original paragraph_text); [|apply masks_some_refl].
  rewrite Hr. apply str_replace_masks.
Qed.

Lemma redact_paragraph_removes replacements : forall paragraph_text original,
  mask_replacements replacements ->
  In original (keys replacements) ->
  original <> [] -> ~ In mask original ->
  str_in original (redact_paragraph replacements paragraph_text) = false.
Proof.
  induction replacements as [|[o r] rest IH];
    intros paragraph_text original H Hin Hne Hm; [destruct Hin|].
  assert (Hr : r = repeat mask (length o)) by (apply H; left; reflexivity).
  assert (Hrest : mask_replacements rest)
    by (intros o' r' Hin'; apply H; right; exact Hin').
  unfold redact_paragraph. cbn [fold_left].
  fold (redact_paragraph rest
          (if str_in o paragraph_text then str_replace o r paragraph_text
           else paragraph_text)).
  destruct Hin as [E|Hin].
  - cbn [fst] in E. subst o.
    set (t := if str_in original paragraph_text
              then str_replace original r paragraph_text
              else paragraph_text).
    assert (Ht : str_in original t = false).
    { unfold t. destruct (str_in original paragraph_text) eqn:E;
        [|exact E].
      rewrite Hr. unfold str_replace.
      destruct original as [|a original'] eqn:Eo; [congruence|].
      rewrite <- Eo.
      apply (replace_from_removes original (length paragraph_text));
        [lia|congruence|congruence]. }
    destruct (str_in original (redact_paragraph rest t)) eqn:E;
      [|reflexivity].
    rewrite (str_in_unmasked original t _ Hm
               (redact_paragraph_masks rest t Hrest) E) in Ht.
    discriminate.
  - apply IH; assumption.
Qed.

(** X30. Word redaction masks every occurrence: the loop of [_redact_word]
    over the replacements leaves a paragraph of the same length, each
    character of which is the one it was or the mask, and in which no
    detected text occurs any more, if that text is not empty and holds no
    mask character itself. *)
Theorem word_redaction_masks_every_occurrence
    (pii_data : dict (list Detection)) (paragraph_text : str) :
  let replacements := replacements_of pii_data in
  let out := redact_paragraph replacements paragraph_text in
  length out = length paragraph_text
  /\ (forall i,
        nth_error out i = nth_error paragraph_text i
        \/ nth_error out i = Some mask)
  /\ (forall pii_type matches m,
        In (pii_type, matches) pii_data -> In m matches ->
        text m <> [] -> ~ In mask (text m) ->
        str_in (text m) out = false).
Proof.
  intros replacements out.
  pose proof (redact_paragraph_masks replacements paragraph_text
                (replacements_of_masks pii_data)) as [L H].
  split; [exact L|]. split; [exact H|].
  intros pii_type matches m Hin Hm Hne Hmask.
  apply redact_paragraph_removes; try assumption.
  - apply replacements_of_masks.
  - exact (replacements_of_keys pii_data pii_type matches m Hin Hm).
Qed.

(* ------------------------------------------------------------------ *)
(** ** The earlier revision *)

Lemma for_each_raises {A S} (body : S -> A -> result S) (l : list A) (a : A) :
  In a l -> (forall s, exists e, body s a = Raise e) ->
  forall s, exists e, for_each body l s = Raise e.
Proof.
  induction l as [|x l IH]; intros Hin Hraise s; [destruct Hin|].
  cbn [for_each]. destruct (body s x) as [s'|e] eqn:E.
  - cbn [bind]. destruct Hin as [->|Hin].
    + destruct (Hraise s) as [e He]. congruence.
    + apply IH; assumption.
  - exists e. reflexivity.
Qed.

(** X26. In the earlier revision a validator that raises stops the
    detection: if the validator of a category raises on a match of its
    pattern, [detect_pii] raises. *)
Theorem legacy_validator_faults_propagate
    (U : UnicodeDB) (R : RegexEngine) (A : FindallEngine)
    (self : Legacy.AdvancedPIIRedactor) (text pii_type : str)
    (config : Legacy.PatternConfig) (m : MatchObject)
    (validate : str -> result bool) (e : exn) :
  text <> [] ->
  In (pii_type, config) (Legacy.self_patterns self) ->
  In m (finditer (Legacy.pattern config) text) ->
  Legacy.validation config = Some validate ->
  validate (substr text (fst (m_span m)) (snd (m_span m))) = Raise e ->
  exists e', Legacy.detect_pii self (Some text) = Raise e'.
Proof.
  intros Htext Hc Hm Hv He.
  assert (Hscan : forall matches,
             exists e',
               (found <- Legacy.scan_match self text config m ;;
                Ok (match found with
                    | Some d => matches ++ [d]
                    | None => matches
                    end)%list) = Raise e').
  { intros matches. exists e. unfold Legacy.scan_match.
    rewrite Hv, He. reflexivity. }
  assert (Hcat : exists e', Legacy.scan_category self text config = Raise e').
  { unfold Legacy.scan_category.
    apply (for_each_raises _ _ m Hm Hscan). }
  assert (Hstage : exists e', Legacy.pattern_stage self text = Raise e').
  { unfold Legacy.pattern_stage.
    apply (for_each_raises _ _ (pii_type, config) Hc).
    intros detected. destruct Hcat as [e' ->]. exists e'. reflexivity. }
  destruct Hstage as [e' Hstage]. exists e'.
  destruct text as [|c text']; [congruence|].
  unfold Legacy.detect_pii. rewrite Hstage. reflexivity.
Qed.

(** The theorem on twelve superscript twos, for an engine that matches
    them. *)
Lemma legacy_validator_faults_propagate_witness :
  let config :=
    {| Legacy.pattern := py "\b\d{4}[-\s]?\d{4}[-\s]?\d{4}\b";
       Legacy.context := Some (py "(?i)(aadhaar|aadhar|uid|unique.*id)");
       Legacy.validation := Some (@Legacy._validate_aadhaar Latin1.db) |} in
  let self :=
    {| Legacy.self_config := Legacy.default_config;
       Legacy.self_nlp := None;
       Legacy.self_patterns := [ (py "AADHAAR", config) ];
       Legacy.self_redaction_log := [] |} in
  let engine : RegexEngine :=
    {| finditer := fun _ _ => [ {| m_span := (0, 12); m_groups := [] |} ] |} in
  let context_engine : FindallEngine := {| findall := fun _ _ => [] |} in
  repeat 178%N 12 <> []
  /\ @Legacy._validate_aadhaar Latin1.db (repeat 178%N 12) = Raise ValueError
  /\ exists e',
       @Legacy.detect_pii engine context_engine self (Some (repeat 178%N 12))
       = Raise e'.
Proof.
  intros config self engine context_engine.
  assert (Hne : repeat 178%N 12 <> []) by discriminate.
  assert (Hr : @Legacy._validate_aadhaar Latin1.db (repeat 178%N 12)
               = Raise ValueError) by (vm_compute; reflexivity).
  split; [exact Hne|]. split; [exact Hr|].
  exact (legacy_validator_faults_propagate Latin1.db engine context_engine
           self (repeat 178%N 12) (py "AADHAAR") config
           {| m_span := (0, 12); m_groups := [] |}
           (@Legacy._validate_aadhaar Latin1.db) ValueError
           Hne (or_introl eq_refl) (or_introl eq_refl) eq_refl Hr).
Defined.

(** X27. The earlier revision logs every redaction that returns: a call
    of [_redact_text] that returns has appended one entry, with the
    total 0 when nothing was detected, and the summary counts one file
    more; a call that raises leaves the log as it was; and the summary
    has its totals for every log, the empty one included. *)
Theorem legacy_redaction_always_logs
    (U : UnicodeDB) (R : RegexEngine) (A : FindallEngine) (F : FileSystem)
    (self : Legacy.AdvancedPIIRedactor) (fs : files)
    (now input_path output_path : str) :
  let call := Legacy._redact_text self fs now input_path output_path in
  let self' := fst (snd call) in
  (forall path,
     fst call = Ok path ->
     exists pii_data,
       Legacy.detect_pii self (extract_text_from_file fs input_path)
       = Ok pii_data
       /\ Legacy.self_redaction_log self'
          = (Legacy.self_redaction_log self
             ++ [Legacy.log_entry_of now input_path output_path pii_data])%list
       /\ (pii_data = [] ->
           Legacy.total_pii_count
             (Legacy.log_entry_of now input_path output_path pii_data) = 0)
       /\ get (Legacy.get_redaction_summary self')
              (py "total_files_processed")
          = Some (Legacy.VInt (S (length (Legacy.self_redaction_log self)))))
  /\ (forall e,
        fst call = Raise e ->
        Legacy.self_redaction_log self' = Legacy.self_redaction_log self)
  /\ get (Legacy.get_redaction_summary self) (py "total_pii_redacted")
     = Some (Legacy.VInt
               (list_sum (List.map Legacy.total_pii_count
                            (Legacy.self_redaction_log self)))).
Proof.
  intros call self'. subst self' call. unfold Legacy._redact_text.
  destruct (Legacy.detect_pii self (extract_text_from_file fs input_path))
    as [pii_data|e0] eqn:Hdet.
  2:{ cbn [fst snd]. split; [intros path H; discriminate H|].
      split; [reflexivity|reflexivity]. }
  destruct (extract_text_from_file fs input_path) as [text|].
  - destruct (write_text fs output_path (redact_matches text pii_data))
      as [[u|e0] fs0]; cbn [fst snd].
    + split; [|split; [intros e H; discriminate H|reflexivity]].
      intros path _. exists pii_data. split; [reflexivity|].
      split; [reflexivity|]. split; [intros ->; reflexivity|].
      unfold Legacy.get_redaction_summary, Legacy._log_redaction.
      cbn [Legacy.self_redaction_log get]. rewrite str_eqb_refl.
      rewrite length_app. cbn [length]. rewrite Nat.add_1_r. reflexivity.
    + split; [intros path H; discriminate H|].
      split; [reflexivity|reflexivity].
  - destruct (write_text fs output_path []) as [[u|e0] fs0]; cbn [fst snd];
      (split; [intros path H; discriminate H|]);
      (split; [reflexivity|reflexivity]).
Qed.

Section RevisionFacts.
Context {U : UnicodeDB} (L : UnicodeLaws U) (D : DigitLaws U).

Lemma digit_values_repeat n c k :
  n < 10 -> c = (48 + N.of_nat n)%N ->
  digit_values (repeat c k) = Some (repeat n k).
Proof.
  intros Hn ->. induction k as [|k IH]; [reflexivity|].
  cbn [repeat digit_values]. rewrite (ascii_digit_value D Hn), IH.
  reflexivity.
Qed.

End RevisionFacts.

(** X28. The two revisions of the Aadhaar validator agree wherever the
    earlier one returns: the test for twelve 0s or twelve 1s of the
    later revision rejects nothing the checksum accepts. *)
Theorem aadhaar_revisions_agree
    (U : UnicodeDB) (L : UnicodeLaws U) (D : DigitLaws U)
    (number : str) (answer : bool) :
  Legacy._validate_aadhaar number = Ok answer ->
  _validate_aadhaar number = Ok answer.
Proof.
  unfold Legacy._validate_aadhaar, _validate_aadhaar.
  set (digits := strip_separators number).
  destruct (Nat.eqb_spec (length digits) 12) as [Hlen|Hlen]; cbn [negb orb];
    [|auto].
  destruct (digit_values (rev digits)) as [rs|] eqn:Hrs.
  2:{ rewrite (verhoeff_loop_not_digits L _ 0 0 Hrs) by lia. discriminate. }
  rewrite (verhoeff_loop_digits L _ _ 0 0 Hrs) by lia. cbn [bind].
  assert (Hvs : exists vs, digit_values digits = Some vs /\ rs = rev vs).
  { rewrite digit_values_rev in Hrs.
    destruct (digit_values digits) as [vs|]; [|discriminate].
    cbn in Hrs. injection Hrs as <-. exists vs. auto. }
  destruct Hvs as (vs & Hvs & ->).
  assert (Hne : digits <> []) by (intros E; rewrite E in Hlen; discriminate).
  rewrite (str_isdigit_values L _ _ Hne Hvs). cbn [negb].
  destruct (str_eqb digits (repeat 48%N 12)) eqn:E0; cbn [orb].
  { apply str_eqb_eq in E0. rewrite E0 in Hvs.
    rewrite (digit_values_repeat D 0 48%N 12) in Hvs by (reflexivity || lia).
    injection Hvs as <-. intros H. injection H as <-.
    vm_compute. reflexivity. }
  destruct (str_eqb digits (repeat 49%N 12)) eqn:E1.
  { apply str_eqb_eq in E1. rewrite E1 in Hvs.
    rewrite (digit_values_repeat D 1 49%N 12) in Hvs by (reflexivity || lia).
    injection Hvs as <-. intros H. injection H as <-.
    vm_compute. reflexivity. }
  auto.
Qed.

(** The theorem on twelve 1s. *)
Lemma aadhaar_revisions_agree_witness :
  UnicodeLaws Latin1.db /\ DigitLaws Latin1.db
  /\ @Legacy._validate_aadhaar Latin1.db (py "1111-1111-1111") = Ok false
  /\ @_validate_aadhaar Latin1.db (py "1111-1111-1111") = Ok false.
Proof.
  assert (H : @Legacy._validate_aadhaar Latin1.db (py "1111-1111-1111")
              = Ok false) by (vm_compute; reflexivity).
  split; [exact latin1_laws|]. split; [exact latin1_digit_laws|].
  split; [exact H|].
  exact (aadhaar_revisions_agree Latin1.db latin1_laws latin1_digit_laws
           (py "1111-1111-1111") false H).
Defined.

(** X29. What the later revision accepts, the earlier one accepted:
    for mobile numbers, e-mail addresses and pincodes. *)
Theorem later_validators_are_stricter (U : UnicodeDB) (candidate : str) :
  (Validator._validate_mobile candidate = Ok true ->
   Legacy._validate_mobile candidate = Ok true)
  /\ (Validator._validate_email candidate = Ok true ->
      Legacy._validate_email candidate = Ok true)
  /\ (Validator._validate_pincode candidate = Ok true ->
      Legacy._validate_pincode candidate = Ok true).
Proof.
  repeat split.
  - unfold Validator._validate_mobile, Legacy._validate_mobile,
      Validator.strip_dialling.
    destruct (negb (length _ =? 10)); [discriminate|].
    destruct (index _ 0) as [first|e]; [|discriminate]. cbn [bind].
    intros H. injection H as H. apply andb_true_iff in H.
    f_equal. exact (proj1 H).
  - unfold Validator._validate_email, Legacy._validate_email.
    destruct (negb (str_in (py "@") candidate)); [discriminate|].
    destruct (index _ 1) as [domain|e]; [|discriminate]. cbn [bind].
    destruct (str_in (py ".") domain); [reflexivity|discriminate].
  - unfold Validator._validate_pincode, Legacy._validate_pincode.
    intros H. injection H as H. apply andb_true_iff in H.
    rewrite (proj1 H). reflexivity.
Qed.
